(** * llama-bench-runner: the sweep runner, embedded and verified

    A shallow embedding of [llama-bench-runner.py]: the sweep
    configuration ([BenchConfig]), the progress reporter
    ([BenchmarkVisualizer]), the sweep executor ([LlamaBenchRunner]) and
    [main].

    Python objects are modelled as follows.
    - [int] is [Z]; [float] is an IEEE-754 binary64 value, a [spec_float]
      of the Standard Library evaluated at precision 53 and [emax] 1024.
    - [str] is [string]; a character stands for a code point below 256.
    - A JSON-decoded [dict] is an association list in insertion order.
    - A raised exception is the [Raise] outcome of the [result] monad.
    - Effects (console, child processes, files) are threaded through an
      explicit [world]; what the environment answers (child output, exit
      codes, write failures, the date) is read from an oracle.
    - A [KeyboardInterrupt] reaches the program where it waits on its
      surroundings: in [input], [Popen], [readline], [wait] and the
      write of the output file.
    - A [Path] is a [PurePosixPath]: a root and the parts between the
      slashes, empty parts and [.] dropped; [str] puts them together
      again.
    - What [rich] draws and what [json.dump] writes are kept as data
      ([row], [JsonDump]), not as text.  [Console.print] reads its text
      as markup and raises a [MarkupError] on a text it cannot read;
      which texts those are is left to the library.

    The definitions come first, in the order of the source; the
    properties follow, one section for each component. *)

From Stdlib Require Import ZArith String Ascii List Bool Lia.
From Stdlib Require Import SpecFloat DecimalString.
From stdpp Require Import gmap strings list.

Open Scope string_scope.
Open Scope Z_scope.

(* ================================================================== *)
(** * Exceptions and the result monad                                  *)
(* ================================================================== *)

(** The exception classes the program can meet.  [OSError] stands for
    itself and its subclasses; [IOError] is an alias of it. *)
Inductive exn_class :=
  | TypeError
  | ValueError
  | OverflowError
  | ZeroDivisionError
  | JSONDecodeError
  | RecursionError
  | MarkupError
  | OSError
  | EOFError
  | KeyboardInterrupt.

Record exn := Exn { exn_cls : exn_class; exn_msg : string }.

(** [except Exception] catches everything here but [KeyboardInterrupt]. *)
Definition is_Exception (e : exn) : bool :=
  match exn_cls e with
  | KeyboardInterrupt => false
  | _ => true
  end.

Definition is_JSONDecodeError (e : exn) : bool :=
  match exn_cls e with
  | JSONDecodeError => true
  | _ => false
  end.

Definition is_IOError (e : exn) : bool :=
  match exn_cls e with
  | OSError => true
  | _ => false
  end.

Definition is_KeyboardInterrupt (e : exn) : bool :=
  match exn_cls e with
  | KeyboardInterrupt => true
  | _ => false
  end.

Inductive result (A : Type) :=
  | Ok (a : A)
  | Raise (e : exn).
Arguments Ok {A} a.
Arguments Raise {A} e.

#[global] Instance result_ret : MRet result := fun _ a => Ok a.

#[global] Instance result_bind : MBind result := fun _ _ k r =>
  match r with
  | Ok a => k a
  | Raise e => Raise e
  end.

(* ================================================================== *)
(** * Floats                                                           *)
(* ================================================================== *)

Abbreviation float := spec_float.

Definition prec : Z := 53.
Definition emax : Z := 1024.

Definition fdiv : float -> float -> float := SFdiv prec emax.

(** The nearest binary64 value of an integer, ties to even; an integer
    past the range rounds to an infinity. *)
Definition round_Z (z : Z) : float := binary_normalize prec emax z 0 false.

Definition fzero : float := S754_zero false.

(** The literal [1000.0]. *)
Definition f1000 : float := Eval vm_compute in round_Z 1000.

Definition float_is_zero (f : float) : bool :=
  match f with
  | S754_zero _ => true
  | _ => false
  end.

(** Python compares a [float] with an [int] exactly, without rounding
    the integer. [None] is the unordered outcome of a NaN. *)
Definition float_cmp_Z (f : float) (k : Z) : option comparison :=
  match f with
  | S754_nan => None
  | S754_infinity s => Some (if s then Lt else Gt)
  | S754_zero _ => Some (0 ?= k)
  | S754_finite s m e =>
      let v := if s then Zneg m else Zpos m in
      if 0 <=? e then Some (v * 2 ^ e ?= k)
      else Some (v ?= k * 2 ^ (- e))
  end.

Definition float_eq_Z (f : float) (k : Z) : bool :=
  match float_cmp_Z f k with
  | Some Eq => true
  | _ => false
  end.

Definition float_gt_Z (f : float) (k : Z) : bool :=
  match float_cmp_Z f k with
  | Some Gt => true
  | _ => false
  end.

(** [0.0 <= f] as Python evaluates it: false on a NaN and on negative
    values, true on both zeros and on [inf]. *)
Definition float_nonneg (f : float) : bool := SFleb fzero f.

(* ================================================================== *)
(** * Python values                                                    *)
(* ================================================================== *)

(** What [json.loads] can produce. *)
#[warnings="-register-all"]
Inductive pyval :=
  | VNone
  | VBool (b : bool)
  | VInt (z : Z)
  | VFloat (f : float)
  | VStr (s : string)
  | VList (l : list pyval)
  | VDict (d : list (string * pyval)).

Definition pydict := list (string * pyval).

Definition type_name (v : pyval) : string :=
  match v with
  | VNone => "NoneType"
  | VBool _ => "bool"
  | VInt _ => "int"
  | VFloat _ => "float"
  | VStr _ => "str"
  | VList _ => "list"
  | VDict _ => "dict"
  end.

(** [key in d] *)
Fixpoint dict_has (d : pydict) (k : string) : bool :=
  match d with
  | [] => false
  | (k', _) :: d' => if String.eqb k' k then true else dict_has d' k
  end.

(** [d.get(key, default)] *)
Fixpoint dict_get (d : pydict) (k : string) (default : pyval) : pyval :=
  match d with
  | [] => default
  | (k', v) :: d' => if String.eqb k' k then v else dict_get d' k default
  end.

(** Truth value of an object, as [if not x] tests it. *)
Definition truthy (v : pyval) : bool :=
  match v with
  | VNone => false
  | VBool b => b
  | VInt z => negb (z =? 0)
  | VFloat f => negb (float_is_zero f)
  | VStr s => negb (String.eqb s EmptyString)
  | VList l => match l with [] => false | _ => true end
  | VDict d => match d with [] => false | _ => true end
  end.

Definition Z_of_bool (b : bool) : Z := if b then 1 else 0.

(** [v == k] for an [int] [k]; never raises. *)
Definition py_eq_int (v : pyval) (k : Z) : bool :=
  match v with
  | VBool b => Z_of_bool b =? k
  | VInt z => z =? k
  | VFloat f => float_eq_Z f k
  | _ => false
  end.

(** [v > k] for an [int] [k]; a [TypeError] on a value that is no number. *)
Definition py_gt_int (v : pyval) (k : Z) : result bool :=
  match v with
  | VBool b => Ok (k <? Z_of_bool b)
  | VInt z => Ok (k <? z)
  | VFloat f => Ok (float_gt_Z f k)
  | _ => Raise (Exn TypeError
           ("'>' not supported between instances of '" +:+ type_name v
              +:+ "' and 'int'"))
  end.

(** Conversion of an [int] to a [float]; an [OverflowError] past the
    range. *)
Definition float_of_int (z : Z) : result float :=
  match round_Z z with
  | S754_infinity _ => Raise (Exn OverflowError "int too large to convert to float")
  | f => Ok f
  end.

(* ================================================================== *)
(** * Strings                                                          *)
(* ================================================================== *)

(** [str(n)] for an [int]. *)
Definition str_of_Z (z : Z) : string := NilZero.string_of_int (Z.to_int z).

(** [s.split(sep)] for a one-character separator: the pieces between
    the separators, empty pieces kept; never an empty list. *)
Fixpoint split (sep : ascii) (s : string) : list string :=
  match s with
  | EmptyString => [EmptyString]
  | String c s' =>
      if Ascii.eqb c sep then EmptyString :: split sep s'
      else match split sep s' with
           | piece :: rest => String c piece :: rest
           | [] => [String c EmptyString]
           end
  end.

(** [sep.join(tokens)] *)
Fixpoint join (sep : string) (tokens : list string) : string :=
  match tokens with
  | [] => EmptyString
  | [t] => t
  | t :: rest => t +:+ sep +:+ join sep rest
  end.

(** Code points below 256 on which [str.isspace] holds. *)
Definition isspace (c : ascii) : bool :=
  let n := nat_of_ascii c in
  ((9 <=? n) && (n <=? 13) || (28 <=? n) && (n <=? 32)
   || (n =? 133) || (n =? 160))%nat.

Fixpoint lstrip (s : string) : string :=
  match s with
  | EmptyString => EmptyString
  | String c s' => if isspace c then lstrip s' else s
  end.

(** Drops trailing white space; the characters are visited from the
    right end. *)
Fixpoint rstrip (s : string) : string :=
  match s with
  | EmptyString => EmptyString
  | String c s' =>
      match rstrip s' with
      | EmptyString => if isspace c then EmptyString else String c EmptyString
      | r => String c r
      end
  end.

(** [s.strip()] *)
Definition strip (s : string) : string := rstrip (lstrip s).

(* ================================================================== *)
(** * Sweep configuration: [BenchConfig]                               *)
(* ================================================================== *)

Record BenchConfig := {
  kv_cache_types : list (string * string);
  batch_sizes : string;
  ubatch_sizes : string;
  depths : string;
  prompt_lengths : string;
  gen_lengths : string;
  output_dir : string
}.

(** The dataclass defaults, [__post_init__] applied. *)
Definition default_config : BenchConfig := {|
  kv_cache_types := [("q8_0", "q8_0")];
  batch_sizes := "8192";
  ubatch_sizes := "2048";
  depths := "0,512,1024,2048,4096,8192";
  prompt_lengths := "128,256,512,1024,2048,4096,8192";
  gen_lengths := "128,256,512,1024,2048,4096,8192";
  output_dir := "test-results"
|}.

Definition _count_opts (s : string) : Z :=
  if negb (String.eqb s EmptyString) then Z.of_nat (length (split "," s)) else 0.

Definition count_combinations (c : BenchConfig) : Z :=
  let b := _count_opts (batch_sizes c) in
  let ub := _count_opts (ubatch_sizes c) in
  let d := _count_opts (depths c) in
  let p := _count_opts (prompt_lengths c) in
  let n := _count_opts (gen_lengths c) in
  let total := b * ub * d * p * n in
  if 0 <? total then total else 1.

(** ** The size of the sweep, as the specification words it *)

Fixpoint count_char (c : ascii) (s : string) : nat :=
  match s with
  | EmptyString => O
  | String c' s' => if Ascii.eqb c' c then S (count_char c s') else count_char c s'
  end.

(** The cardinality of a field: its number of comma-separated tokens,
    one more than its number of commas; the empty string counts 0. *)
Definition cardinality (s : string) : Z :=
  match s with
  | EmptyString => 0
  | _ => Z.of_nat (S (count_char "," s))
  end.

Definition cardinality_product (c : BenchConfig) : Z :=
  cardinality (batch_sizes c) * cardinality (ubatch_sizes c)
  * cardinality (depths c) * cardinality (prompt_lengths c)
  * cardinality (gen_lengths c).

Definition sample_sweep : BenchConfig := {|
  kv_cache_types := [("q8_0", "q8_0")];
  batch_sizes := "8192";
  ubatch_sizes := "2048";
  depths := "0,512";
  prompt_lengths := "128,256,512";
  gen_lengths := "128,256";
  output_dir := "test-results"
|}.

(* ================================================================== *)
(** * Library functions of the interpreter                             *)
(* ================================================================== *)

(** Three functions of the libraries are taken as they come:
    [json.loads] on a [str], [float] on a [str], each with the value it
    returns or the exception it raises, and the reading of a text as
    markup by [rich]: [markup_error text] is the message of the
    [MarkupError] that [Console.print(text)] raises, when it raises
    one. *)
Record pylib := {
  json_loads : string -> result pyval;
  float_of_str : string -> result float;
  markup_error : string -> option string
}.

Definition fone : float := Eval vm_compute in round_Z 1.

(** [float(v)] *)
Definition py_float (L : pylib) (v : pyval) : result float :=
  match v with
  | VFloat f => Ok f
  | VInt z => float_of_int z
  | VBool b => Ok (if b then fone else fzero)
  | VStr s => float_of_str L s
  | _ => Raise (Exn TypeError
           ("float() argument must be a string or a real number, not '"
              +:+ type_name v +:+ "'"))
  end.

(** The left operand of [v / d] as a [float], [d] being a [float]. *)
Definition float_operand (v : pyval) : result float :=
  match v with
  | VFloat f => Ok f
  | VInt z => float_of_int z
  | VBool b => Ok (if b then fone else fzero)
  | _ => Raise (Exn TypeError
           ("unsupported operand type(s) for /: '" +:+ type_name v
              +:+ "' and 'float'"))
  end.

(** [v / d] for a [float] [d]. *)
Definition py_div_float (v : pyval) (d : float) : result float :=
  x ← float_operand v;
  if float_is_zero d then Raise (Exn ZeroDivisionError "float division by zero")
  else Ok (fdiv x d).

(* ================================================================== *)
(** * Progress visualization: [BenchmarkVisualizer]                    *)
(* ================================================================== *)

(** One entry of [results_history]. *)
Record entry := {
  e_kv : string;
  e_batch : pyval;
  e_n_prompt : pyval;
  e_n_gen : pyval;
  e_n_depth : pyval;
  e_enc_speed : float;
  e_gen_speed : float
}.

(** The state of the visualizer: the history list and the advance of
    the one task of its progress bar. *)
Record BenchmarkVisualizer := {
  total_runs_per_config : Z;
  results_history : list entry;
  completed : Z
}.

(** [BenchmarkVisualizer(total, config)] *)
Definition new_visualizer (total : Z) : BenchmarkVisualizer := {|
  total_runs_per_config := total;
  results_history := [];
  completed := 0
|}.

(** The speed cell of a row: ["-"], the prompt-processing speed or the
    generation speed. *)
Inductive speed_cell :=
  | SpeedDash
  | SpeedPP (enc_s : float)
  | SpeedTG (gen_s : float).

(** A row of the table, each cell by the value it renders. *)
Record row := {
  r_kv : string;
  r_batch : pyval;
  r_io : pyval * pyval;
  r_depth : pyval;
  r_speed : speed_cell
}.

Definition _add_result_row (res : entry) : row :=
  let enc_s := e_enc_speed res in
  let gen_s := e_gen_speed res in
  let speed_str :=
    if float_gt_Z enc_s 0 then SpeedPP enc_s
    else if float_gt_Z gen_s 0 then SpeedTG gen_s
    else SpeedDash in
  {| r_kv := e_kv res;
     r_batch := e_batch res;
     r_io := (e_n_prompt res, e_n_gen res);
     r_depth := e_n_depth res;
     r_speed := speed_str |}.

(** [l[-n:]] for a positive [n]. *)
Definition last_n {A} (n : nat) (l : list A) : list A :=
  drop (length l - n)%nat l.

Definition generate_display (vis : BenchmarkVisualizer) : list row :=
  map _add_result_row (last_n 10 (results_history vis)).

Definition _calculate_speeds (L : pylib) (result_json : pydict)
    (n_prompt n_gen : pyval) : result (float * float) :=
  let avg_ts := dict_get result_json "avg_ts" (VInt 0) in
  if py_eq_int n_gen 0 then
    a ← py_float L avg_ts; Ok (a, fzero)
  else
    pos ← py_gt_int avg_ts 0;
    if (pos : bool) then
      a ← py_float L avg_ts; Ok (fzero, a)
    else
      let t_enc := dict_get result_json "t_pp_ms" (VInt 0) in
      let t_gen := dict_get result_json "t_tg_ms" (VInt 0) in
      enc_s ← (c ← py_gt_int t_enc 0;
               if (c : bool) then d ← py_div_float t_enc f1000; py_div_float n_prompt d
               else Ok fzero);
      gen_s ← (c ← py_gt_int t_gen 0;
               if (c : bool) then d ← py_div_float t_gen f1000; py_div_float n_gen d
               else Ok fzero);
      Ok (enc_s, gen_s).

Definition update_result (L : pylib) (vis : BenchmarkVisualizer)
    (result_json : pydict) (kv_str : string) : result BenchmarkVisualizer :=
  let n_prompt := dict_get result_json "n_prompt" (VInt 0) in
  let n_gen := dict_get result_json "n_gen" (VInt 0) in
  let n_depth := dict_get result_json "n_depth" (VInt 0) in
  '(enc_speed, gen_speed) ← _calculate_speeds L result_json n_prompt n_gen;
  let entry := {|
    e_kv := kv_str;
    e_batch := dict_get result_json "n_batch" (VStr "?");
    e_n_prompt := n_prompt;
    e_n_gen := n_gen;
    e_n_depth := n_depth;
    e_enc_speed := enc_speed;
    e_gen_speed := gen_speed |} in
  Ok {| total_runs_per_config := total_runs_per_config vis;
        results_history := results_history vis ++ [entry];
        completed := completed vis + 1 |}.

(** The specification's [deriveSpeeds]: the speeds of a record, its
    token counts read as [update_result] reads them. *)
Definition deriveSpeeds (L : pylib) (record : pydict) : result (float * float) :=
  _calculate_speeds L record
    (dict_get record "n_prompt" (VInt 0)) (dict_get record "n_gen" (VInt 0)).

(** [log_error(msg)]: the text handed to the console. *)
Definition log_error_text (msg : string) : string :=
  "[red]Error: " +:+ msg +:+ "[/red]".

(* ================================================================== *)
(** * The world: console, child processes, files                       *)
(* ================================================================== *)

Definition newline : string := String (ascii_of_nat 10) EmptyString.

(** The content of a file: some text, the text [json.dump(obj, f,
    indent=indent)] writes, or what a write that failed half-way left. *)
Inductive file_content :=
  | Text (s : string)
  | JsonDump (obj : pyval) (indent : Z)
  | Truncated.

(** What the program does to its surroundings, in order. *)
Inductive event :=
  | EvPrint (s : string)            (* print(s) *)
  | EvConsole (s : string)          (* Console.print(s) *)
  | EvInput                         (* input() *)
  | EvMkdir (path : string)         (* Path.mkdir(parents, exist_ok) *)
  | EvPopen (cmd : list string)     (* subprocess.Popen(cmd, ...) *)
  | EvTerminate                     (* Popen.terminate() *)
  | EvLive (table : list row) (done : Z)   (* Live(...) and live.update(...) *)
  | EvOpenW (path : string).        (* open(path, 'w') *)

Record world := {
  fs : gmap string file_content;
  trace : list event
}.

Definition emit (e : event) (w : world) : world :=
  {| fs := fs w; trace := trace w ++ [e] |}.

Definition write_file (path : string) (c : file_content) (w : world) : world :=
  {| fs := <[path := c]> (fs w); trace := trace w |}.

(** ** What the environment answers *)

(** One call of [stdout.readline]: a line, or an exception raised while
    the call blocks.  Past the last scripted call the stream is at its
    end and [readline] returns the empty string. *)
Inductive read_event :=
  | ReadLine (line : string)
  | ReadRaise (e : exn).

(** The behaviour of one child process. *)
Record proc_script := {
  popen_raises : option exn;
  reads : list read_event;
  wait_result : result Z;
  stderr_text : string
}.

(** What becomes of the write of the output file. *)
Inductive write_outcome :=
  | WriteOk
  | OpenFails (e : exn)
  | DumpFails (e : exn).

Record date := { year : nat; month : nat; day : nat }.

(** What one cache-type pair meets. *)
Record pair_env := {
  today : date;
  proc : proc_script;
  write : write_outcome
}.

Inductive input_outcome :=
  | InputLine (s : string)
  | InputRaise (e : exn).

(** What the program meets: its command line, the files that are
    there, the message of the [OSError] that [mkdir] raises when it
    fails, the answer at the prompt, what each pair run meets and the
    seconds the sweep takes. *)
Record environment := {
  argv : list string;
  path_exists : string -> bool;
  mkdir_error : option string;
  stdin_reply : input_outcome;
  pair_envs : nat -> pair_env;
  elapsed : Z
}.

(** ** Dates and paths *)

Definition str_of_nat (n : nat) : string := str_of_Z (Z.of_nat n).

Definition two_digits (n : nat) : string :=
  if (n <? 10)%nat then "0" +:+ str_of_nat n else str_of_nat n.

(** [strftime("%Y%m%d")] *)
Definition strftime_Ymd (d : date) : string :=
  str_of_nat (year d) +:+ two_digits (month d) +:+ two_digits (day d).

(** The root of a path: two slashes at the head and no third stand
    for themselves, any other number of them for one. *)
Definition path_root (s : string) : string :=
  match s with
  | String "/" (String "/" (String "/" _)) => "/"
  | String "/" (String "/" _) => "//"
  | String "/" _ => "/"
  | _ => EmptyString
  end.

Definition is_part (p : string) : bool :=
  negb (String.eqb p EmptyString) && negb (String.eqb p ".").

(** The parts of a path: what stands between its slashes, but for the
    empty pieces and the pieces [.]. *)
Definition path_parts (s : string) : list string :=
  List.filter is_part (split "/" s).

(** [str] of the path of a root and parts. *)
Definition path_text (root : string) (parts : list string) : string :=
  match root, parts with
  | EmptyString, [] => "."
  | _, _ => root +:+ join "/" parts
  end.

(** [str(Path(s))] *)
Definition str_Path (s : string) : string := path_text (path_root s) (path_parts s).


(** [str(Path(dir) / name)]: a [name] with a root stands for itself. *)
Definition path_join (dir name : string) : string :=
  match path_root name with
  | EmptyString => path_text (path_root dir) (path_parts dir ++ path_parts name)
  | _ => str_Path name
  end.

(* ================================================================== *)
(** * Benchmark runner: [LlamaBenchRunner]                             *)
(* ================================================================== *)

(** The runner: [model_path] is the text of its path, and
    [runner_output_dir] the text its [output_dir] was made from. *)
Record LlamaBenchRunner := {
  model_path : string;
  config : BenchConfig;
  process : option proc_script;
  runner_output_dir : string
}.

Definition set_process (self : LlamaBenchRunner) (p : option proc_script)
    : LlamaBenchRunner :=
  {| model_path := model_path self;
     config := config self;
     process := p;
     runner_output_dir := runner_output_dir self |}.

Definition build_command (self : LlamaBenchRunner) (cache_type_k cache_type_v : string)
    : list string :=
  [ "llama-bench";
    "-fa"; "1";
    "-r"; "3";
    "-m"; model_path self;
    "-ctk"; cache_type_k;
    "-ctv"; cache_type_v;
    "-b"; batch_sizes (config self);
    "-ub"; ubatch_sizes (config self);
    "-d"; depths (config self);
    "-p"; prompt_lengths (config self);
    "-n"; gen_lengths (config self);
    "-o"; "jsonl" ].

Definition get_output_filename (self : LlamaBenchRunner)
    (cache_type_k cache_type_v : string) (now : date) : string :=
  let date_str := strftime_Ymd now in
  path_join (runner_output_dir self)
    ("raw-data-" +:+ cache_type_k +:+ "-" +:+ cache_type_v +:+ "-" +:+ date_str
       +:+ ".json").

(** [Console.print(text)]: the text goes to the console, unless it is
    refused as markup. *)
Definition console_print (L : pylib) (text : string) (w : world)
    : world * result unit :=
  match markup_error L text with
  | Some msg => (w, Raise (Exn MarkupError msg))
  | None => (emit (EvConsole text) w, Ok tt)
  end.

Definition log_error (L : pylib) (msg : string) (w : world) : world * result unit :=
  console_print L (log_error_text msg) w.

Definition _parse_line (L : pylib) (line : string) : result (option pydict) :=
  let line := strip line in
  if String.eqb line EmptyString then Ok None
  else
    match json_loads L line with
    | Ok data =>
        match data with
        | VDict d => if dict_has d "n_prompt" then Ok (Some d) else Ok None
        | _ => Ok None
        end
    | Raise e => if is_JSONDecodeError e then Ok None else Raise e
    end.

Definition _check_process_result (L : pylib) (self : LlamaBenchRunner) (rc : Z)
    (results : list pydict) (kv_str : string) (w : world) : world * result unit :=
  if negb (rc =? 0) then
    let err_msg := "Process failed (rc=" +:+ str_of_Z rc +:+ ")" in
    let err_msg :=
      match process self with
      | Some p =>
          let err_out := stderr_text p in
          if negb (String.eqb err_out EmptyString)
          then err_msg +:+ newline +:+ "Stderr: " +:+ err_out
          else err_msg
      | None => err_msg
      end in
    log_error L err_msg w
  else
    match results with
    | [] => log_error L ("No results for " +:+ kv_str) w
    | _ => (w, Ok tt)
    end.

(** The handler [except IOError as e] of [_save_results]. *)
Definition save_failed (output_file : string) (e : exn) (w : world)
    : world * result unit :=
  if is_IOError e
  then (emit (EvPrint ("Failed to save results to " +:+ output_file +:+ ": "
                         +:+ exn_msg e)) w, Ok tt)
  else (w, Raise e).

Definition _save_results (results : list pydict) (output_file : string)
    (wo : write_outcome) (w : world) : world * result unit :=
  match results with
  | [] => (w, Ok tt)
  | _ =>
      let w := emit (EvOpenW output_file) w in
      match wo with
      | WriteOk =>
          (write_file output_file (JsonDump (VList (map VDict results)) 2) w, Ok tt)
      | OpenFails e => save_failed output_file e w
      | DumpFails e => save_failed output_file e (write_file output_file Truncated w)
      end
  end.

(** [if not result] on an [Optional[dict]]. *)
Definition not_result (result : option pydict) : bool :=
  match result with
  | None => true
  | Some d => negb (truthy (VDict d))
  end.

(** The loop [for line in iter(stdout.readline, '')] of
    [_run_single_config], with the state it leaves behind when it ends
    or raises. *)
Fixpoint read_loop (L : pylib) (kv_str : string) (rs : list read_event)
    (collected_results : list pydict) (vis : BenchmarkVisualizer) (w : world)
    : list pydict * BenchmarkVisualizer * world * result unit :=
  match rs with
  | [] => (collected_results, vis, w, Ok tt)
  | ReadRaise e :: _ => (collected_results, vis, w, Raise e)
  | ReadLine line :: rest =>
      if String.eqb line EmptyString then (collected_results, vis, w, Ok tt)
      else
        match _parse_line L line with
        | Raise e => (collected_results, vis, w, Raise e)
        | Ok result =>
            if not_result result then
              read_loop L kv_str rest collected_results vis w
            else
              match result with
              | None => read_loop L kv_str rest collected_results vis w
              | Some d =>
                  let collected_results := (collected_results ++ [d])%list in
                  match update_result L vis d kv_str with
                  | Raise e => (collected_results, vis, w, Raise e)
                  | Ok vis =>
                      let w := emit (EvLive (generate_display vis) (completed vis)) w in
                      read_loop L kv_str rest collected_results vis w
                  end
              end
        end
  end.

(** The [try] block of [_run_single_config]. *)
Definition run_body (L : pylib) (self : LlamaBenchRunner) (kv_str : string)
    (cmd : list string) (vis : BenchmarkVisualizer) (w : world) (p : proc_script)
    : LlamaBenchRunner * list pydict * BenchmarkVisualizer * world * result unit :=
  let w := emit (EvPopen cmd) w in
  match popen_raises p with
  | Some e => (self, [], vis, w, Raise e)
  | None =>
      let self := set_process self (Some p) in
      let '(collected_results, vis, w, r) := read_loop L kv_str (reads p) [] vis w in
      match r with
      | Raise e => (self, collected_results, vis, w, Raise e)
      | Ok _ =>
          match wait_result p with
          | Raise e => (self, collected_results, vis, w, Raise e)
          | Ok rc =>
              let '(w, r) :=
                _check_process_result L self rc collected_results kv_str w in
              (self, collected_results, vis, w, r)
          end
      end
  end.

(** The handler [except Exception as e] of [_run_single_config], after
    a [try] block that ended as [body] says: what is left to raise once
    the [finally] clause is over. *)
Definition run_failed (L : pylib) (body : result unit) (w : world)
    : world * result unit :=
  match body with
  | Raise e =>
      if is_Exception e then log_error L ("Error: " +:+ exn_msg e) w
      else (w, Raise e)
  | Ok _ => (w, Ok tt)
  end.

Definition _run_single_config (L : pylib) (self : LlamaBenchRunner)
    (k v : string) (vis : BenchmarkVisualizer) (w : world) (pe : pair_env)
    : LlamaBenchRunner * BenchmarkVisualizer * world * result unit :=
  let kv_str := k +:+ "/" +:+ v in
  let cmd := build_command self k v in
  let output_file := get_output_filename self k v (today pe) in
  (* try *)
  let '(self, collected_results, vis, w, body) :=
    run_body L self kv_str cmd vis w (proc pe) in
  (* except Exception as e *)
  let '(w, pending) := run_failed L body w in
  (* finally *)
  let '(w, saved) := _save_results collected_results output_file (write pe) w in
  match saved with
  | Raise e => (self, vis, w, Raise e)
  | Ok _ => (set_process self None, vis, w, pending)
  end.

(** How a call ends: it returns, it raises, or it leaves through
    [sys.exit]. *)
Inductive completion :=
  | Returned
  | Raised (e : exn)
  | Exited (code : Z).

(** How a call that printed its last text ends: as planned, or with the
    exception of the print. *)
Definition ends_with (planned : completion) (r : result unit) : completion :=
  match r with
  | Ok _ => planned
  | Raise e => Raised e
  end.

Definition _handle_interrupt (L : pylib) (self : LlamaBenchRunner) (w : world)
    : world * completion :=
  let w := match process self with
           | Some _ => emit EvTerminate w
           | None => w
           end in
  let '(w, r) := console_print L (newline +:+ "[yellow]Interrupted.[/yellow]") w in
  (w, ends_with (Exited 130) r).

(** The two texts of the summary that are read as markup. *)
Definition done_text (elapsed : Z) : string :=
  "[bold green]Done.[/bold green] Time: "
    +:+ str_of_Z (elapsed / 60) +:+ "m " +:+ str_of_Z (elapsed mod 60) +:+ "s".

Definition saved_to_text (self : LlamaBenchRunner) : string :=
  "Results saved to: [dim]" +:+ str_Path (runner_output_dir self) +:+ "[/dim]".

(** [print_summary]; its first call prints an empty line and reads no
    markup. *)
Definition print_summary (L : pylib) (self : LlamaBenchRunner) (elapsed : Z) (w : world)
    : world * result unit :=
  let w := emit (EvConsole EmptyString) w in
  let '(w, r) := console_print L (done_text elapsed) w in
  match r with
  | Raise e => (w, Raise e)
  | Ok _ => console_print L (saved_to_text self) w
  end.

(** The loop [for k, v in self.config.kv_cache_types] of [run_all]; the
    [i]-th pair run meets [envs i]. *)
Fixpoint run_pairs (L : pylib) (self : LlamaBenchRunner)
    (pairs : list (string * string)) (i : nat) (envs : nat -> pair_env)
    (vis : BenchmarkVisualizer) (w : world)
    : LlamaBenchRunner * BenchmarkVisualizer * world * result unit :=
  match pairs with
  | [] => (self, vis, w, Ok tt)
  | (k, v) :: rest =>
      let '(self, vis, w, r) := _run_single_config L self k v vis w (envs i) in
      match r with
      | Raise e => (self, vis, w, Raise e)
      | Ok _ => run_pairs L self rest (S i) envs vis w
      end
  end.

Definition run_all (L : pylib) (self : LlamaBenchRunner) (env : environment)
    (w : world) : LlamaBenchRunner * BenchmarkVisualizer * world * completion :=
  let per_config_runs := count_combinations (config self) in
  let total_runs := per_config_runs * Z.of_nat (length (kv_cache_types (config self))) in
  let visualizer := new_visualizer total_runs in
  let w := emit (EvLive (generate_display visualizer) (completed visualizer)) w in
  let '(self, visualizer, w, r) :=
    run_pairs L self (kv_cache_types (config self)) 0 (pair_envs env) visualizer w in
  match r with
  | Raise e =>
      if is_KeyboardInterrupt e then
        let '(w, c) := _handle_interrupt L self w in (self, visualizer, w, c)
      else (self, visualizer, w, Raised e)
  | Ok _ =>
      let '(w, r) := print_summary L self (elapsed env) w in
      (self, visualizer, w, ends_with Returned r)
  end.

(** The runner [LlamaBenchRunner(model)] sets up for a model that is
    there. *)
Definition new_runner (model : string) : LlamaBenchRunner := {|
  model_path := model;
  config := default_config;
  process := None;
  runner_output_dir := output_dir default_config
|}.

Definition model_not_found_text (model : string) : string :=
  "[red]Error: Model file not found: " +:+ model +:+ "[/red]".

(** [main()], from the state of the world it starts in to the state it
    leaves and the way it ends. *)
Definition main (L : pylib) (env : environment) (w : world) : world * completion :=
  match argv env with
  | _ :: arg1 :: _ =>
      (* LlamaBenchRunner(sys.argv[1]) *)
      let model := str_Path arg1 in
      if negb (path_exists env model) then
        let '(w, r) := console_print L (model_not_found_text model) w in
        (w, ends_with (Exited 1) r)
      else
        let runner := new_runner model in
        let w := emit (EvMkdir (str_Path (runner_output_dir runner))) w in
        match mkdir_error env with
        | Some msg => (w, Raised (Exn OSError msg))
        | None =>
            let total_tests :=
              Z.of_nat (length (kv_cache_types (config runner)))
              * count_combinations (config runner) in
            let w := emit (EvPrint ("Plan to run approximately " +:+ str_of_Z total_tests
                                      +:+ " tests.")) w in
            let w := emit (EvPrint "Press Enter to start...") w in
            let w := emit EvInput w in
            match stdin_reply env with
            | InputRaise e =>
                if is_KeyboardInterrupt e then (w, Exited 0) else (w, Raised e)
            | InputLine _ =>
                let '(_, _, w, c) := run_all L runner env w in (w, c)
            end
        end
  | _ =>
      (emit (EvPrint "Usage: python llama-bench-runner.py <model_path>") w, Exited 1)
  end.

(** The exit status of the interpreter: an exception nobody caught
    gives 1, but for a [KeyboardInterrupt], which gives 130. *)
Definition exit_status (c : completion) : Z :=
  match c with
  | Returned => 0
  | Raised e => if is_KeyboardInterrupt e then 130 else 1
  | Exited code => code
  end.

(* ================================================================== *)
(** * A reference library                                              *)
(* ================================================================== *)

(** An executable [pylib], written after CPython's [json.decoder] and
    [float] and after [rich.markup], on which the program can be run.
    It covers the JSON grammar on strings of code points below 256.
    Messages of [JSONDecodeError] come without their position.  The
    decoder gives up on text nested deeper than the recursion limit of
    the interpreter, 1000 unless it was changed; the frames the program
    itself has on the stack, a dozen, are not charged.  What it leaves
    out: a [\uXXXX] escape of a code point above 255 is reported as a
    [ValueError], and the limit on the length of an integer literal is
    not enforced. *)
Module Ref.

Definition digit_of (c : ascii) : option Z :=
  let n := nat_of_ascii c in
  if ((48 <=? n) && (n <=? 57))%nat then Some (Z.of_nat n - 48) else None.

Definition is_digit (c : ascii) : bool :=
  match digit_of c with Some _ => true | None => false end.

(** The leading decimal digits of [s], and what follows them. *)
Fixpoint span_digits (s : string) : string * string :=
  match s with
  | String c s' =>
      if is_digit c then let '(ds, r) := span_digits s' in (String c ds, r)
      else (EmptyString, s)
  | EmptyString => (EmptyString, EmptyString)
  end.

Fixpoint digits_value (acc : Z) (ds : string) : Z :=
  match ds with
  | String c ds' =>
      digits_value (10 * acc + match digit_of c with Some d => d | None => 0 end) ds'
  | EmptyString => acc
  end.

Definition str_len (s : string) : Z := Z.of_nat (String.length s).

(** The binary64 value nearest to [(-1)^neg * D * 10^e10], for [0 <= D]
    written with [nd] digits.  Far out of the range the outcome is
    settled without computing the power. *)
Definition float_of_decimal (neg : bool) (D : Z) (nd : Z) (e10 : Z) : float :=
  match D with
  | Zpos d =>
      if 400 <? e10 then S754_infinity neg
      else if e10 <? - (nd + 400) then S754_zero neg
      else if 0 <=? e10 then round_Z ((if neg then Zneg d else Zpos d) * 10 ^ e10)
      else fdiv (S754_finite neg d 0) (S754_finite false (Z.to_pos (10 ^ (- e10))) 0)
  | _ => S754_zero neg
  end.

(** ** [json.loads] *)

Definition is_json_ws (c : ascii) : bool :=
  let n := nat_of_ascii c in
  ((n =? 32) || (n =? 9) || (n =? 10) || (n =? 13))%nat.

Fixpoint skip_ws (s : string) : string :=
  match s with
  | String c s' => if is_json_ws c then skip_ws s' else s
  | EmptyString => EmptyString
  end.

(** [s] without its prefix [p], when it starts with [p]. *)
Fixpoint after_prefix (p s : string) : option string :=
  match p, s with
  | EmptyString, _ => Some s
  | String a p', String b s' => if Ascii.eqb a b then after_prefix p' s' else None
  | String _ _, EmptyString => None
  end.

Definition decode_error (msg : string) : exn := Exn JSONDecodeError msg.

Definition hex_of (c : ascii) : option Z :=
  let n := nat_of_ascii c in
  if ((48 <=? n) && (n <=? 57))%nat then Some (Z.of_nat n - 48)
  else if ((65 <=? n) && (n <=? 70))%nat then Some (Z.of_nat n - 55)
  else if ((97 <=? n) && (n <=? 102))%nat then Some (Z.of_nat n - 87)
  else None.

Definition hex4 (a b c d : ascii) : option Z :=
  match hex_of a, hex_of b, hex_of c, hex_of d with
  | Some x, Some y, Some z, Some t => Some (((x * 16 + y) * 16 + z) * 16 + t)
  | _, _, _, _ => None
  end.

Definition cons_char (c : ascii) (r : result (string * string))
    : result (string * string) :=
  match r with
  | Ok (str, rest) => Ok (String c str, rest)
  | Raise e => Raise e
  end.

Definition dquote : ascii := ascii_of_nat 34.

(** The character an escape [\e] stands for. *)
Definition unescape (e : ascii) : option ascii :=
  if Ascii.eqb e dquote then Some dquote
  else match e with
       | "\"%char => Some "\"%char
       | "/"%char => Some "/"%char
       | "b"%char => Some (ascii_of_nat 8)
       | "f"%char => Some (ascii_of_nat 12)
       | "n"%char => Some (ascii_of_nat 10)
       | "r"%char => Some (ascii_of_nat 13)
       | "t"%char => Some (ascii_of_nat 9)
       | _ => None
       end.

(** The body of a string literal, its opening quote read: the decoded
    text and what follows the closing quote. *)
Fixpoint scanstring (s : string) : result (string * string) :=
  match s with
  | EmptyString => Raise (decode_error "Unterminated string starting at")
  | String c rest =>
      if Ascii.eqb c dquote then Ok (EmptyString, rest)
      else if Ascii.eqb c "\" then
        match rest with
        | EmptyString => Raise (decode_error "Unterminated string starting at")
        | String e rest1 =>
            if Ascii.eqb e "u" then
              match rest1 with
              | String h1 (String h2 (String h3 (String h4 rest2))) =>
                  match hex4 h1 h2 h3 h4 with
                  | Some n =>
                      if n <? 256
                      then cons_char (ascii_of_nat (Z.to_nat n)) (scanstring rest2)
                      else Raise (Exn ValueError "escape of a code point above 255")
                  | None => Raise (decode_error "Invalid \uXXXX escape")
                  end
              | _ => Raise (decode_error "Invalid \uXXXX escape")
              end
            else
              match unescape e with
              | Some c' => cons_char c' (scanstring rest1)
              | None => Raise (decode_error "Invalid \escape")
              end
        end
      else if (nat_of_ascii c <? 32)%nat
      then Raise (decode_error "Invalid control character at")
      else cons_char c (scanstring rest)
  end.

(** The integer part of a number: [0], or a digit from 1 to 9 and the
    digits after it. *)
Definition span_integer (s : string) : option (string * string) :=
  match s with
  | String "0" rest => Some ("0", rest)
  | String c _ => if is_digit c then Some (span_digits s) else None
  | EmptyString => None
  end.

(** The fraction [.ddd], when there is one. *)
Definition span_frac (s : string) : string * string :=
  match s with
  | String "." rest =>
      match span_digits rest with
      | (EmptyString, _) => (EmptyString, s)
      | (ds, r) => (ds, r)
      end
  | _ => (EmptyString, s)
  end.

(** The exponent [e+ddd], when there is one: its value. *)
Definition span_exp (s : string) : option Z * string :=
  match s with
  | String c rest =>
      if Ascii.eqb c "e" || Ascii.eqb c "E" then
        let '(neg, rest') :=
          match rest with
          | String "-" r => (true, r)
          | String "+" r => (false, r)
          | _ => (false, rest)
          end in
        match span_digits rest' with
        | (EmptyString, _) => (None, s)
        | (ds, r) => (Some (if neg then - digits_value 0 ds else digits_value 0 ds), r)
        end
      else (None, s)
  | EmptyString => (None, s)
  end.

(** A number at the head of [s], as [NUMBER_RE] matches it. *)
Definition match_number (s : string) : option (pyval * string) :=
  let '(neg, s1) := match s with
                    | String "-" r => (true, r)
                    | _ => (false, s)
                    end in
  match span_integer s1 with
  | None => None
  | Some (integer, s2) =>
      let '(frac, s3) := span_frac s2 in
      let '(exp, s4) := span_exp s3 in
      match frac, exp with
      | EmptyString, None =>
          let n := digits_value 0 integer in
          Some (VInt (if neg then - n else n), s4)
      | _, _ =>
          let D := digits_value 0 (integer +:+ frac) in
          let e10 := match exp with Some x => x | None => 0 end - str_len frac in
          Some (VFloat (float_of_decimal neg D (str_len (integer +:+ frac)) e10), s4)
      end
  end.

(** [d[k] = v] on a [dict]: a key already there keeps its place. *)
Fixpoint dict_set (d : pydict) (k : string) (v : pyval) : pydict :=
  match d with
  | [] => [(k, v)]
  | (k', v') :: d' =>
      if String.eqb k' k then (k', v) :: d' else (k', v') :: dict_set d' k v
  end.

(** A scalar at the head of [s]: a literal or a number. *)
Definition scan_scalar (s : string) : result (pyval * string) :=
  match after_prefix "null" s, after_prefix "true" s, after_prefix "false" s with
  | Some r, _, _ => Ok (VNone, r)
  | _, Some r, _ => Ok (VBool true, r)
  | _, _, Some r => Ok (VBool false, r)
  | _, _, _ =>
      match match_number s with
      | Some vr => Ok vr
      | None =>
          match after_prefix "NaN" s, after_prefix "Infinity" s,
                after_prefix "-Infinity" s with
          | Some r, _, _ => Ok (VFloat S754_nan, r)
          | _, Some r, _ => Ok (VFloat (S754_infinity false), r)
          | _, _, Some r => Ok (VFloat (S754_infinity true), r)
          | _, _, _ => Raise (decode_error "Expecting value")
          end
      end
  end.

(** The first character of [s] is [c]: what follows it. *)
Definition after_char (c : ascii) (s : string) : option string :=
  match s with
  | String c' r => if Ascii.eqb c' c then Some r else None
  | EmptyString => None
  end.

(** What the scanner raises when an array or an object starts deeper
    than the interpreter lets it recurse. *)
Definition recursion_error (what : string) : exn :=
  Exn RecursionError
    ("maximum recursion depth exceeded while decoding a JSON " +:+ what
       +:+ " from a unicode string").

(** [scan_once], with the loops of [JSONArray] and [JSONObject]; each
    call spends one unit of [fuel], and an array or an object can start
    only while [depth] levels of recursion are left. *)
Fixpoint scan_once (fuel depth : nat) (s : string) {struct fuel}
    : result (pyval * string) :=
  match fuel with
  | O => Raise (Exn RecursionError "maximum recursion depth exceeded")
  | S fuel =>
      match after_char dquote s, after_char "[" s, after_char "{" s with
      | Some rest, _, _ => '(str, r) ← scanstring rest; Ok (VStr str, r)
      | _, Some rest, _ =>
          match depth with
          | O => Raise (recursion_error "array")
          | S depth =>
              match after_char "]" (skip_ws rest) with
              | Some r => Ok (VList [], r)
              | None =>
                  '(items, r) ← array_items fuel depth (skip_ws rest); Ok (VList items, r)
              end
          end
      | _, _, Some rest =>
          match depth with
          | O => Raise (recursion_error "object")
          | S depth =>
              match after_char "}" (skip_ws rest) with
              | Some r => Ok (VDict [], r)
              | None =>
                  '(pairs, r) ← object_items fuel depth (skip_ws rest) [];
                  Ok (VDict pairs, r)
              end
          end
      | _, _, _ =>
          match s with
          | EmptyString => Raise (decode_error "Expecting value")
          | _ => scan_scalar s
          end
      end
  end
with array_items (fuel depth : nat) (s : string) {struct fuel}
    : result (list pyval * string) :=
  match fuel with
  | O => Raise (Exn RecursionError "maximum recursion depth exceeded")
  | S fuel =>
      '(value, r) ← scan_once fuel depth s;
      match after_char "]" (skip_ws r), after_char "," (skip_ws r) with
      | Some r', _ => Ok ([value], r')
      | _, Some r' =>
          '(values, r'') ← array_items fuel depth (skip_ws r');
          Ok (value :: values, r'')
      | _, _ => Raise (decode_error "Expecting ',' delimiter")
      end
  end
with object_items (fuel depth : nat) (s : string) (pairs : pydict) {struct fuel}
    : result (pydict * string) :=
  match fuel with
  | O => Raise (Exn RecursionError "maximum recursion depth exceeded")
  | S fuel =>
      match after_char dquote s with
      | Some rest =>
          '(key, r) ← scanstring rest;
          match after_char ":" (skip_ws r) with
          | Some r1 =>
              '(value, r2) ← scan_once fuel depth (skip_ws r1);
              let pairs := dict_set pairs key value in
              match after_char "}" (skip_ws r2), after_char "," (skip_ws r2) with
              | Some r3, _ => Ok (pairs, r3)
              | _, Some r3 => object_items fuel depth (skip_ws r3) pairs
              | _, _ => Raise (decode_error "Expecting ',' delimiter")
              end
          | None => Raise (decode_error "Expecting ':' delimiter")
          end
      | None => Raise (decode_error "Expecting property name enclosed in double quotes")
      end
  end.

(** [json.loads(s)] in an interpreter that lets the scanner recurse
    [limit] levels deep. *)
Definition loads_within (limit : nat) (s : string) : result pyval :=
  '(obj, rest) ← scan_once (2 * String.length s + 2) limit (skip_ws s);
  match skip_ws rest with
  | EmptyString => Ok obj
  | _ => Raise (decode_error "Extra data")
  end.

Definition recursion_limit : nat := 1000.

(** [json.loads(s)] *)
Definition loads (s : string) : result pyval := loads_within recursion_limit s.

(** ** [float] on a [str] *)

(** The white space [float] strips. *)
Definition is_float_space (c : ascii) : bool :=
  let n := nat_of_ascii c in
  ((9 <=? n) && (n <=? 13) || (n =? 32) || (n =? 133) || (n =? 160))%nat.

Fixpoint ltrim (s : string) : string :=
  match s with
  | String c s' => if is_float_space c then ltrim s' else s
  | EmptyString => EmptyString
  end.

Fixpoint rtrim (s : string) : string :=
  match s with
  | EmptyString => EmptyString
  | String c s' =>
      match rtrim s' with
      | EmptyString => if is_float_space c then EmptyString else String c EmptyString
      | r => String c r
      end
  end.

(** [s] without its underscores, each of which must stand between two
    digits. *)
Fixpoint drop_underscores (prev_digit : bool) (s : string) : option string :=
  match s with
  | EmptyString => Some EmptyString
  | String "_" EmptyString => None
  | String "_" (String c _ as s') =>
      if prev_digit && is_digit c then drop_underscores false s' else None
  | String c s' =>
      match drop_underscores (is_digit c) s' with
      | Some r => Some (String c r)
      | None => None
      end
  end.

Definition to_lower (c : ascii) : ascii :=
  let n := nat_of_ascii c in
  if ((65 <=? n) && (n <=? 90))%nat then ascii_of_nat (n + 32) else c.

Fixpoint lower (s : string) : string :=
  match s with
  | String c s' => String (to_lower c) (lower s')
  | EmptyString => EmptyString
  end.

(** An unsigned decimal that fills [s]: digits, [.], digits, exponent,
    one digit at least before the exponent. *)
Definition decimal_float (neg : bool) (s : string) : option float :=
  let '(int_part, r1) := span_digits s in
  let '(frac, r2) := match r1 with
                     | String "." r => span_digits r
                     | _ => (EmptyString, r1)
                     end in
  match int_part +:+ frac with
  | EmptyString => None
  | digits =>
      let '(exp, r3) := span_exp r2 in
      match r3 with
      | EmptyString =>
          let e10 := match exp with Some x => x | None => 0 end - str_len frac in
          Some (float_of_decimal neg (digits_value 0 digits) (str_len digits) e10)
      | _ => None
      end
  end.

(** [float(s)]; the message quotes [s] plainly. *)
Definition float_str (s : string) : result float :=
  let failure := Raise (Exn ValueError
                   ("could not convert string to float: '" +:+ s +:+ "'")) in
  match drop_underscores false (rtrim (ltrim s)) with
  | None => failure
  | Some t =>
      let '(neg, body) := match t with
                          | String "-" r => (true, r)
                          | String "+" r => (false, r)
                          | _ => (false, t)
                          end in
      let word := lower body in
      if String.eqb word "inf" || String.eqb word "infinity"
      then Ok (S754_infinity neg)
      else if String.eqb word "nan" then Ok S754_nan
      else match decimal_float neg body with
           | Some f => Ok f
           | None => failure
           end
  end.

(** ** [rich]: the reading of markup *)

(** What follows is written after [rich.markup.render].  A tag is an
    opening bracket, a small letter or one of [#], [/] and [@], and the
    text up to the next closing bracket, no opening bracket in between;
    an odd number of backslashes before it makes it plain text.  What is
    left out: names are compared once stripped and put in small
    letters, where [rich] also rewrites a name that is a style
    definition to its canonical form; and the handlers of [@] tags are
    not evaluated. *)
Definition is_tag_start (c : ascii) : bool :=
  let n := nat_of_ascii c in
  ((97 <=? n) && (n <=? 122))%nat
  || Ascii.eqb c "#" || Ascii.eqb c "/" || Ascii.eqb c "@".

(** A tag that may be under way: where its bracket stands, whether it
    is escaped, and its text so far, last character first. *)
Record candidate := {
  c_start : nat;
  c_escaped : bool;
  c_text : string
}.

Fixpoint rev_string (acc s : string) : string :=
  match s with
  | EmptyString => acc
  | String c s' => rev_string (String c acc) s'
  end.

(** The tags of a text with their positions, in order; [pos] is the
    position of the head of [s], [slashes] the number of backslashes
    that stand right before it. *)
Fixpoint tags_from (s : string) (pos slashes : nat) (cand : option candidate)
    : list (nat * string) :=
  match s with
  | EmptyString => []
  | String c rest =>
      let slashes' := if Ascii.eqb c "\" then S slashes else O in
      if Ascii.eqb c "[" then
        tags_from rest (S pos) O
          (Some {| c_start := pos; c_escaped := Nat.odd slashes; c_text := EmptyString |})
      else
        match cand with
        | None => tags_from rest (S pos) slashes' None
        | Some cd =>
            match c_text cd with
            | EmptyString =>
                if is_tag_start c
                then tags_from rest (S pos) slashes'
                       (Some {| c_start := c_start cd; c_escaped := c_escaped cd;
                                c_text := String c EmptyString |})
                else tags_from rest (S pos) slashes' None
            | text =>
                if Ascii.eqb c "]" then
                  (if c_escaped cd then [] else [(c_start cd, rev_string EmptyString text)])
                  ++ tags_from rest (S pos) O None
                else tags_from rest (S pos) slashes'
                       (Some {| c_start := c_start cd; c_escaped := c_escaped cd;
                                c_text := String c text |})
            end
        end
  end.

(** The part of a tag before its first [=]: its name. *)
Fixpoint tag_name (t : string) : string :=
  match t with
  | EmptyString => EmptyString
  | String c t' => if Ascii.eqb c "=" then EmptyString else String c (tag_name t')
  end.

(** The stack of open tags without the last one opened under [name]. *)
Fixpoint pop_style (name : string) (stack : list string) : option (list string) :=
  match stack with
  | [] => None
  | top :: below =>
      if String.eqb top name then Some below
      else match pop_style name below with
           | Some below' => Some (top :: below')
           | None => None
           end
  end.

Definition normalize (name : string) : string := lower (strip name).

(** The tags are opened and closed in turn; the message of the first
    closing tag that has nothing to close. *)
Fixpoint close_tags (tags : list (nat * string)) (stack : list string)
    : option string :=
  match tags with
  | [] => None
  | (pos, t) :: rest =>
      match tag_name t with
      | String "/" style =>
          match strip style with
          | EmptyString =>
              match stack with
              | [] => Some ("closing tag '[/]' at position " +:+ str_of_nat pos
                              +:+ " has nothing to close")
              | _ :: below => close_tags rest below
              end
          | style_name =>
              match pop_style (normalize style_name) stack with
              | Some stack' => close_tags rest stack'
              | None => Some ("closing tag '[" +:+ t +:+ "]' at position "
                                +:+ str_of_nat pos +:+ " doesn't match any open tag")
              end
          end
      | name => close_tags rest (normalize name :: stack)
      end
  end.

(** The message of the [MarkupError] of a text, when it has one. *)
Definition markup (text : string) : option string :=
  close_tags (tags_from text 0 0 None) [].

Definition lib : pylib :=
  {| json_loads := loads; float_of_str := float_str; markup_error := markup |}.

(** A sample of JSON text is written with apostrophes for its double
    quotes; [json_text] puts the double quotes back. *)
Fixpoint json_text (s : string) : string :=
  match s with
  | String c s' => String (if Ascii.eqb c "'" then dquote else c) (json_text s')
  | EmptyString => EmptyString
  end.

End Ref.

(* ================================================================== *)
(** * Sample data                                                      *)
(* ================================================================== *)

(** [55.2], that is [0x1.b99999999999ap+5]. *)
Definition f55_2 : float := S754_finite false 7768709357214106 (-47).
(** [30.0], [128.0], [32.0] and [-1.5]. *)
Definition f30 : float := S754_finite false 8444249301319680 (-48).
Definition f128 : float := S754_finite false 4503599627370496 (-45).
Definition f32 : float := S754_finite false 4503599627370496 (-47).
Definition f_neg1_5 : float := S754_finite true 6755399441055744 (-52).

(** A line of [llama-bench -o jsonl], cut down to three fields. *)
Definition sample_line : string :=
  Ref.json_text "{'n_prompt': 128, 'n_gen': 0, 'avg_ts': 55.2}".

Definition sample_record : pydict :=
  [("n_prompt", VInt 128); ("n_gen", VInt 0); ("avg_ts", VFloat f55_2)].

Fixpoint repeat_string (n : nat) (s : string) : string :=
  match n with
  | O => EmptyString
  | S n' => s +:+ repeat_string n' s
  end.

(** A line that starts as a record and goes on with 1200 opening
    brackets, and an array nested 1200 deep. *)
Definition deep_text : string :=
  Ref.json_text "{'n_prompt': " +:+ repeat_string 1200 "[".

Definition deep_array : string :=
  repeat_string 1200 "[" +:+ repeat_string 1200 "]".

(* ================================================================== *)
(** * Observations on runs                                             *)
(* ================================================================== *)

(** The records the [try] block of a pair run has collected when it
    ends, by return or by exception. *)
Definition collected_of
    (b : LlamaBenchRunner * list pydict * BenchmarkVisualizer * world * result unit)
    : list pydict :=
  let '(_, collected_results, _, _, _) := b in collected_results.

Definition run_collected (L : pylib) (self : LlamaBenchRunner) (k v : string)
    (vis : BenchmarkVisualizer) (w : world) (pe : pair_env) : list pydict :=
  collected_of (run_body L self (k +:+ "/" +:+ v) (build_command self k v) vis w (proc pe)).

(** The world a pair run leaves, and how the run ends. *)
Definition run_world
    (r : LlamaBenchRunner * BenchmarkVisualizer * world * result unit) : world :=
  let '(_, _, w, _) := r in w.

Definition run_end
    (r : LlamaBenchRunner * BenchmarkVisualizer * world * result unit) : result unit :=
  let '(_, _, _, e) := r in e.

Definition run_runner
    (r : LlamaBenchRunner * BenchmarkVisualizer * world * result unit)
    : LlamaBenchRunner :=
  let '(self, _, _, _) := r in self.

(** The paths opened for writing, the commands launched and the texts
    sent to the console along a trace, each in order. *)
Definition opens (t : list event) : list string :=
  flat_map (fun e => match e with EvOpenW p => [p] | _ => [] end) t.

Definition popens (t : list event) : list (list string) :=
  flat_map (fun e => match e with EvPopen c => [c] | _ => [] end) t.

Definition console_texts (t : list event) : list string :=
  flat_map (fun e => match e with EvConsole s => [s] | _ => [] end) t.

Definition terminates (t : list event) : list unit :=
  flat_map (fun e => match e with EvTerminate => [tt] | _ => [] end) t.

(** The lines the reading loop gets to see: those before the end of the
    stream, an empty line or an exception. *)
Fixpoint lines_read (rs : list read_event) : list string :=
  match rs with
  | ReadLine line :: rest =>
      if String.eqb line EmptyString then [] else line :: lines_read rest
  | _ => []
  end.

(** The records among some lines. *)
Definition parsed_records (L : pylib) (lines : list string) : list pydict :=
  flat_map (fun line => match _parse_line L line with
                        | Ok (Some d) => [d]
                        | _ => []
                        end) lines.

(** A line the reading loop gets past: [_parse_line] returns on it,
    and when it returns a record the speeds of the record derive, so
    that [update_result] returns too. *)
Definition line_ok (L : pylib) (line : string) : Prop :=
  exists result,
    _parse_line L line = Ok result
    /\ forall d, result = Some d -> exists speeds, deriveSpeeds L d = Ok speeds.

(** ** Sample runs *)

Definition sample_runner : LlamaBenchRunner := {|
  model_path := "model.gguf";
  config := default_config;
  process := None;
  runner_output_dir := "test-results"
|}.

Definition empty_world : world := {| fs := ∅; trace := [] |}.

Definition sample_date : date := {| year := 2026; month := 3; day := 7 |}.

Definition sample_path : string := "test-results/raw-data-q8_0-q8_0-20260307.json".

(** A world where the output file of the day is already there. *)
Definition stale_world : world :=
  {| fs := {[ sample_path := Text "[]" ]}; trace := [] |}.

(** A child that prints nothing and exits with status 2. *)
Definition failing_pair : pair_env := {|
  today := sample_date;
  proc := {| popen_raises := None;
             reads := [];
             wait_result := Ok 2;
             stderr_text := "error: failed to load model" |};
  write := WriteOk
|}.

(** A child that prints a log line and three records, then exits with
    status 0. *)
Definition three_lines : list read_event :=
  [ ReadLine ("build: 4321" +:+ newline);
    ReadLine (sample_line +:+ newline);
    ReadLine (Ref.json_text "{'n_prompt': 128, 'n_gen': 64, 'avg_ts': 30.0}" +:+ newline);
    ReadLine (Ref.json_text "{'n_prompt': 256, 'n_gen': 0, 'avg_ts': 55.2}" +:+ newline) ].

Definition passing_pair : pair_env := {|
  today := sample_date;
  proc := {| popen_raises := None;
             reads := three_lines;
             wait_result := Ok 0;
             stderr_text := EmptyString |};
  write := WriteOk
|}.

(** A child interrupted from the keyboard after its first record. *)
Definition interrupted_pair : pair_env := {|
  today := sample_date;
  proc := {| popen_raises := None;
             reads := [ ReadLine (sample_line +:+ newline);
                        ReadRaise (Exn KeyboardInterrupt EmptyString) ];
             wait_result := Ok 0;
             stderr_text := EmptyString |};
  write := WriteOk
|}.

Definition three_records : list pydict :=
  [ sample_record;
    [("n_prompt", VInt 128); ("n_gen", VInt 64); ("avg_ts", VFloat f30)];
    [("n_prompt", VInt 256); ("n_gen", VInt 0); ("avg_ts", VFloat f55_2)] ].

(** ** Runs without an interrupt *)

Definition body_end
    (b : LlamaBenchRunner * list pydict * BenchmarkVisualizer * world * result unit)
    : result unit :=
  let '(_, _, _, _, r) := b in r.

Definition body_vis
    (b : LlamaBenchRunner * list pydict * BenchmarkVisualizer * world * result unit)
    : BenchmarkVisualizer :=
  let '(_, _, vis, _, _) := b in vis.

(** The reading loop of a pair run, as [run_body] starts it. *)
Definition pair_loop (L : pylib) (self : LlamaBenchRunner) (k v : string)
    (vis : BenchmarkVisualizer) (w : world) (pe : pair_env)
    : list pydict * BenchmarkVisualizer * world * result unit :=
  read_loop L (k +:+ "/" +:+ v) (reads (proc pe)) [] vis
    (emit (EvPopen (build_command self k v)) w).

(** A computation that raises nothing but subclasses of [Exception]. *)
Definition raises_only_exceptions {A} (r : result A) : Prop :=
  forall e, r = Raise e -> is_Exception e = true.

(** The library functions raise no [KeyboardInterrupt] of their own. *)
Definition lib_well_behaved (L : pylib) : Prop :=
  (forall s, raises_only_exceptions (json_loads L s))
  /\ (forall s, raises_only_exceptions (float_of_str L s)).

(** A write that raises nothing out of [_save_results]. *)
Definition write_contained (wo : write_outcome) : Prop :=
  match wo with
  | WriteOk => True
  | OpenFails e | DumpFails e => is_IOError e = true
  end.

(** A pair run the user does not interrupt, and whose write fails, if
    it does, with an [IOError]. *)
Definition uninterrupted (pe : pair_env) : Prop :=
  (forall e, popen_raises (proc pe) = Some e -> is_Exception e = true)
  /\ (forall e, In (ReadRaise e) (reads (proc pe)) -> is_Exception e = true)
  /\ raises_only_exceptions (wait_result (proc pe))
  /\ write_contained (write pe).

(** The text of the report of a child that exits with a status [rc]
    other than 0. *)
Definition process_failed_text (rc : Z) (err_out : string) : string :=
  if negb (String.eqb err_out EmptyString)
  then ("Process failed (rc=" +:+ str_of_Z rc +:+ ")") +:+ newline +:+ "Stderr: " +:+ err_out
  else "Process failed (rc=" +:+ str_of_Z rc +:+ ")".

(** A refresh of the live display. *)
Definition is_live (e : event) : Prop := exists table n, e = EvLive table n.

(** The same runner, but for the child it holds. *)
Definition same_settings (a b : LlamaBenchRunner) : Prop :=
  model_path a = model_path b /\ config a = config b
  /\ runner_output_dir a = runner_output_dir b.

(** A child that prints a log line, no record, and exits with status 0. *)
Definition silent_pair : pair_env := {|
  today := sample_date;
  proc := {| popen_raises := None;
             reads := [ReadLine ("build: 4321" +:+ newline)];
             wait_result := Ok 0;
             stderr_text := EmptyString |};
  write := WriteOk
|}.

(** A sweep over two pairs, the child of the first failing, that of the
    second silent. *)
Definition two_pairs : list (string * string) := [("f16", "f16"); ("q8_0", "q8_0")].

Definition failing_then_silent (j : nat) : pair_env :=
  match j with
  | O => failing_pair
  | _ => silent_pair
  end.

(** The command line [python llama-bench-runner.py model.gguf], the
    model file in place, the user pressing Enter and then interrupting
    the first child after its first record. *)
Definition interrupted_env : environment := {|
  argv := ["llama-bench-runner.py"; "model.gguf"];
  path_exists := fun _ => true;
  mkdir_error := None;
  stdin_reply := InputLine EmptyString;
  pair_envs := fun _ => interrupted_pair;
  elapsed := 75
|}.

(** ** Recording results *)

(** The entry [update_result] builds for a record, once its speeds are
    known. *)
Definition entry_of (kv_str : string) (record : pydict) (speeds : float * float) : entry :=
  {| e_kv := kv_str;
     e_batch := dict_get record "n_batch" (VStr "?");
     e_n_prompt := dict_get record "n_prompt" (VInt 0);
     e_n_gen := dict_get record "n_gen" (VInt 0);
     e_n_depth := dict_get record "n_depth" (VInt 0);
     e_enc_speed := speeds.1;
     e_gen_speed := speeds.2 |}.

(** [update_result] on each record of a list, in order. *)
Fixpoint record_results (L : pylib) (vis : BenchmarkVisualizer)
    (records : list pydict) (kv_str : string) : result BenchmarkVisualizer :=
  match records with
  | [] => Ok vis
  | r :: rest => vis' ← update_result L vis r kv_str; record_results L vis' rest kv_str
  end.

(** Fifteen records, numbered from 1 to 15 by their prompt length. *)
Definition fifteen_records : list pydict :=
  map (fun i => [("n_prompt", VInt (Z.of_nat i)); ("n_gen", VInt 0);
                 ("avg_ts", VFloat f55_2)])
      (seq 1 15).

(* ================================================================== *)
(** * The speed metrics on numbers                                     *)
(* ================================================================== *)

(** ** The steps of the code, on fields that are numbers *)

(** The numbers a record of the benchmark carries. *)
Inductive number :=
  | NInt (z : Z)
  | NFloat (f : float).

Definition as_number (v : pyval) : option number :=
  match v with
  | VInt z => Some (NInt z)
  | VFloat f => Some (NFloat f)
  | _ => None
  end.

(** The five fields the speeds depend on, an absent one read as 0. *)
Record timings := {
  t_n_prompt : number;
  t_n_gen : number;
  t_avg_ts : number;
  t_pp_ms : number;
  t_tg_ms : number
}.

Definition read_timings (record : pydict) : option timings :=
  match as_number (dict_get record "n_prompt" (VInt 0)),
        as_number (dict_get record "n_gen" (VInt 0)),
        as_number (dict_get record "avg_ts" (VInt 0)),
        as_number (dict_get record "t_pp_ms" (VInt 0)),
        as_number (dict_get record "t_tg_ms" (VInt 0)) with
  | Some p, Some g, Some a, Some tp, Some tg =>
      Some {| t_n_prompt := p; t_n_gen := g; t_avg_ts := a; t_pp_ms := tp; t_tg_ms := tg |}
  | _, _, _, _, _ => None
  end.

Definition number_is_zero (n : number) : bool :=
  match n with
  | NInt z => z =? 0
  | NFloat f => float_eq_Z f 0
  end.

Definition number_positive (n : number) : bool :=
  match n with
  | NInt z => 0 <? z
  | NFloat f => float_gt_Z f 0
  end.

(** A number as a [float]; an integer past the range is an error. *)
Definition number_float (n : number) : result float :=
  match n with
  | NInt z => float_of_int z
  | NFloat f => Ok f
  end.

(** The quotient of a number by a [float], in binary64 arithmetic; by
    zero it is an error. *)
Definition quotient (n : number) (d : float) : result float :=
  x ← number_float n;
  if float_is_zero d then Raise (Exn ZeroDivisionError "float division by zero")
  else Ok (fdiv x d).

(** [tokens / (millis / 1000)] when [millis > 0], else [0.0]. *)
Definition tokens_per_second (tokens millis : number) : result float :=
  if number_positive millis then
    seconds ← quotient millis f1000; quotient tokens seconds
  else Ok fzero.

(** The steps of [_calculate_speeds] on five numbers, with the errors
    of its conversions and quotients. *)
Definition deriveSpeeds_spec (t : timings) : result (float * float) :=
  if number_is_zero (t_n_gen t) then
    avg ← number_float (t_avg_ts t); Ok (avg, fzero)
  else if number_positive (t_avg_ts t) then
    avg ← number_float (t_avg_ts t); Ok (fzero, avg)
  else
    encodeSpeed ← tokens_per_second (t_n_prompt t) (t_pp_ms t);
    generateSpeed ← tokens_per_second (t_n_gen t) (t_tg_ms t);
    Ok (encodeSpeed, generateSpeed).

(** ** The order of precedence, as the specification words it *)

(** The pair of speeds as a function of the five numbers that raises
    nothing: the tests on signs are read off the form of the number,
    the conversions and quotients are those of binary64 arithmetic. *)

(** The sign of a float, read off its form. *)
Definition float_zero (f : float) : bool :=
  match f with
  | S754_zero _ => true
  | _ => false
  end.

Definition float_positive (f : float) : bool :=
  match f with
  | S754_finite false _ _ | S754_infinity false => true
  | _ => false
  end.

Definition is_zero (n : number) : bool :=
  match n with
  | NInt z => z =? 0
  | NFloat f => float_zero f
  end.

Definition is_positive (n : number) : bool :=
  match n with
  | NInt z => 0 <? z
  | NFloat f => float_positive f
  end.

(** A number as a float: the nearest float of an integer. *)
Definition to_float (n : number) : float :=
  match n with
  | NInt z => round_Z z
  | NFloat f => f
  end.

(** [tokens / (millis / 1000)] when [millis > 0], else [0.0]. *)
Definition rate (tokens millis : number) : float :=
  if is_positive millis
  then fdiv (to_float tokens) (fdiv (to_float millis) f1000)
  else fzero.

(** The pair of speeds, by the order of precedence. *)
Definition precedence (t : timings) : float * float :=
  if is_zero (t_n_gen t) then (to_float (t_avg_ts t), fzero)
  else if is_positive (t_avg_ts t) then (fzero, to_float (t_avg_ts t))
  else (rate (t_n_prompt t) (t_pp_ms t), rate (t_n_gen t) (t_tg_ms t)).

(** ** Records with plausible measurements *)

(** An integer [float] can take. *)
Definition fits_float (z : Z) : Prop := exists f, float_of_int z = Ok f.

(** A token count: absent, or an integer that is not negative. *)
Definition count_ok (v : pyval) : Prop :=
  match v with
  | VInt z => 0 <= z /\ fits_float z
  | _ => False
  end.

(** A throughput: absent, or a number that is not negative (and no
    NaN). *)
Definition throughput_ok (v : pyval) : Prop :=
  match v with
  | VInt z => 0 <= z /\ fits_float z
  | VFloat f => float_nonneg f = true
  | _ => False
  end.

(** A duration in milliseconds: absent, or an integer, or a float
    which, when it is positive, is not so small that its thousandth
    rounds to zero. *)
Definition duration_ok (v : pyval) : Prop :=
  match v with
  | VInt z => fits_float z
  | VFloat f => float_gt_Z f 0 = true -> float_is_zero (fdiv f f1000) = false
  | _ => False
  end.

(** A number the arithmetic can take: an integer within the range of
    [float], or a float. *)
Definition number_ok (v : pyval) : Prop :=
  match v with
  | VInt z => fits_float z
  | VFloat _ => True
  | _ => False
  end.

(** A record whose five fields are absent or such numbers, its
    durations as above. *)
Definition measured_record (record : pydict) : Prop :=
  number_ok (dict_get record "n_prompt" (VInt 0))
  /\ number_ok (dict_get record "n_gen" (VInt 0))
  /\ number_ok (dict_get record "avg_ts" (VInt 0))
  /\ duration_ok (dict_get record "t_pp_ms" (VInt 0))
  /\ duration_ok (dict_get record "t_tg_ms" (VInt 0)).

(** A record of plausible measurements: token counts and a throughput
    that are not negative, durations as above. *)
Definition plausible_record (record : pydict) : Prop :=
  count_ok (dict_get record "n_prompt" (VInt 0))
  /\ count_ok (dict_get record "n_gen" (VInt 0))
  /\ throughput_ok (dict_get record "avg_ts" (VInt 0))
  /\ duration_ok (dict_get record "t_pp_ms" (VInt 0))
  /\ duration_ok (dict_get record "t_tg_ms" (VInt 0)).

(** A [float] of sign [s] that is no NaN. *)
Definition has_sign (s : bool) (f : float) : Prop :=
  f = S754_zero s \/ (exists m e, f = S754_finite s m e) \/ f = S754_infinity s.

(** The records of the examples. *)
Definition prompt_only_record : pydict :=
  [("n_prompt", VInt 128); ("n_gen", VInt 0); ("avg_ts", VFloat f55_2)].

Definition generation_record : pydict :=
  [("n_prompt", VInt 128); ("n_gen", VInt 64); ("avg_ts", VFloat f30)].

Definition raw_timings_record : pydict :=
  [("n_prompt", VInt 128); ("n_gen", VInt 64); ("avg_ts", VInt 0);
   ("t_pp_ms", VInt 1000); ("t_tg_ms", VInt 2000)].

Definition zero_timings_record : pydict :=
  [("n_prompt", VInt 128); ("n_gen", VInt 64); ("avg_ts", VInt 0);
   ("t_pp_ms", VInt 0); ("t_tg_ms", VInt 0)].

Definition bare_record : pydict := [("n_prompt", VInt 128)].

(** A record whose throughput is a text. *)
Definition text_record : pydict :=
  [("n_prompt", VInt 128); ("n_gen", VInt 0); ("avg_ts", VStr "fast")].

(** Records the parser accepts and [deriveSpeeds] does not handle: a
    negative throughput, a [null] throughput, a duration of 5e-324
    milliseconds, the smallest positive float, and a throughput of
    10^400, an integer no float can take. *)
Definition negative_record : pydict :=
  [("n_prompt", VInt 128); ("n_gen", VInt 0); ("avg_ts", VFloat f_neg1_5)].

Definition null_record : pydict :=
  [("n_prompt", VInt 128); ("n_gen", VInt 64); ("avg_ts", VNone)].

Definition tiny_duration_record : pydict :=
  [("n_prompt", VInt 128); ("n_gen", VInt 64); ("avg_ts", VInt 0);
   ("t_pp_ms", VFloat (S754_finite false 1 (-1074))); ("t_tg_ms", VInt 2000)].

Definition huge_record : pydict :=
  [("n_prompt", VInt 128); ("n_gen", VInt 0); ("avg_ts", VInt (10 ^ 400))].

(* ================================================================== *)
(** * Failed runs, as the specification words them                     *)
(* ================================================================== *)

(** The reading of the output of a child comes to its end: no call of
    [readline] raises before the stream is over. *)
Fixpoint reads_to_end (rs : list read_event) : bool :=
  match rs with
  | [] => true
  | ReadLine line :: rest =>
      if String.eqb line EmptyString then true else reads_to_end rest
  | ReadRaise _ :: _ => false
  end.

(** A child that ran to its exit with status [rc]: it was launched,
    the program got past each line it printed, up to the end of its
    output, and [wait] returned [rc]. *)
Definition child_exited (L : pylib) (pe : pair_env) (rc : Z) : Prop :=
  popen_raises (proc pe) = None
  /\ reads_to_end (reads (proc pe)) = true
  /\ Forall (line_ok L) (lines_read (reads (proc pe)))
  /\ wait_result (proc pe) = Ok rc.

(** What is to be reported of such a child, as the console gets it: the
    failure with the text of the standard error when the status is not
    0, the lack of results when it is 0 and no record came, else
    nothing. *)
Definition failure_report (k v : string) (rc : Z) (err_out : string)
    (records : list pydict) : list string :=
  if rc =? 0 then
    match records with
    | [] => ["[red]Error: No results for " +:+ k +:+ "/" +:+ v +:+ "[/red]"]
    | _ => []
    end
  else
    ["[red]Error: Process failed (rc=" +:+ str_of_Z rc +:+ ")"
       +:+ (match err_out with
            | EmptyString => EmptyString
            | _ => newline +:+ "Stderr: " +:+ err_out
            end)
       +:+ "[/red]"].

Definition exit_code (pe : pair_env) : Z :=
  match wait_result (proc pe) with
  | Ok rc => rc
  | Raise _ => 0
  end.

Definition pair_report (L : pylib) (k v : string) (pe : pair_env) : list string :=
  failure_report k v (exit_code pe) (stderr_text (proc pe))
    (parsed_records L (lines_read (reads (proc pe)))).

(** The reports of the pairs of a sweep, in order. *)
Fixpoint sweep_reports (L : pylib) (pairs : list (string * string)) (i : nat)
    (envs : nat -> pair_env) : list string :=
  match pairs with
  | [] => []
  | (k, v) :: rest => (pair_report L k v (envs i) ++ sweep_reports L rest (S i) envs)%list
  end.

(** A pair run of a child that ran to its exit, whose records can be
    saved and whose report the console can read. *)
Definition reportable (L : pylib) (k v : string) (pe : pair_env) : Prop :=
  child_exited L pe (exit_code pe)
  /\ write_contained (write pe)
  /\ Forall (fun text => markup_error L text = None) (pair_report L k v pe).

(** A child that cannot open its model and says so with the path in
    brackets. *)
Definition bracket_pair : pair_env := {|
  today := sample_date;
  proc := {| popen_raises := None;
             reads := [];
             wait_result := Ok 1;
             stderr_text := "error: failed to open [/tmp/m.gguf]" |};
  write := WriteOk
|}.

Definition bracket_then_passing (j : nat) : pair_env :=
  match j with
  | O => bracket_pair
  | _ => passing_pair
  end.

(** A runner configured with two pairs. *)
Definition two_pair_runner : LlamaBenchRunner := {|
  model_path := "model.gguf";
  config := {| kv_cache_types := two_pairs;
               batch_sizes := batch_sizes default_config;
               ubatch_sizes := ubatch_sizes default_config;
               depths := depths default_config;
               prompt_lengths := prompt_lengths default_config;
               gen_lengths := gen_lengths default_config;
               output_dir := output_dir default_config |};
  process := None;
  runner_output_dir := "test-results"
|}.

(** The sample command line, the user pressing Enter, the first child
    failing with the bracketed message. *)
Definition bracket_env : environment := {|
  argv := ["llama-bench-runner.py"; "model.gguf"];
  path_exists := fun _ => true;
  mkdir_error := None;
  stdin_reply := InputLine EmptyString;
  pair_envs := bracket_then_passing;
  elapsed := 75
|}.

(* ================================================================== *)
(** * Further notions                                                  *)
(* ================================================================== *)

(** A string of white space only. *)
Fixpoint all_space (s : string) : bool :=
  match s with
  | EmptyString => true
  | String c s' => isspace c && all_space s'
  end.

(** The command line names a model file that is there, and the user
    answers the prompt with a line. *)
Definition confirmed (env : environment) : Prop :=
  exists a0 a1 rest line,
    argv env = a0 :: a1 :: rest
    /\ path_exists env (str_Path a1) = true
    /\ stdin_reply env = InputLine line.

(** The progress bar and the history are in step. *)
Definition in_step (vis : BenchmarkVisualizer) : Prop :=
  completed vis = Z.of_nat (length (results_history vis)).

Definition run_vis
    (r : LlamaBenchRunner * BenchmarkVisualizer * world * result unit)
    : BenchmarkVisualizer :=
  let '(_, vis, _, _) := r in vis.

(** The output file of the [j]-th pair of a sweep that starts with the
    answers [envs i]. *)
Definition is_output_file (self : LlamaBenchRunner) (pairs : list (string * string))
    (i : nat) (envs : nat -> pair_env) (path : string) : Prop :=
  exists j k v,
    pairs !! j = Some (k, v)
    /\ path = get_output_filename self k v (today (envs (i + j)%nat)).

(** A sweep on a machine where [llama-bench] cannot be launched. *)
Definition not_installed : exn :=
  Exn OSError "[Errno 2] No such file or directory: 'llama-bench'".

Definition unlaunchable_pair : pair_env := {|
  today := sample_date;
  proc := {| popen_raises := Some not_installed;
             reads := [];
             wait_result := Ok 0;
             stderr_text := EmptyString |};
  write := WriteOk
|}.

(** A child whose records cannot be written: the output directory is
    read-only. *)
Definition read_only_pair : pair_env := {|
  today := sample_date;
  proc := proc passing_pair;
  write := OpenFails (Exn OSError "[Errno 13] Permission denied")
|}.

(** The sample command line, the user interrupting at the prompt. *)
Definition declined_env : environment := {|
  argv := ["llama-bench-runner.py"; "model.gguf"];
  path_exists := fun _ => true;
  mkdir_error := None;
  stdin_reply := InputRaise (Exn KeyboardInterrupt EmptyString);
  pair_envs := fun _ => passing_pair;
  elapsed := 0
|}.

(** A pair whose child prints three records and whose output file
    cannot be written to the end, the disk being full. *)
Definition disk_full_pair : pair_env := {|
  today := sample_date;
  proc := proc passing_pair;
  write := DumpFails (Exn OSError "[Errno 28] No space left on device")
|}.

(** The command line of a sweep on a machine without [llama-bench]. *)
Definition unlaunchable_env : environment := {|
  argv := ["llama-bench-runner.py"; "model.gguf"];
  path_exists := fun _ => true;
  mkdir_error := None;
  stdin_reply := InputLine EmptyString;
  pair_envs := fun _ => unlaunchable_pair;
  elapsed := 0
|}.

(** A world that differs from another by what went to the console and
    the like: the same files, the same files opened, the same children
    launched. *)
Definition same_effects (w' w : world) : Prop :=
  fs w' = fs w /\ opens (trace w') = opens (trace w)
  /\ popens (trace w') = popens (trace w).


(* ================================================================== *)
(** * Properties                                                       *)
(* ================================================================== *)

(** ** Sweep configuration *)

Lemma split_length sep s : length (split sep s) = S (count_char sep s).
Proof.
  induction s as [|c s IH]; simpl; [reflexivity|].
  destruct (Ascii.eqb c sep); simpl; [now rewrite IH|].
  destruct (split sep s) as [|piece rest]; simpl in *; congruence.
Qed.

Lemma _count_opts_cardinality s : _count_opts s = cardinality s.
Proof.
  unfold _count_opts, cardinality.
  destruct s as [|c s]; [reflexivity|].
  cbn [String.eqb negb]. now rewrite split_length.
Qed.

Lemma cardinality_nonneg s : 0 <= cardinality s.
Proof. destruct s; simpl; lia. Qed.

Lemma cardinality_product_nonneg c : 0 <= cardinality_product c.
Proof.
  unfold cardinality_product.
  pose proof (cardinality_nonneg (batch_sizes c)).
  pose proof (cardinality_nonneg (ubatch_sizes c)).
  pose proof (cardinality_nonneg (depths c)).
  pose proof (cardinality_nonneg (prompt_lengths c)).
  pose proof (cardinality_nonneg (gen_lengths c)).
  repeat apply Z.mul_nonneg_nonneg; assumption.
Qed.

(** C3. [count_combinations] is the product of the five fields'
    cardinalities (tokens between commas, the empty string counting 0),
    and 1 whenever that product is 0; the sample sweep of 1, 1, 2, 3 and
    2 tokens counts 12. *)
Theorem count_combinations_product :
  (forall c : BenchConfig,
      count_combinations c =
        if cardinality_product c =? 0 then 1 else cardinality_product c)
  /\ cardinality_product sample_sweep = 1 * 1 * 2 * 3 * 2
  /\ count_combinations sample_sweep = 12.
Proof.
  split; [|split; reflexivity].
  intros c. pose proof (cardinality_product_nonneg c) as Hnn.
  unfold count_combinations. rewrite !_count_opts_cardinality.
  fold (cardinality_product c).
  destruct (Z.ltb_spec 0 (cardinality_product c));
    destruct (Z.eqb_spec (cardinality_product c) 0); lia.
Qed.

(** ** Result record parser *)

Lemma dict_has_In d k : dict_has d k = true <-> exists v, In (k, v) d.
Proof.
  induction d as [|[k' v'] d IH]; simpl.
  - split; [discriminate | intros [_ []]].
  - destruct (String.eqb_spec k' k) as [->|Hne].
    + split; [eauto | reflexivity].
    + rewrite IH. split; intros [v Hv]; exists v; [now right|].
      destruct Hv as [Heq|Hv]; [congruence | assumption].
Qed.

Lemma _parse_line_Some L line r :
  _parse_line L line = Ok (Some r) <->
  strip line <> EmptyString
  /\ json_loads L (strip line) = Ok (VDict r)
  /\ dict_has r "n_prompt" = true.
Proof.
  unfold _parse_line.
  destruct (String.eqb_spec (strip line) EmptyString) as [He|Hne].
  { split; [discriminate | intros [Hc _]; contradiction]. }
  destruct (json_loads L (strip line)) as [data|e].
  - destruct data as [ | b | z | f | s | l | d];
      try (split; [discriminate | intros (_ & Hd & _); discriminate]).
    destruct (dict_has d "n_prompt") eqn:Hk.
    + split.
      * intros [= <-]. auto.
      * intros (_ & [= <-] & _). reflexivity.
    + split; [discriminate|].
      intros (_ & [= <-] & Hr). congruence.
  - split.
    + destruct (is_JSONDecodeError e); discriminate.
    + intros (_ & Hd & _). discriminate.
Qed.

Lemma _parse_line_Raise L line e :
  _parse_line L line = Raise e <->
  strip line <> EmptyString
  /\ json_loads L (strip line) = Raise e
  /\ is_JSONDecodeError e = false.
Proof.
  unfold _parse_line.
  destruct (String.eqb_spec (strip line) EmptyString) as [He|Hne].
  { split; [discriminate | intros [Hc _]; contradiction]. }
  destruct (json_loads L (strip line)) as [data|e'].
  - split; [|intros (_ & Hd & _); discriminate].
    destruct data; try discriminate. destruct (dict_has _ _); discriminate.
  - destruct (is_JSONDecodeError e') eqn:Hd.
    + split; [discriminate|]. intros (_ & [= ->] & He). congruence.
    + split.
      * intros [= <-]. auto.
      * intros (_ & [= ->] & _). reflexivity.
Qed.

(** Text that is no JSON, and an array, each nested deeper than the
    interpreter recurses: a decoder that could recurse 2000 levels
    rejects the one with a [JSONDecodeError] and decodes the other, but
    [json.loads] raises a [RecursionError] on both, and so does
    [_parse_line]. *)
Lemma _parse_line_raises_on_deep_text :
  (Ref.loads_within 2000 deep_text = Raise (Ref.decode_error "Expecting value")
   /\ _parse_line Ref.lib deep_text = Raise (Ref.recursion_error "array"))
  /\ (match Ref.loads_within 2000 deep_array with
      | Ok (VList _) => True
      | _ => False
      end
      /\ _parse_line Ref.lib deep_array = Raise (Ref.recursion_error "array")).
Proof. vm_compute. repeat split; reflexivity. Qed.

(** C2, amended. [_parse_line] yields [None], raising nothing, on a line
    that is empty once stripped, on text [json.loads] rejects with a
    [JSONDecodeError], on a decoded value that is no mapping, and on a
    mapping without the key ["n_prompt"]; it yields a record exactly
    when the stripped text decodes to a mapping that has the key; and
    it raises exactly when [json.loads] raises something else than a
    [JSONDecodeError], which it passes on.  On the reference library
    the sample line yields its record, and the empty line, a blank
    line, text that is no JSON, a mapping without the key and an array
    yield [None]. *)
Theorem _parse_line_absent_or_record :
  (forall (L : pylib) (line : string),
      (strip line = EmptyString -> _parse_line L line = Ok None)
      /\ (forall e, json_loads L (strip line) = Raise e ->
                    is_JSONDecodeError e = true -> _parse_line L line = Ok None)
      /\ (forall v, json_loads L (strip line) = Ok v ->
                    (forall d, v <> VDict d) -> _parse_line L line = Ok None)
      /\ (forall d, json_loads L (strip line) = Ok (VDict d) ->
                    dict_has d "n_prompt" = false -> _parse_line L line = Ok None)
      /\ (forall r, _parse_line L line = Ok (Some r) <->
                    strip line <> EmptyString
                    /\ json_loads L (strip line) = Ok (VDict r)
                    /\ dict_has r "n_prompt" = true)
      /\ (forall e, _parse_line L line = Raise e <->
                    strip line <> EmptyString
                    /\ json_loads L (strip line) = Raise e
                    /\ is_JSONDecodeError e = false))
  /\ _parse_line Ref.lib sample_line = Ok (Some sample_record)
  /\ _parse_line Ref.lib EmptyString = Ok None
  /\ _parse_line Ref.lib "   " = Ok None
  /\ _parse_line Ref.lib "llama_model_loader: loaded meta data" = Ok None
  /\ _parse_line Ref.lib (Ref.json_text "{'n_gen': 64, 'avg_ts': 30.0}") = Ok None
  /\ _parse_line Ref.lib "[128, 0, 55.2]" = Ok None.
Proof.
  split; [|repeat split; vm_compute; reflexivity].
  intros L line. refine (conj _ (conj _ (conj _ (conj _ (conj _ _))))).
  - intros He. unfold _parse_line. now rewrite He.
  - intros e He Hd. unfold _parse_line. rewrite He, Hd.
    now destruct (String.eqb _ _).
  - intros v Hv Hnd. unfold _parse_line. rewrite Hv.
    destruct (String.eqb _ _); [reflexivity|].
    destruct v; try reflexivity. now destruct (Hnd d).
  - intros d Hd Hk. unfold _parse_line. rewrite Hd, Hk.
    now destruct (String.eqb _ _).
  - intros r. apply _parse_line_Some.
  - intros e. apply _parse_line_Raise.
Qed.

Lemma _parse_line_absent_or_record_witness :
  _parse_line Ref.lib "   " = Ok None
  /\ _parse_line Ref.lib "main: done" = Ok None
  /\ _parse_line Ref.lib " [128, 0] " = Ok None
  /\ _parse_line Ref.lib (Ref.json_text "{'n_gen': 64}") = Ok None
  /\ (strip sample_line <> EmptyString
      /\ json_loads Ref.lib (strip sample_line) = Ok (VDict sample_record)
      /\ dict_has sample_record "n_prompt" = true).
Proof.
  pose proof (proj1 _parse_line_absent_or_record Ref.lib) as H.
  refine (conj _ (conj _ (conj _ (conj _ _)))).
  - apply (proj1 (H "   ")). reflexivity.
  - apply (proj1 (proj2 (H "main: done"))
             (Exn JSONDecodeError "Expecting value")); reflexivity.
  - apply (proj1 (proj2 (proj2 (H " [128, 0] "))) (VList [VInt 128; VInt 0])).
    + reflexivity.
    + intros d; discriminate.
  - apply (proj1 (proj2 (proj2 (proj2 (H (Ref.json_text "{'n_gen': 64}")))))
             [("n_gen", VInt 64)]); reflexivity.
  - apply (proj1 (proj2 (proj2 (proj2 (proj2 (H sample_line))))) sample_record).
    vm_compute. reflexivity.
Defined.

(** A mapping whose only field is ["n_prompt"], its value no number. *)
Lemma _parse_line_lone_key :
  _parse_line Ref.lib (Ref.json_text "{'n_prompt': 'many'}")
  = Ok (Some [("n_prompt", VStr "many")]).
Proof. vm_compute. reflexivity. Qed.

(** C10. A line [_parse_line] accepts comes back as the mapping
    [json.loads] decoded, as it is; and every decoded mapping that has
    the key ["n_prompt"], whatever the value under it and whatever its
    other fields, is accepted. *)
Theorem _parse_line_returns_decoded (L : pylib) (line : string) :
  (forall r, _parse_line L line = Ok (Some r) ->
             json_loads L (strip line) = Ok (VDict r))
  /\ (forall d v, strip line <> EmptyString ->
                  json_loads L (strip line) = Ok (VDict d) ->
                  In ("n_prompt", v) d ->
                  _parse_line L line = Ok (Some d)).
Proof.
  split.
  - intros r Hr. now apply _parse_line_Some in Hr.
  - intros d v Hne Hd Hin. apply _parse_line_Some.
    repeat split; try assumption. apply dict_has_In. eauto.
Qed.

Lemma _parse_line_returns_decoded_witness :
  _parse_line Ref.lib (Ref.json_text "{'n_gen': [], 'n_prompt': null}")
  = Ok (Some [("n_gen", VList []); ("n_prompt", VNone)]).
Proof.
  apply (proj2 (_parse_line_returns_decoded Ref.lib
                  (Ref.json_text "{'n_gen': [], 'n_prompt': null}"))
           [("n_gen", VList []); ("n_prompt", VNone)] VNone).
  - vm_compute. discriminate.
  - vm_compute. reflexivity.
  - simpl. right. left. reflexivity.
Defined.

(** ** Sweep executor: what a pair run leaves on disk *)

Lemma flat_map_snoc {A B} (f : A -> list B) (l : list A) (x : A) :
  flat_map f (l ++ [x]) = (flat_map f l ++ f x)%list.
Proof. rewrite flat_map_app. simpl. now rewrite app_nil_r. Qed.

Lemma console_print_frame L text w :
  fs (fst (console_print L text w)) = fs w
  /\ opens (trace (fst (console_print L text w))) = opens (trace w).
Proof.
  unfold console_print. destruct (markup_error L text); [auto|].
  split; [reflexivity|]. unfold emit, opens. simpl. rewrite flat_map_snoc. apply app_nil_r.
Qed.

Lemma fs_log_error L msg w : fs (fst (log_error L msg w)) = fs w.
Proof. apply console_print_frame. Qed.

Lemma opens_log_error L msg w :
  opens (trace (fst (log_error L msg w))) = opens (trace w).
Proof. apply console_print_frame. Qed.

Lemma read_loop_frame L kv_str rs :
  forall collected vis w,
    let '(_, _, w', _) := read_loop L kv_str rs collected vis w in
    fs w' = fs w /\ opens (trace w') = opens (trace w).
Proof.
  induction rs as [|[line|e] rs IH]; intros collected vis w; simpl; auto.
  destruct (String.eqb line EmptyString); auto.
  destruct (_parse_line L line) as [result|e]; auto.
  destruct (not_result result); [apply IH|].
  destruct result as [d|]; [|apply IH].
  destruct (update_result L vis d kv_str) as [vis'|e]; auto.
  specialize (IH (collected ++ [d])%list vis'
                (emit (EvLive (generate_display vis') (completed vis')) w)).
  destruct (read_loop _ _ _ _ _ _) as [[[c' v'] w'] r'].
  destruct IH as [IH1 IH2]. split; [exact IH1|].
  rewrite IH2. unfold emit, opens. simpl. rewrite flat_map_snoc. apply app_nil_r.
Qed.

Lemma _check_process_result_frame L self rc results kv_str w :
  fs (fst (_check_process_result L self rc results kv_str w)) = fs w
  /\ opens (trace (fst (_check_process_result L self rc results kv_str w)))
     = opens (trace w).
Proof.
  unfold _check_process_result.
  destruct (negb (rc =? 0)); [split; [apply fs_log_error | apply opens_log_error]|].
  destruct results; [split; [apply fs_log_error | apply opens_log_error]|auto].
Qed.

Lemma run_body_frame L self kv_str cmd vis w p :
  let '(_, _, _, w', _) := run_body L self kv_str cmd vis w p in
  fs w' = fs w /\ opens (trace w') = opens (trace w).
Proof.
  unfold run_body.
  assert (Hpopen : opens (trace (emit (EvPopen cmd) w)) = opens (trace w)).
  { unfold emit, opens. simpl. rewrite flat_map_snoc. apply app_nil_r. }
  destruct (popen_raises p) as [e|]; [split; [reflexivity|exact Hpopen]|].
  pose proof (read_loop_frame L kv_str (reads p) [] vis (emit (EvPopen cmd) w)) as H.
  destruct (read_loop _ _ _ _ _ _) as [[[c' v'] w'] r'].
  destruct H as [H1 H2]. rewrite Hpopen in H2. simpl in H1.
  destruct r' as [[]|e]; [|auto].
  destruct (wait_result p) as [rc|e]; [|auto].
  destruct (_check_process_result_frame L (set_process self (Some p)) rc c' kv_str w')
    as [H3 H4].
  destruct (_check_process_result L _ rc c' kv_str w') as [w2 r2]. simpl in H3, H4.
  split; congruence.
Qed.

Lemma run_failed_frame L body w :
  fs (fst (run_failed L body w)) = fs w
  /\ opens (trace (fst (run_failed L body w))) = opens (trace w).
Proof.
  unfold run_failed. destruct body as [[]|e]; [auto|].
  destruct (is_Exception e); [|auto].
  split; [apply fs_log_error | apply opens_log_error].
Qed.

Lemma _save_results_trace results path wo w :
  results <> [] ->
  exists more, trace (fst (_save_results results path wo w))
               = (trace w ++ EvOpenW path :: more)%list.
Proof.
  intros Hne. destruct results as [|d results]; [contradiction|].
  unfold _save_results, save_failed.
  destruct wo as [|e|e]; simpl.
  - exists []. reflexivity.
  - destruct (is_IOError e); simpl; eexists; [rewrite <- app_assoc|]; reflexivity.
  - destruct (is_IOError e); simpl; eexists; [rewrite <- app_assoc|]; reflexivity.
Qed.

(** The state of the world where the [finally] clause of a pair run
    starts: the [try] block and the handler have touched no file. *)
Lemma _run_single_config_save L self k v vis w pe :
  exists w1,
    fs w1 = fs w /\ opens (trace w1) = opens (trace w)
    /\ run_world (_run_single_config L self k v vis w pe)
       = fst (_save_results (run_collected L self k v vis w pe)
                (get_output_filename self k v (today pe)) (write pe) w1).
Proof.
  unfold _run_single_config, run_collected.
  pose proof (run_body_frame L self (k +:+ "/" +:+ v) (build_command self k v)
                vis w (proc pe)) as H.
  destruct (run_body _ _ _ _ _ _ _) as [[[[self1 c1] vis1] w1] body].
  destruct H as [H1 H2]. simpl collected_of.
  destruct (run_failed_frame L body w1) as [H3 H4].
  exists (fst (run_failed L body w1)). repeat split; [congruence | congruence |].
  destruct (run_failed L body w1) as [w2 pending]. simpl.
  destruct (_save_results c1 _ (write pe) w2) as [w3 [[]|e]]; reflexivity.
Qed.

(** C5. Saving is skipped exactly when the list of collected records is
    empty: [_save_results] leaves the world as it was on the empty list,
    and opens the output file on any other.  A pair run that collects
    no record opens no file and leaves every file as it was, so an
    output file that did not exist still does not. *)
Theorem _save_results_skips_empty :
  (forall results output_file wo w,
      fst (_save_results results output_file wo w) = w <-> results = [])
  /\ (forall results output_file wo w,
         results <> [] ->
         In output_file (opens (trace (fst (_save_results results output_file wo w)))))
  /\ (forall L self k v vis w pe,
         run_collected L self k v vis w pe = [] ->
         let w' := run_world (_run_single_config L self k v vis w pe) in
         fs w' = fs w
         /\ opens (trace w') = opens (trace w)
         /\ (fs w !! get_output_filename self k v (today pe) = None ->
             fs w' !! get_output_filename self k v (today pe) = None)).
Proof.
  refine (conj _ (conj _ _)).
  - intros results output_file wo w. split.
    + intros H. destruct results as [|d results]; [reflexivity|].
      destruct (_save_results_trace (d :: results) output_file wo w) as [more Hm];
        [discriminate|].
      rewrite H in Hm. apply (f_equal (@length event)) in Hm.
      rewrite length_app in Hm. simpl in Hm. lia.
    + intros ->. reflexivity.
  - intros results output_file wo w Hne.
    destruct (_save_results_trace results output_file wo w Hne) as [more ->].
    unfold opens. rewrite flat_map_app. simpl. apply in_or_app. right. now left.
  - intros L self k v vis w pe Hnil.
    destruct (_run_single_config_save L self k v vis w pe) as (w1 & H1 & H2 & H3).
    rewrite Hnil in H3. simpl in H3. cbn zeta. rewrite H3.
    repeat split; congruence.
Qed.

Lemma _save_results_skips_empty_witness :
  let w' := run_world (_run_single_config Ref.lib sample_runner "q8_0" "q8_0"
                         (new_visualizer 294) empty_world failing_pair) in
  fs w' = fs empty_world
  /\ opens (trace w') = opens (trace empty_world)
  /\ (fs empty_world !! get_output_filename sample_runner "q8_0" "q8_0" sample_date = None ->
      fs w' !! get_output_filename sample_runner "q8_0" "q8_0" sample_date = None).
Proof.
  apply (proj2 (proj2 _save_results_skips_empty) Ref.lib sample_runner "q8_0" "q8_0"
           (new_visualizer 294) empty_world failing_pair).
  reflexivity.
Defined.

Lemma _parse_line_truthy L line d :
  _parse_line L line = Ok (Some d) -> not_result (Some d) = false.
Proof.
  intros H. apply _parse_line_Some in H. destruct H as (_ & _ & H).
  destruct d; [discriminate | reflexivity].
Qed.

(** When the reading loop ends without an exception, it has collected
    the records of all the lines it has seen. *)
Lemma read_loop_collects_all L kv_str rs :
  forall collected vis w collected' vis' w',
    read_loop L kv_str rs collected vis w = (collected', vis', w', Ok tt) ->
    collected' = (collected ++ parsed_records L (lines_read rs))%list.
Proof.
  induction rs as [|[line|e] rs IH]; intros c vis w c' vis' w'; simpl.
  - intros [= <- _ _]. now rewrite app_nil_r.
  - destruct (String.eqb line EmptyString).
    { intros [= <- _ _]. now rewrite app_nil_r. }
    simpl. destruct (_parse_line L line) as [result|e] eqn:Hp; [|discriminate].
    destruct result as [d|].
    + rewrite (_parse_line_truthy L line d Hp).
      destruct (update_result L vis d kv_str) as [vis1|e]; [|discriminate].
      intros H. apply IH in H. now rewrite H, <- app_assoc.
    + simpl. apply IH.
  - discriminate.
Qed.



Lemma update_result_appends L vis r kv_str :
  update_result L vis r kv_str
  = (speeds ← deriveSpeeds L r;
     Ok {| total_runs_per_config := total_runs_per_config vis;
           results_history := results_history vis ++ [entry_of kv_str r speeds];
           completed := completed vis + 1 |}).
Proof.
  unfold update_result, deriveSpeeds.
  destruct (_calculate_speeds L r _ _) as [[enc gen]|e]; reflexivity.
Qed.

Lemma read_loop_collects_lines L kv_str rs :
  Forall (line_ok L) (lines_read rs) ->
  forall collected vis w,
    let '(collected', _, _, _) := read_loop L kv_str rs collected vis w in
    collected' = (collected ++ parsed_records L (lines_read rs))%list.
Proof.
  induction rs as [|[line|e] rs IH]; intros Hok c vis w; simpl.
  - now rewrite app_nil_r.
  - simpl in Hok. destruct (String.eqb line EmptyString); [now rewrite app_nil_r|].
    apply Forall_cons_1 in Hok. destruct Hok as [(result & Hp & Hs) Hok].
    simpl. rewrite Hp. destruct result as [d|]; [|simpl; now apply IH].
    rewrite (_parse_line_truthy L line d Hp).
    destruct (Hs d eq_refl) as (speeds & Hd).
    rewrite update_result_appends, Hd. cbn [mbind result_bind].
    match goal with |- context [read_loop L kv_str rs ?c1 ?v1 ?w1] =>
      specialize (IH Hok c1 v1 w1); destruct (read_loop L kv_str rs c1 v1 w1)
        as [[[c' v'] w'] r'] end.
    now rewrite IH, <- app_assoc.
  - now rewrite app_nil_r.
Qed.

(** ** The name of the output file *)

Lemma split_no_sep sep s : count_char sep s = O -> split sep s = [s].
Proof.
  induction s as [|c s IH]; simpl; [reflexivity|].
  destruct (Ascii.eqb c sep); [discriminate|]. intros H. now rewrite (IH H).
Qed.

Lemma count_char_app c a b :
  count_char c (a +:+ b) = (count_char c a + count_char c b)%nat.
Proof.
  induction a as [|x a IH]; simpl; [reflexivity|].
  destruct (Ascii.eqb x c); simpl; now rewrite IH.
Qed.

Lemma string_of_uint_no_slash u : count_char "/" (NilEmpty.string_of_uint u) = O.
Proof. induction u; [reflexivity | exact IHu ..]. Qed.

Lemma str_of_Z_no_slash z : count_char "/" (str_of_Z z) = O.
Proof.
  unfold str_of_Z, NilZero.string_of_int.
  destruct (Z.to_int z) as [u|u]; unfold NilZero.string_of_uint;
    destruct u; try reflexivity;
    first [ exact (string_of_uint_no_slash u)
          | exact (string_of_uint_no_slash (Decimal.D0 u)) ].
Qed.

Lemma strftime_Ymd_no_slash now : count_char "/" (strftime_Ymd now) = O.
Proof.
  unfold strftime_Ymd, two_digits, str_of_nat. rewrite !count_char_app.
  destruct (month now <? 10)%nat; destruct (day now <? 10)%nat;
    rewrite ?count_char_app, !str_of_Z_no_slash; reflexivity.
Qed.

(** The file name of a pair, before it is joined to the directory. *)
Lemma output_name_parts k v now :
  count_char "/" k = O -> count_char "/" v = O ->
  path_parts ("raw-data-" +:+ k +:+ "-" +:+ v +:+ "-" +:+ strftime_Ymd now +:+ ".json")
  = ["raw-data-" +:+ k +:+ "-" +:+ v +:+ "-" +:+ strftime_Ymd now +:+ ".json"].
Proof.
  intros Hk Hv. unfold path_parts. rewrite split_no_sep.
  - reflexivity.
  - rewrite !count_char_app, Hk, Hv, strftime_Ymd_no_slash. reflexivity.
Qed.

Lemma append_assoc a b c : (a +:+ b) +:+ c = a +:+ (b +:+ c).
Proof.
  induction a as [|x a IH]; [reflexivity|].
  change (String x ((a +:+ b) +:+ c) = String x (a +:+ (b +:+ c))). now rewrite IH.
Qed.

Lemma join_snoc sep parts name :
  parts <> [] -> join sep (parts ++ [name]) = join sep parts +:+ sep +:+ name.
Proof.
  induction parts as [|p parts IH]; [contradiction|]. intros _.
  destruct parts as [|q parts]; [reflexivity|].
  change (p +:+ sep +:+ join sep ((q :: parts) ++ [name])
          = (p +:+ sep +:+ join sep (q :: parts)) +:+ sep +:+ name).
  rewrite IH by discriminate. now rewrite !append_assoc.
Qed.

Lemma path_text_parts root parts :
  parts <> [] -> path_text root parts = root +:+ join "/" parts.
Proof. intros H. destruct root; destruct parts; try reflexivity. contradiction. Qed.

(** The output file of a pair, as [pathlib] joins it. *)
Lemma get_output_filename_joined self k v now :
  count_char "/" k = O -> count_char "/" v = O ->
  get_output_filename self k v now
  = path_text (path_root (runner_output_dir self))
      (path_parts (runner_output_dir self)
       ++ ["raw-data-" +:+ k +:+ "-" +:+ v +:+ "-" +:+ strftime_Ymd now +:+ ".json"]).
Proof.
  intros Hk Hv. rewrite <- (output_name_parts k v now Hk Hv). reflexivity.
Qed.




(** A child that prints three records and exits with status 0 leaves a
    file of exactly these three, and the progress bar three steps on. *)
Lemma three_records_end_to_end :
  let r := _run_single_config Ref.lib sample_runner "q8_0" "q8_0"
             (new_visualizer 294) empty_world passing_pair in
  fs (run_world r) !! sample_path = Some (JsonDump (VList (map VDict three_records)) 2)
  /\ (let '(_, vis, _, _) := r in completed vis = 3)
  /\ run_end r = Ok tt.
Proof. vm_compute. repeat split; reflexivity. Qed.

(** ** Sweep executor: failures and the course of the sweep *)

Lemma read_loop_trace L kv_str rs :
  forall collected vis w,
    let '(_, _, w', _) := read_loop L kv_str rs collected vis w in
    exists lives, trace w' = (trace w ++ lives)%list /\ Forall is_live lives.
Proof.
  induction rs as [|[line|e] rs IH]; intros collected vis w; simpl;
    try (exists []; split; [now rewrite app_nil_r | constructor]).
  destruct (String.eqb line EmptyString);
    [exists []; split; [now rewrite app_nil_r | constructor]|].
  destruct (_parse_line L line) as [result|e];
    [|exists []; split; [now rewrite app_nil_r | constructor]].
  destruct (not_result result); [apply IH|].
  destruct result as [d|]; [|apply IH].
  destruct (update_result L vis d kv_str) as [vis'|e];
    [|exists []; split; [now rewrite app_nil_r | constructor]].
  specialize (IH (collected ++ [d])%list vis'
                (emit (EvLive (generate_display vis') (completed vis')) w)).
  destruct (read_loop _ _ _ _ _ _) as [[[c' v'] w'] r'].
  destruct IH as (lives & Ht & Hl).
  exists (EvLive (generate_display vis') (completed vis') :: lives). split.
  - rewrite Ht. unfold emit. simpl. now rewrite <- app_assoc.
  - constructor; [do 2 eexists; reflexivity | exact Hl].
Qed.

Lemma console_texts_lives lives : Forall is_live lives -> console_texts lives = [].
Proof.
  induction 1 as [|e l (t & n & ->) _ IH]; [reflexivity | exact IH].
Qed.

Lemma popens_lives lives : Forall is_live lives -> popens lives = [].
Proof.
  induction 1 as [|e l (t & n & ->) _ IH]; [reflexivity | exact IH].
Qed.

Lemma terminates_lives lives : Forall is_live lives -> terminates lives = [].
Proof.
  induction 1 as [|e l (t & n & ->) _ IH]; [reflexivity | exact IH].
Qed.

Lemma _save_results_events results path wo w :
  exists saves, trace (fst (_save_results results path wo w)) = (trace w ++ saves)%list
                /\ popens saves = [] /\ console_texts saves = []
                /\ terminates saves = [].
Proof.
  unfold _save_results, save_failed. destruct results as [|d ds].
  { exists []. simpl. now rewrite app_nil_r. }
  destruct wo as [|e|e]; simpl.
  - exists [EvOpenW path]. auto.
  - destruct (is_IOError e); simpl.
    + eexists [EvOpenW path; EvPrint _]. rewrite <- app_assoc. simpl. auto.
    + exists [EvOpenW path]. auto.
  - destruct (is_IOError e); simpl.
    + eexists [EvOpenW path; EvPrint _]. rewrite <- app_assoc. simpl. auto.
    + exists [EvOpenW path]. auto.
Qed.

Lemma _save_results_contained c f wo w :
  write_contained wo -> snd (_save_results c f wo w) = Ok tt.
Proof.
  intros H. unfold _save_results, save_failed. destruct c; [reflexivity|].
  destruct wo as [|e|e]; [reflexivity| |]; simpl in H; now rewrite H.
Qed.

(** What a print adds to the trace: the text, or nothing. *)
Lemma console_print_events L text w :
  exists evs, trace (fst (console_print L text w)) = (trace w ++ evs)%list
              /\ popens evs = [] /\ terminates evs = [].
Proof.
  unfold console_print. destruct (markup_error L text).
  - exists []. simpl. now rewrite app_nil_r.
  - eexists [_]. simpl. auto.
Qed.

Lemma _check_process_result_events L self rc results kv_str w :
  exists reports,
    trace (fst (_check_process_result L self rc results kv_str w))
    = (trace w ++ reports)%list
    /\ popens reports = [] /\ terminates reports = [].
Proof.
  unfold _check_process_result, log_error.
  destruct (negb (rc =? 0)); [apply console_print_events|].
  destruct results; [apply console_print_events|].
  exists []. simpl. now rewrite app_nil_r.
Qed.

Lemma run_failed_events L body w :
  exists logs, trace (fst (run_failed L body w)) = (trace w ++ logs)%list
               /\ popens logs = [] /\ terminates logs = [].
Proof.
  unfold run_failed, log_error. destruct body as [[]|e].
  - exists []. simpl. now rewrite app_nil_r.
  - destruct (is_Exception e); [apply console_print_events|].
    exists []. simpl. now rewrite app_nil_r.
Qed.

(** The events of the [try] block of a pair run: the launch, the
    refreshes of the display, then the reports. *)
Lemma run_body_trace L self kv_str cmd vis w p :
  let '(_, _, _, w', _) := run_body L self kv_str cmd vis w p in
  exists lives reports,
    trace w' = (trace w ++ EvPopen cmd :: lives ++ reports)%list
    /\ Forall is_live lives
    /\ popens reports = [] /\ terminates reports = [].
Proof.
  unfold run_body.
  destruct (popen_raises p) as [e|].
  { exists [], []. simpl. repeat split; constructor. }
  pose proof (read_loop_trace L kv_str (reads p) [] vis (emit (EvPopen cmd) w)) as H.
  destruct (read_loop _ _ _ _ _ _) as [[[c' v'] w'] r'].
  destruct H as (lives & Ht & Hl). unfold emit in Ht. simpl in Ht.
  rewrite <- app_assoc in Ht. simpl in Ht.
  assert (Hdone : exists reports : list event,
             trace w' = (trace w ++ EvPopen cmd :: lives ++ reports)%list
             /\ Forall is_live lives /\ popens reports = [] /\ terminates reports = []).
  { exists []. rewrite app_nil_r. auto. }
  destruct r' as [[]|e]; [|exists lives; exact Hdone].
  destruct (wait_result p) as [rc|e]; [|exists lives; exact Hdone].
  destruct (_check_process_result_events L (set_process self (Some p)) rc c' kv_str w')
    as (reports & Hr & Hp & Hte).
  destruct (_check_process_result L _ rc c' kv_str w') as [w2 r2]. simpl in Hr.
  exists lives, reports. rewrite Hr, Ht, <- app_assoc. simpl. auto.
Qed.

(** A pair run launches its command once and terminates nothing. *)
Lemma _run_single_config_launches L self k v vis w pe :
  let w' := run_world (_run_single_config L self k v vis w pe) in
  popens (trace w') = (popens (trace w) ++ [build_command self k v])%list
  /\ terminates (trace w') = terminates (trace w).
Proof.
  unfold _run_single_config.
  pose proof (run_body_trace L self (k +:+ "/" +:+ v) (build_command self k v)
                vis w (proc pe)) as H.
  destruct (run_body _ _ _ _ _ _ _) as [[[[self1 c1] vis1] w1] body].
  destruct H as (lives & reports & Ht & Hl & Hp & Hte).
  destruct (run_failed_events L body w1) as (logs & Ht2 & Hp2 & Hte2).
  destruct (run_failed L body w1) as [w2 pending]. simpl in Ht2.
  destruct (_save_results_events c1 (get_output_filename self k v (today pe))
              (write pe) w2) as (saves & Ht3 & Hp3 & _ & Hte3).
  destruct (_save_results c1 _ (write pe) w2) as [w3 saved]. simpl in Ht3.
  assert (Hw3 : popens (trace w3) = (popens (trace w) ++ [build_command self k v])%list
                /\ terminates (trace w3) = terminates (trace w)).
  { rewrite Ht3, Ht2, Ht. unfold popens, terminates.
    rewrite !flat_map_app. simpl. rewrite !flat_map_app.
    fold (popens lives) (popens reports) (popens logs) (popens saves).
    fold (terminates lives) (terminates reports) (terminates logs) (terminates saves).
    rewrite (popens_lives lives Hl), (terminates_lives lives Hl).
    rewrite Hp, Hte, Hp2, Hte2, Hp3, Hte3. simpl. now rewrite !app_nil_r. }
  destruct saved as [[]|e]; exact Hw3.
Qed.

Lemma py_float_exceptions L v :
  (forall s, raises_only_exceptions (float_of_str L s)) ->
  raises_only_exceptions (py_float L v).
Proof.
  intros HL e. destruct v; simpl; try (intros [= <-]; reflexivity);
    try discriminate.
  - unfold float_of_int. destruct (round_Z z); try discriminate.
    intros [= <-]. reflexivity.
  - apply HL.
Qed.

Lemma py_gt_int_exceptions v k : raises_only_exceptions (py_gt_int v k).
Proof.
  intros e. destruct v; simpl; try discriminate; intros [= <-]; reflexivity.
Qed.

Lemma py_div_float_exceptions v d : raises_only_exceptions (py_div_float v d).
Proof.
  intros e. unfold py_div_float.
  destruct v; simpl; try (intros [= <-]; reflexivity).
  - destruct (float_is_zero d); [intros [= <-]; reflexivity | discriminate].
  - unfold float_of_int. destruct (round_Z z); simpl;
      try (intros [= <-]; reflexivity);
      (destruct (float_is_zero d); [intros [= <-]; reflexivity | discriminate]).
  - destruct (float_is_zero d); [intros [= <-]; reflexivity | discriminate].
Qed.

Lemma bind_exceptions {A B} (r : result A) (k : A -> result B) :
  raises_only_exceptions r -> (forall a, raises_only_exceptions (k a)) ->
  raises_only_exceptions (r ≫= k).
Proof.
  intros Hr Hk e. destruct r as [a|e']; simpl.
  - apply Hk.
  - intros [= <-]. now apply Hr.
Qed.

Lemma Ok_exceptions {A} (a : A) : raises_only_exceptions (Ok a).
Proof. intros e; discriminate. Qed.

Lemma phase_speed_exceptions t n :
  raises_only_exceptions
    (c ← py_gt_int t 0;
     if (c : bool) then d ← py_div_float t f1000; py_div_float n d else Ok fzero).
Proof.
  apply bind_exceptions; [apply py_gt_int_exceptions|].
  intros [|]; [|apply Ok_exceptions].
  apply bind_exceptions; [apply py_div_float_exceptions|].
  intros d. apply py_div_float_exceptions.
Qed.

Lemma _calculate_speeds_exceptions L r n_prompt n_gen :
  (forall s, raises_only_exceptions (float_of_str L s)) ->
  raises_only_exceptions (_calculate_speeds L r n_prompt n_gen).
Proof.
  intros HL. unfold _calculate_speeds.
  destruct (py_eq_int n_gen 0).
  - apply bind_exceptions; [now apply py_float_exceptions|].
    intros a. apply Ok_exceptions.
  - apply bind_exceptions; [apply py_gt_int_exceptions|].
    intros [|].
    + apply bind_exceptions; [now apply py_float_exceptions|].
      intros a. apply Ok_exceptions.
    + apply bind_exceptions; [apply phase_speed_exceptions|]. intros enc.
      apply bind_exceptions; [apply phase_speed_exceptions|]. intros gen.
      apply Ok_exceptions.
Qed.

Lemma update_result_exceptions L vis r kv_str :
  (forall s, raises_only_exceptions (float_of_str L s)) ->
  raises_only_exceptions (update_result L vis r kv_str).
Proof.
  intros HL. unfold update_result.
  apply bind_exceptions; [now apply _calculate_speeds_exceptions|].
  intros [enc gen]. apply Ok_exceptions.
Qed.

Lemma _parse_line_exceptions L line :
  (forall s, raises_only_exceptions (json_loads L s)) ->
  raises_only_exceptions (_parse_line L line).
Proof.
  intros HL e. unfold _parse_line.
  destruct (String.eqb _ _); [discriminate|].
  destruct (json_loads L (strip line)) as [data|e'] eqn:Hd.
  - destruct data; try discriminate. destruct (dict_has _ _); discriminate.
  - destruct (is_JSONDecodeError e'); [discriminate|].
    intros [= <-]. exact (HL _ _ Hd).
Qed.

Lemma read_loop_exceptions L kv_str rs :
  lib_well_behaved L ->
  (forall e, In (ReadRaise e) rs -> is_Exception e = true) ->
  forall collected vis w,
    let '(_, _, _, r) := read_loop L kv_str rs collected vis w in
    raises_only_exceptions r.
Proof.
  intros [HL1 HL2]. induction rs as [|[line|e] rs IH]; intros Hrs collected vis w; simpl.
  - apply Ok_exceptions.
  - assert (Hrs' : forall e, In (ReadRaise e) rs -> is_Exception e = true)
      by (intros e He; apply Hrs; now right).
    destruct (String.eqb line EmptyString); [apply Ok_exceptions|].
    destruct (_parse_line L line) as [result|e] eqn:Hp.
    + destruct (not_result result); [now apply IH|].
      destruct result as [d|]; [|now apply IH].
      destruct (update_result L vis d kv_str) as [vis'|e] eqn:Hu.
      * now apply IH.
      * intros e' [= <-]. exact (update_result_exceptions L vis d kv_str HL2 e Hu).
    + intros e' [= <-]. exact (_parse_line_exceptions L line HL1 e Hp).
  - intros e' [= <-]. apply Hrs. now left.
Qed.

(** A print raises nothing but a [MarkupError]. *)
Lemma console_print_raises L text w e :
  snd (console_print L text w) = Raise e -> exn_cls e = MarkupError.
Proof.
  unfold console_print. destruct (markup_error L text); simpl; [|discriminate].
  intros [= <-]. reflexivity.
Qed.

(** A pair run nobody interrupts returns, whatever the child did,
    unless the console refuses what it is given to print. *)
Lemma _run_single_config_ends L self k v vis w pe :
  lib_well_behaved L -> uninterrupted pe ->
  run_end (_run_single_config L self k v vis w pe) = Ok tt
  \/ exists msg, run_end (_run_single_config L self k v vis w pe)
                 = Raise (Exn MarkupError msg).
Proof.
  intros HL (Hpo & Hrd & Hwt & Hwr). unfold _run_single_config.
  assert (Hbody : raises_only_exceptions
                    (body_end (run_body L self (k +:+ "/" +:+ v) (build_command self k v)
                                 vis w (proc pe)))).
  { unfold run_body. destruct (popen_raises (proc pe)) as [e|] eqn:Hp.
    - intros e' [= <-]. now apply Hpo.
    - pose proof (read_loop_exceptions L (k +:+ "/" +:+ v) (reads (proc pe)) HL Hrd []
                    vis (emit (EvPopen (build_command self k v)) w)) as Hloop.
      destruct (read_loop _ _ _ _ _ _) as [[[c' v'] w'] r'].
      destruct r' as [[]|e]; [|exact Hloop].
      destruct (wait_result (proc pe)) as [rc|e] eqn:Hw; [|intros e' [= <-]; now apply Hwt].
      unfold _check_process_result, log_error.
      match goal with |- context [body_end (let '(w0, r0) := ?x in _)] =>
        destruct x as [w2 r2] eqn:Hc end.
      intros e He. simpl in He. subst r2.
      assert (Hcls : exn_cls e = MarkupError).
      { apply (f_equal snd) in Hc. cbn [snd] in Hc.
        destruct (negb (rc =? 0)); [|destruct c'];
          try exact (console_print_raises _ _ _ _ Hc).
        discriminate. }
      unfold is_Exception. now rewrite Hcls. }
  destruct (run_body _ _ _ _ _ _ _) as [[[[self1 c1] vis1] w1] body]. simpl in Hbody.
  assert (Hpending : snd (run_failed L body w1) = Ok tt
                     \/ exists msg, snd (run_failed L body w1) = Raise (Exn MarkupError msg)).
  { unfold run_failed, log_error, console_print. destruct body as [[]|e]; [now left|].
    rewrite (Hbody e eq_refl). destruct (markup_error L _); [right; eauto | now left]. }
  destruct (run_failed L body w1) as [w2 pending]. simpl in Hpending.
  pose proof (_save_results_contained c1 (get_output_filename self k v (today pe))
                (write pe) w2 Hwr) as Hs.
  destruct (_save_results c1 _ (write pe) w2) as [w3 saved]. simpl in Hs. subst saved.
  exact Hpending.
Qed.

(** Cases on the outcome of the [finally] clause in the goal. *)
Ltac case_save :=
  match goal with
  | |- context [_save_results ?c ?f ?wo ?w] =>
      destruct (_save_results c f wo w) as [? [[]|?]]
  end.

Lemma run_body_settings L self kv_str cmd vis w p :
  let '(self', _, _, _, _) := run_body L self kv_str cmd vis w p in
  same_settings self' self.
Proof.
  unfold run_body. destruct (popen_raises p) as [e|]; [repeat split|].
  destruct (read_loop _ _ _ _ _ _) as [[[c' v'] w'] [[]|e]]; [|repeat split].
  destruct (wait_result p) as [rc|e]; [|repeat split].
  destruct (_check_process_result L _ rc c' kv_str w') as [w2 r2]. repeat split.
Qed.

Lemma _run_single_config_settings L self k v vis w pe :
  same_settings (run_runner (_run_single_config L self k v vis w pe)) self.
Proof.
  unfold _run_single_config.
  pose proof (run_body_settings L self (k +:+ "/" +:+ v) (build_command self k v)
                vis w (proc pe)) as H.
  destruct (run_body _ _ _ _ _ _ _) as [[[[self1 c1] vis1] w1] body].
  destruct (run_failed L body w1) as [w2 pending].
  case_save; exact H.
Qed.

(** The [try] block of a pair run whose child cannot be launched. *)
Lemma run_body_unlaunched L self k v vis w pe e :
  popen_raises (proc pe) = Some e ->
  run_body L self (k +:+ "/" +:+ v) (build_command self k v) vis w (proc pe)
  = (self, [], vis, emit (EvPopen (build_command self k v)) w, Raise e).
Proof. intros H. unfold run_body. now rewrite H. Qed.

(** The [try] block of a pair run whose child is launched: it collects
    what the reading loop collects, and ends as the loop does when the
    loop raises. *)
Lemma run_body_of_loop L self k v vis w pe :
  popen_raises (proc pe) = None ->
  let b := run_body L self (k +:+ "/" +:+ v) (build_command self k v) vis w (proc pe) in
  let '(c', v', _, r') := pair_loop L self k v vis w pe in
  collected_of b = c' /\ body_vis b = v'
  /\ (body_end b = Ok tt -> r' = Ok tt)
  /\ (forall e, r' = Raise e -> body_end b = Raise e).
Proof.
  intros H. unfold run_body, pair_loop. rewrite H.
  destruct (read_loop _ _ _ _ _ _) as [[[c' v'] w'] r'].
  destruct r' as [[]|e]; [|repeat split; auto; discriminate].
  destruct (wait_result (proc pe)) as [rc|e].
  - destruct (_check_process_result L _ rc c' _ w') as [w2 r2].
    repeat split; auto; discriminate.
  - repeat split; auto; discriminate.
Qed.

(** A pair run leaves the visualizer as its [try] block leaves it. *)
Lemma _run_single_config_vis L self k v vis w pe :
  run_vis (_run_single_config L self k v vis w pe)
  = body_vis (run_body L self (k +:+ "/" +:+ v) (build_command self k v) vis w (proc pe)).
Proof.
  unfold _run_single_config.
  destruct (run_body _ _ _ _ _ _ _) as [[[[self1 c1] vis1] w1] body].
  destruct (run_failed L body w1) as [w2 pending]. case_save; reflexivity.
Qed.

Lemma build_command_settings a b k v :
  same_settings a b -> build_command a k v = build_command b k v.
Proof. intros (Hm & Hc & _). unfold build_command. now rewrite Hm, Hc. Qed.

Lemma console_texts_snoc t e :
  console_texts (t ++ [e])
  = (console_texts t ++ match e with EvConsole s => [s] | _ => [] end)%list.
Proof. unfold console_texts. apply flat_map_snoc. Qed.

(** A print that returns has put its text on the console. *)
Lemma console_print_returns L text w :
  snd (console_print L text w) = Ok tt ->
  markup_error L text = None
  /\ console_texts (trace (fst (console_print L text w)))
     = (console_texts (trace w) ++ [text])%list.
Proof.
  unfold console_print. destruct (markup_error L text); [discriminate|].
  intros _. split; [reflexivity|]. unfold emit. cbn [fst trace].
  apply console_texts_snoc.
Qed.

(** What a child that ran to its exit has the pair run report. *)
Lemma _run_single_config_reports L self k v vis w pe rc :
  body_end (run_body L self (k +:+ "/" +:+ v) (build_command self k v) vis w (proc pe))
    = Ok tt ->
  wait_result (proc pe) = Ok rc ->
  console_texts (trace (run_world (_run_single_config L self k v vis w pe)))
  = (console_texts (trace w)
     ++ (if negb (rc =? 0)
         then [log_error_text (process_failed_text rc (stderr_text (proc pe)))]
         else match run_collected L self k v vis w pe with
              | [] => [log_error_text ("No results for " +:+ k +:+ "/" +:+ v)]
              | _ => []
              end))%list.
Proof.
  unfold _run_single_config, run_collected, run_body. intros Hb Hw.
  destruct (popen_raises (proc pe)) as [e|]; [discriminate|].
  pose proof (read_loop_trace L (k +:+ "/" +:+ v) (reads (proc pe)) [] vis
                (emit (EvPopen (build_command self k v)) w)) as Hl.
  destruct (read_loop _ _ _ _ _ _) as [[[c' v'] w'] r'].
  destruct Hl as (lives & Ht & Hl).
  destruct r' as [[]|e]; [|discriminate].
  rewrite Hw in *.
  assert (Hw' : console_texts (trace w') = console_texts (trace w)).
  { rewrite Ht. unfold emit. simpl. unfold console_texts.
    rewrite !flat_map_app. simpl. fold (console_texts lives).
    now rewrite (console_texts_lives lives Hl), !app_nil_r. }
  assert (Hrep : forall w2 r2,
             _check_process_result L (set_process self (Some (proc pe))) rc c'
               (k +:+ "/" +:+ v) w' = (w2, r2) ->
             r2 = Ok tt ->
             console_texts (trace w2)
             = (console_texts (trace w)
                ++ (if negb (rc =? 0)
                    then [log_error_text (process_failed_text rc (stderr_text (proc pe)))]
                    else match c' with
                         | [] => [log_error_text ("No results for " +:+ k +:+ "/" +:+ v)]
                         | _ => []
                         end))%list).
  { intros w2 r2 Hc Hr. subst r2.
    unfold _check_process_result, process_failed_text, log_error in *.
    cbn [process set_process] in Hc.
    destruct (negb (rc =? 0)).
    - rewrite <- Hw'.
      replace w2 with (fst (console_print L
        (log_error_text (if negb (String.eqb (stderr_text (proc pe)) EmptyString)
                         then ("Process failed (rc=" +:+ str_of_Z rc +:+ ")") +:+ newline
                                +:+ "Stderr: " +:+ stderr_text (proc pe)
                         else "Process failed (rc=" +:+ str_of_Z rc +:+ ")")) w'))
        by (destruct (negb (String.eqb _ _)); now rewrite Hc).
      apply console_print_returns.
      destruct (negb (String.eqb _ _)); now rewrite Hc.
    - destruct c'.
      + rewrite <- Hw'. replace w2 with (fst (console_print L
          (log_error_text ("No results for " +:+ k +:+ "/" +:+ v)) w'))
          by now rewrite Hc.
        apply console_print_returns. now rewrite Hc.
      + injection Hc as <-. now rewrite Hw', app_nil_r. }
  destruct (_check_process_result L _ rc c' _ w') as [w2 r2] eqn:Hc.
  cbn [body_end] in Hb. cbn [collected_of].
  specialize (Hrep w2 r2 eq_refl Hb). subst r2. cbn [run_failed].
  match goal with |- context [_save_results ?c ?f ?wo ?w3] =>
    destruct (_save_results_events c f wo w3) as (saves & Hs & _ & Hcs & _);
    destruct (_save_results c f wo w3) as [w4 saved] end.
  simpl in Hs.
  assert (Hgoal : console_texts (trace w4) = console_texts (trace w2)).
  { rewrite Hs. unfold console_texts at 1. rewrite flat_map_app.
    fold (console_texts saves) (console_texts (trace w2)). now rewrite Hcs, app_nil_r. }
  destruct saved as [[]|e]; cbn [run_world]; now rewrite Hgoal.
Qed.

(** ** The reference library raises no interrupt *)

Lemma Raise_exceptions {A} (e : exn) :
  is_Exception e = true -> raises_only_exceptions (@Raise A e).
Proof. intros He e' [= <-]. exact He. Qed.

Lemma cons_char_exceptions c r :
  raises_only_exceptions r -> raises_only_exceptions (Ref.cons_char c r).
Proof.
  intros Hr e. destruct r as [[str rest]|e']; simpl; [discriminate|].
  intros [= <-]. now apply Hr.
Qed.

Lemma scanstring_exceptions s : raises_only_exceptions (Ref.scanstring s).
Proof.
  remember (String.length s) as n eqn:Hn.
  revert s Hn. induction n as [n IH] using lt_wf_ind. intros s Hn.
  destruct s as [|c rest]; simpl; [now apply Raise_exceptions|].
  destruct (Ascii.eqb c Ref.dquote); [apply Ok_exceptions|].
  destruct (Ascii.eqb c "\").
  - destruct rest as [|e rest1]; [now apply Raise_exceptions|].
    destruct (Ascii.eqb e "u").
    + destruct rest1 as [|h1 [|h2 [|h3 [|h4 rest2]]]];
        try now apply Raise_exceptions.
      destruct (Ref.hex4 h1 h2 h3 h4) as [k|]; [|now apply Raise_exceptions].
      destruct (k <? 256); [|now apply Raise_exceptions].
      apply cons_char_exceptions.
      apply (IH (String.length rest2)); [subst n; simpl; lia | reflexivity].
    + destruct (Ref.unescape e); [|now apply Raise_exceptions].
      apply cons_char_exceptions.
      apply (IH (String.length rest1)); [subst n; simpl; lia | reflexivity].
  - destruct (nat_of_ascii c <? 32)%nat; [now apply Raise_exceptions|].
    apply cons_char_exceptions.
    apply (IH (String.length rest)); [subst n; simpl; lia | reflexivity].
Qed.

Lemma scan_scalar_exceptions s : raises_only_exceptions (Ref.scan_scalar s).
Proof.
  unfold Ref.scan_scalar.
  destruct (Ref.after_prefix "null" s); [apply Ok_exceptions|].
  destruct (Ref.after_prefix "true" s); [apply Ok_exceptions|].
  destruct (Ref.after_prefix "false" s); [apply Ok_exceptions|].
  destruct (Ref.match_number s); [apply Ok_exceptions|].
  destruct (Ref.after_prefix "NaN" s); [apply Ok_exceptions|].
  destruct (Ref.after_prefix "Infinity" s); [apply Ok_exceptions|].
  destruct (Ref.after_prefix "-Infinity" s); [apply Ok_exceptions|].
  now apply Raise_exceptions.
Qed.

Lemma scan_exceptions fuel :
  (forall depth s, raises_only_exceptions (Ref.scan_once fuel depth s))
  /\ (forall depth s, raises_only_exceptions (Ref.array_items fuel depth s))
  /\ (forall depth s pairs, raises_only_exceptions (Ref.object_items fuel depth s pairs)).
Proof.
  induction fuel as [|fuel (IHs & IHa & IHo)].
  { repeat split; intros; now apply Raise_exceptions. }
  repeat split.
  - intros depth s. simpl.
    destruct (Ref.after_char Ref.dquote s) as [rest|].
    { apply bind_exceptions; [apply scanstring_exceptions|].
      intros [str r]. apply Ok_exceptions. }
    destruct (Ref.after_char "[" s) as [rest|].
    { destruct depth as [|depth]; [now apply Raise_exceptions|].
      destruct (Ref.after_char "]" (Ref.skip_ws rest)); [apply Ok_exceptions|].
      apply bind_exceptions; [apply IHa|]. intros [items r]. apply Ok_exceptions. }
    destruct (Ref.after_char "{" s) as [rest|].
    { destruct depth as [|depth]; [now apply Raise_exceptions|].
      destruct (Ref.after_char "}" (Ref.skip_ws rest)); [apply Ok_exceptions|].
      apply bind_exceptions; [apply IHo|]. intros [pairs r]. apply Ok_exceptions. }
    destruct s; [now apply Raise_exceptions | apply scan_scalar_exceptions].
  - intros depth s. simpl. apply bind_exceptions; [apply IHs|]. intros [value r].
    destruct (Ref.after_char "]" (Ref.skip_ws r)); [apply Ok_exceptions|].
    destruct (Ref.after_char "," (Ref.skip_ws r)); [|now apply Raise_exceptions].
    apply bind_exceptions; [apply IHa|]. intros [values r']. apply Ok_exceptions.
  - intros depth s pairs. simpl.
    destruct (Ref.after_char Ref.dquote s) as [rest|]; [|now apply Raise_exceptions].
    apply bind_exceptions; [apply scanstring_exceptions|]. intros [key r].
    destruct (Ref.after_char ":" (Ref.skip_ws r)) as [r1|]; [|now apply Raise_exceptions].
    apply bind_exceptions; [apply IHs|]. intros [value r2].
    destruct (Ref.after_char "}" (Ref.skip_ws r2)); [apply Ok_exceptions|].
    destruct (Ref.after_char "," (Ref.skip_ws r2)); [apply IHo|].
    now apply Raise_exceptions.
Qed.

Lemma ref_lib_well_behaved : lib_well_behaved Ref.lib.
Proof.
  split; intros s; simpl.
  - unfold Ref.loads, Ref.loads_within. apply bind_exceptions; [apply scan_exceptions|].
    intros [obj rest]. destruct (Ref.skip_ws rest); [apply Ok_exceptions|].
    now apply Raise_exceptions.
  - unfold Ref.float_str.
    destruct (Ref.drop_underscores _ _) as [t|]; [|now apply Raise_exceptions].
    destruct (match t with
              | String "-" r => (true, r)
              | String "+" r => (false, r)
              | _ => (false, t)
              end) as [neg body].
    destruct (_ || _); [apply Ok_exceptions|].
    destruct (String.eqb _ _); [apply Ok_exceptions|].
    destruct (Ref.decimal_float neg body); [apply Ok_exceptions|].
    now apply Raise_exceptions.
Qed.

(** ** Failed runs *)

Lemma read_loop_to_end L kv_str rs :
  reads_to_end rs = true -> Forall (line_ok L) (lines_read rs) ->
  forall collected vis w,
    let '(_, _, _, r) := read_loop L kv_str rs collected vis w in r = Ok tt.
Proof.
  induction rs as [|[line|e] rs IH]; intros Hend Hok c vis w; simpl in *;
    [reflexivity | | discriminate].
  destruct (String.eqb line EmptyString); [reflexivity|].
  apply Forall_cons_1 in Hok. destruct Hok as [(result & Hp & Hs) Hok].
  rewrite Hp. destruct result as [d|]; [|simpl; now apply IH].
  rewrite (_parse_line_truthy L line d Hp).
  destruct (Hs d eq_refl) as (speeds & Hd).
  rewrite update_result_appends, Hd. cbn [mbind result_bind]. now apply IH.
Qed.

(** The text [_check_process_result] hands to the console is the one of
    the specification. *)
Lemma _check_process_result_report L self p rc results k v w :
  process self = Some p ->
  _check_process_result L self rc results (k +:+ "/" +:+ v) w
  = match failure_report k v rc (stderr_text p) results with
    | text :: _ => console_print L text w
    | [] => (w, Ok tt)
    end.
Proof.
  intros Hp. unfold _check_process_result, failure_report, log_error, log_error_text.
  rewrite Hp. destruct (rc =? 0); cbn [negb].
  - destruct results; [|reflexivity]. now rewrite !append_assoc.
  - destruct (stderr_text p) as [|c err]; cbn [String.eqb negb].
    + now rewrite !append_assoc.
    + now rewrite !append_assoc.
Qed.

(** The [try] block of the run of a child that ran to its exit: what it
    collects, and how it ends. *)
Lemma run_body_exited L self k v vis w pe rc :
  child_exited L pe rc ->
  let b := run_body L self (k +:+ "/" +:+ v) (build_command self k v) vis w (proc pe) in
  collected_of b = parsed_records L (lines_read (reads (proc pe)))
  /\ (Forall (fun text => markup_error L text = None)
        (failure_report k v rc (stderr_text (proc pe))
           (parsed_records L (lines_read (reads (proc pe))))) ->
      body_end b = Ok tt).
Proof.
  intros (Hp & Hend & Hok & Hw). unfold run_body. rewrite Hp, Hw.
  pose proof (read_loop_to_end L (k +:+ "/" +:+ v) (reads (proc pe)) Hend Hok [] vis
                (emit (EvPopen (build_command self k v)) w)) as Hr.
  pose proof (read_loop_collects_lines L (k +:+ "/" +:+ v) (reads (proc pe)) Hok [] vis
                (emit (EvPopen (build_command self k v)) w)) as Hc.
  destruct (read_loop _ _ _ _ _ _) as [[[c' v'] w'] r']. subst r'. simpl in Hc. subst c'.
  rewrite (_check_process_result_report L _ (proc pe)) by reflexivity.
  destruct (failure_report k v rc _ _) as [|text rest]; [split; auto|].
  unfold console_print. split.
  - destruct (markup_error L text); reflexivity.
  - intros Hm. apply Forall_cons_1 in Hm. destruct Hm as [-> _]. reflexivity.
Qed.

Lemma _run_single_config_end L self k v vis w pe :
  body_end (run_body L self (k +:+ "/" +:+ v) (build_command self k v) vis w (proc pe))
    = Ok tt ->
  write_contained (write pe) ->
  run_end (_run_single_config L self k v vis w pe) = Ok tt.
Proof.
  intros Hb Hw. unfold _run_single_config.
  destruct (run_body _ _ _ _ _ _ _) as [[[[self1 c1] vis1] w1] body].
  simpl in Hb. subst body. cbn [run_failed].
  pose proof (_save_results_contained c1 (get_output_filename self k v (today pe))
                (write pe) w1 Hw) as Hs.
  destruct (_save_results c1 _ (write pe) w1) as [w3 saved]. simpl in Hs. now subst saved.
Qed.

(** A child that exits with a status other than 0 has the pair run
    report the failure, with the text of its standard error when there
    is some; a child that exits with status 0 and gave no record has it
    report that there are no results.  Either way the pair run returns,
    so that the sweep goes on, as long as the console can read the
    report. *)
Lemma failed_run_reported L self k v vis w pe :
  reportable L k v pe ->
  let r := _run_single_config L self k v vis w pe in
  run_end r = Ok tt
  /\ console_texts (trace (run_world r))
     = (console_texts (trace w) ++ pair_report L k v pe)%list
  /\ run_collected L self k v vis w pe
     = parsed_records L (lines_read (reads (proc pe))).
Proof.
  intros (Hex & Hw & Hm). cbn zeta.
  destruct (run_body_exited L self k v vis w pe (exit_code pe) Hex) as [Hc Hb].
  specialize (Hb Hm). fold (run_collected L self k v vis w pe) in Hc.
  refine (conj (_run_single_config_end L self k v vis w pe Hb Hw) (conj _ Hc)).
  destruct Hex as (_ & _ & _ & Hwait).
  rewrite (_run_single_config_reports L self k v vis w pe (exit_code pe) Hb Hwait), Hc.
  f_equal. unfold pair_report, failure_report, log_error_text, process_failed_text.
  destruct (exit_code pe =? 0); cbn [negb].
  - destruct (parsed_records L _); [|reflexivity]. now rewrite !append_assoc.
  - destruct (stderr_text (proc pe)); cbn [String.eqb negb]; now rewrite !append_assoc.
Qed.

(** A sweep of such pair runs returns: it has launched one child for
    each pair, in order, none a second time, and the console has the
    reports of the pairs, in order. *)
Lemma failed_runs_reported_sweep_continues L envs :
  forall pairs i self vis w,
    (forall j k v, pairs !! j = Some (k, v) -> reportable L k v (envs (i + j)%nat)) ->
    let r := run_pairs L self pairs i envs vis w in
    run_end r = Ok tt
    /\ popens (trace (run_world r))
       = (popens (trace w) ++ map (fun kv => build_command self kv.1 kv.2) pairs)%list
    /\ console_texts (trace (run_world r))
       = (console_texts (trace w) ++ sweep_reports L pairs i envs)%list.
Proof.
  induction pairs as [|[k v] pairs IH]; intros i self vis w Hall; simpl.
  - rewrite !app_nil_r. auto.
  - assert (Hhere : reportable L k v (envs i)).
    { specialize (Hall O k v eq_refl). now rewrite Nat.add_0_r in Hall. }
    destruct (failed_run_reported L self k v vis w (envs i) Hhere) as (Hr & Hc & _).
    pose proof (_run_single_config_launches L self k v vis w (envs i)) as [Hp _].
    pose proof (_run_single_config_settings L self k v vis w (envs i)) as Hs.
    destruct (_run_single_config L self k v vis w (envs i)) as [[[self1 vis1] w1] r1].
    simpl in Hr, Hc, Hp, Hs. subst r1.
    specialize (IH (S i) self1 vis1 w1). cbn zeta in IH.
    destruct IH as (IH1 & IH2 & IH3).
    { intros j k' v' Hj. specialize (Hall (S j) k' v' Hj).
      now rewrite Nat.add_succ_r in Hall. }
    refine (conj IH1 (conj _ _)).
    + rewrite IH2, Hp, <- app_assoc. simpl. do 2 f_equal.
      apply map_ext. intros [k' v']. now apply build_command_settings.
    + now rewrite IH3, Hc, <- app_assoc.
Qed.

(** The sample sweep of a failing child and a silent one. *)
Lemma failing_then_silent_reported :
  let r := run_pairs Ref.lib sample_runner two_pairs 0 failing_then_silent
             (new_visualizer 588) empty_world in
  run_end r = Ok tt
  /\ popens (trace (run_world r))
     = [build_command sample_runner "f16" "f16"; build_command sample_runner "q8_0" "q8_0"]
  /\ console_texts (trace (run_world r))
     = [ "[red]Error: Process failed (rc=2)" +:+ newline
           +:+ "Stderr: error: failed to load model[/red]";
         "[red]Error: No results for q8_0/q8_0[/red]" ].
Proof.
  apply (failed_runs_reported_sweep_continues Ref.lib failing_then_silent two_pairs 0
           sample_runner (new_visualizer 588) empty_world).
  intros [|[|j]] k v Hj; simpl in Hj; try discriminate; injection Hj as <- <-.
  - repeat split; try reflexivity; repeat constructor.
  - repeat split; try reflexivity; [|repeat constructor].
    repeat constructor. eexists. split; [vm_compute; reflexivity|]. discriminate.
Qed.

(** C7, on the run the claim fails on. The first child of a sweep of
    two pairs exits with status 1, the path of the model in brackets in
    its standard error.  [rich] reads the bracket as a closing tag: the
    report raises a [MarkupError], the report of that error raises
    another, which nothing catches.  The failure is not reported, the
    second child is not launched, and the program ends on the exception
    with status 1; so it does from [main], with the one pair it then
    has, where no summary follows. *)
Theorem bracketed_stderr_stops_sweep :
  (let '(_, _, w, c) := run_all Ref.lib two_pair_runner bracket_env empty_world in
   c = Raised (Exn MarkupError
                 "closing tag '[/tmp/m.gguf]' at position 32 doesn't match any open tag")
   /\ exit_status c = 1
   /\ popens (trace w) = [build_command two_pair_runner "f16" "f16"]
   /\ console_texts (trace w) = [])
  /\ (let '(w, c) := main Ref.lib bracket_env empty_world in
      exit_status c = 1
      /\ popens (trace w) = [build_command sample_runner "q8_0" "q8_0"]
      /\ console_texts (trace w) = [])
  /\ markup_error Ref.lib
       ("[red]Error: Process failed (rc=1)" +:+ newline
          +:+ "Stderr: error: failed to open [/tmp/m.gguf][/red]")
     = Some "closing tag '[/tmp/m.gguf]' at position 64 doesn't match any open tag".
Proof. vm_compute. repeat split; reflexivity. Qed.

(** ** Command line and interrupts *)

Lemma main_usage L env w :
  (length (argv env) < 2)%nat ->
  main L env w
  = (emit (EvPrint "Usage: python llama-bench-runner.py <model_path>") w, Exited 1).
Proof.
  intros H. unfold main. destruct (argv env) as [|a0 [|a1 rest]]; simpl in H;
    [reflexivity | reflexivity | lia].
Qed.

(** A model file that is not there: the program says so, unless the
    console cannot read the path, and ends with status 1 either way. *)
Lemma main_missing_model L env w a0 a1 rest :
  argv env = a0 :: a1 :: rest -> path_exists env (str_Path a1) = false ->
  exit_status (snd (main L env w)) = 1
  /\ (markup_error L ("[red]Error: Model file not found: " +:+ str_Path a1 +:+ "[/red]")
      = None ->
      main L env w
      = (emit (EvConsole ("[red]Error: Model file not found: " +:+ str_Path a1
                            +:+ "[/red]")) w,
         Exited 1)).
Proof.
  intros Ha Hp. unfold main. rewrite Ha, Hp. cbn [negb].
  unfold console_print, model_not_found_text.
  destruct (markup_error L _); [split; [reflexivity | discriminate]|].
  split; reflexivity.
Qed.

(** The estimate is printed and a line of input awaited; an interrupt at
    that point ends the program with status 0, no child launched. *)
Lemma main_prompt_interrupt L env w a0 a1 rest e :
  argv env = a0 :: a1 :: rest -> path_exists env (str_Path a1) = true ->
  mkdir_error env = None ->
  stdin_reply env = InputRaise e -> is_KeyboardInterrupt e = true ->
  main L env w
  = (emit EvInput
       (emit (EvPrint "Press Enter to start...")
          (emit (EvPrint "Plan to run approximately 294 tests.")
             (emit (EvMkdir "test-results") w))),
     Exited 0).
Proof. intros Ha Hp Hm Hi He. unfold main. rewrite Ha, Hp, Hm, Hi, He. reflexivity. Qed.

(** When the [finally] clause of a pair run is over, the runner holds no
    child any more, however the run ends. *)
Lemma _run_single_config_forgets_child L self k v vis w pe :
  write_contained (write pe) ->
  process (run_runner (_run_single_config L self k v vis w pe)) = None.
Proof.
  intros Hw. unfold _run_single_config.
  destruct (run_body _ _ _ _ _ _ _) as [[[[self1 c1] vis1] w1] body].
  destruct (run_failed L body w1) as [w2 pending].
  pose proof (_save_results_contained c1 (get_output_filename self k v (today pe))
                (write pe) w2 Hw) as Hs.
  destruct (_save_results c1 _ (write pe) w2) as [w3 saved]. simpl in Hs. subst saved.
  reflexivity.
Qed.

Lemma run_pairs_forgets_child L envs :
  (forall j, write_contained (write (envs j))) ->
  forall pairs i self vis w,
    process self = None ->
    let r := run_pairs L self pairs i envs vis w in
    process (run_runner r) = None
    /\ terminates (trace (run_world r)) = terminates (trace w).
Proof.
  intros Henv. induction pairs as [|[k v] pairs IH]; intros i self vis w Hp; simpl.
  - auto.
  - pose proof (_run_single_config_forgets_child L self k v vis w (envs i) (Henv i)) as Hf.
    pose proof (_run_single_config_launches L self k v vis w (envs i)) as [_ Ht].
    destruct (_run_single_config L self k v vis w (envs i)) as [[[self1 vis1] w1] r1].
    simpl in Hf, Ht. destruct r1 as [[]|e]; [|auto].
    specialize (IH (S i) self1 vis1 w1 Hf). cbn zeta in IH.
    destruct IH as [IH1 IH2]. split; [exact IH1 | congruence].
Qed.

Lemma terminates_emit e w :
  e <> EvTerminate -> terminates (trace (emit e w)) = terminates (trace w).
Proof.
  intros He. unfold emit, terminates. simpl. rewrite flat_map_snoc.
  destruct e; try apply app_nil_r. contradiction.
Qed.

Lemma terminates_console_print L text w :
  terminates (trace (fst (console_print L text w))) = terminates (trace w).
Proof.
  unfold console_print. destruct (markup_error L text); [reflexivity|].
  cbn [fst]. now apply terminates_emit.
Qed.

Lemma terminates_print_summary L self elapsed w :
  terminates (trace (fst (print_summary L self elapsed w))) = terminates (trace w).
Proof.
  unfold print_summary.
  pose proof (terminates_console_print L (done_text elapsed)
                (emit (EvConsole EmptyString) w)) as H1.
  destruct (console_print L (done_text elapsed) _) as [w1 [[]|e]]; cbn [fst] in *.
  - rewrite terminates_console_print, H1. now apply terminates_emit.
  - rewrite H1. now apply terminates_emit.
Qed.

(** No run of the program calls [terminate]: by the time
    [_handle_interrupt] looks at [self.process], the [finally] clause of
    the pair run has set it to [None]. *)
Lemma main_never_terminates L env w :
  (forall j, write_contained (write (pair_envs env j))) ->
  terminates (trace (fst (main L env w))) = terminates (trace w).
Proof.
  intros Henv. unfold main.
  destruct (argv env) as [|a0 [|a1 rest]];
    try (cbn [fst]; rewrite terminates_emit by discriminate; reflexivity).
  destruct (path_exists env (str_Path a1)); cbn [negb].
  2:{ pose proof (terminates_console_print L (model_not_found_text (str_Path a1)) w) as H.
      destruct (console_print L _ w) as [w1 r1]. exact H. }
  destruct (mkdir_error env) as [msg|];
    [cbn [fst]; now rewrite terminates_emit by discriminate|].
  destruct (stdin_reply env) as [line|e].
  - unfold run_all.
    match goal with |- context [run_pairs L ?s ?ps ?i ?en ?vi ?wo] =>
      pose proof (run_pairs_forgets_child L en Henv ps i s vi wo eq_refl) as H;
      destruct (run_pairs L s ps i en vi wo) as [[[self1 vis1] w1] r1] end.
    cbn zeta in H. cbn [run_runner run_world] in H. destruct H as [Hp Ht].
    destruct r1 as [[]|e].
    + pose proof (terminates_print_summary L self1 (elapsed env) w1) as Hs.
      destruct (print_summary L self1 (elapsed env) w1) as [w2 r2]. cbn [fst] in *.
      rewrite Hs, Ht. now rewrite !terminates_emit by discriminate.
    + destruct (is_KeyboardInterrupt e).
      * unfold _handle_interrupt. rewrite Hp.
        pose proof (terminates_console_print L
                      (newline +:+ "[yellow]Interrupted.[/yellow]") w1) as Hs.
        destruct (console_print L _ w1) as [w2 r2]. cbn [fst] in *.
        rewrite Hs, Ht. now rewrite !terminates_emit by discriminate.
      * cbn [fst]. rewrite Ht. now rewrite !terminates_emit by discriminate.
  - destruct (is_KeyboardInterrupt e); cbn [fst];
      now rewrite !terminates_emit by discriminate.
Qed.

(** C9, on the run the claim fails on. The user starts the sweep and
    interrupts it while the first child is printing: the program ends
    with status 130 and has saved the record read so far, but the child
    it launched is never sent [terminate]. *)
Theorem interrupt_leaves_child_running :
  let '(w, c) := main Ref.lib interrupted_env empty_world in
  exit_status c = 130
  /\ popens (trace w) = [build_command sample_runner "q8_0" "q8_0"]
  /\ terminates (trace w) = []
  /\ fs w !! sample_path = Some (JsonDump (VList [VDict sample_record]) 2).
Proof. vm_compute. repeat split; reflexivity. Qed.

(** ** Progress reporter *)

Lemma last_n_suffix {A} n (l : list A) :
  exists older, l = (older ++ last_n n l)%list
                /\ length (last_n n l) = Nat.min n (length l).
Proof.
  unfold last_n. exists (take (length l - n) l). split.
  - now rewrite take_drop.
  - rewrite length_drop. lia.
Qed.

(** After fifteen recordings the history holds all fifteen entries, the
    first recorded still at its head. *)
Lemma history_grows_past_ten :
  match record_results Ref.lib (new_visualizer 294) fifteen_records "q8_0/q8_0" with
  | Ok vis =>
      length (results_history vis) = 15%nat
      /\ map e_n_prompt (take 5 (results_history vis))
         = [VInt 1; VInt 2; VInt 3; VInt 4; VInt 5]
      /\ completed vis = 15
  | Raise _ => False
  end.
Proof. vm_compute. repeat split; reflexivity. Qed.

(** C6, amended. Each [update_result] whose speeds derive appends the
    new entry to [results_history] (nothing is evicted, the list keeps
    every entry in order of arrival) and advances the progress bar by
    one. The table [generate_display] draws holds the rows of the 10
    most recent entries at most, in order of arrival; with 15 entries
    recorded the rows of the oldest 5 are not in it and the other 10
    are, in that order. *)
Theorem display_shows_last_ten :
  (forall L vis r kv_str speeds,
      deriveSpeeds L r = Ok speeds ->
      exists vis',
        update_result L vis r kv_str = Ok vis'
        /\ results_history vis' = (results_history vis ++ [entry_of kv_str r speeds])%list
        /\ completed vis' = completed vis + 1)
  /\ (forall vis,
         length (generate_display vis) = Nat.min 10 (length (results_history vis))
         /\ exists older recent,
              results_history vis = (older ++ recent)%list
              /\ generate_display vis = map _add_result_row recent)
  /\ (forall vis,
         length (results_history vis) = 15%nat ->
         generate_display vis = map _add_result_row (drop 5 (results_history vis))).
Proof.
  refine (conj _ (conj _ _)).
  - intros L vis r kv_str speeds Hs. rewrite update_result_appends, Hs.
    eexists. repeat split.
  - intros vis. unfold generate_display.
    destruct (last_n_suffix 10 (results_history vis)) as (older & Ho & Hl).
    split; [now rewrite length_map|].
    exists older, (last_n 10 (results_history vis)). auto.
  - intros vis Hl. unfold generate_display, last_n. now rewrite Hl.
Qed.

Lemma display_shows_last_ten_witness :
  (exists vis',
      update_result Ref.lib (new_visualizer 294) sample_record "q8_0/q8_0" = Ok vis'
      /\ results_history vis'
         = (results_history (new_visualizer 294)
            ++ [entry_of "q8_0/q8_0" sample_record (f55_2, fzero)])%list
      /\ completed vis' = completed (new_visualizer 294) + 1)
  /\ match record_results Ref.lib (new_visualizer 294) fifteen_records "q8_0/q8_0" with
     | Ok vis =>
         generate_display vis = map _add_result_row (drop 5 (results_history vis))
         /\ map (fun r => fst (r_io r)) (generate_display vis)
            = map VInt [6; 7; 8; 9; 10; 11; 12; 13; 14; 15]
     | Raise _ => False
     end.
Proof.
  pose proof display_shows_last_ten as (Ha & _ & Hc).
  split.
  - apply (Ha Ref.lib (new_visualizer 294) sample_record "q8_0/q8_0" (f55_2, fzero)).
    reflexivity.
  - destruct (record_results Ref.lib (new_visualizer 294) fifteen_records "q8_0/q8_0")
      as [vis|e] eqn:Hr; [|vm_compute in Hr; discriminate].
    split.
    + apply Hc. vm_compute in Hr. injection Hr as <-. reflexivity.
    + vm_compute in Hr. injection Hr as <-. reflexivity.
Defined.

(** ** Speed metric deriver *)

Lemma py_eq_int_number v n k :
  as_number v = Some n -> py_eq_int v k = match n with
                                           | NInt z => z =? k
                                           | NFloat f => float_eq_Z f k
                                           end.
Proof. destruct v; simpl; intros [= <-]; reflexivity. Qed.

Lemma py_gt_int_number v n :
  as_number v = Some n -> py_gt_int v 0 = Ok (number_positive n).
Proof. destruct v; simpl; intros [= <-]; reflexivity. Qed.

Lemma py_float_number L v n :
  as_number v = Some n -> py_float L v = number_float n.
Proof. destruct v; simpl; intros [= <-]; reflexivity. Qed.

Lemma py_div_float_number v n d :
  as_number v = Some n -> py_div_float v d = quotient n d.
Proof. destruct v; simpl; intros [= <-]; reflexivity. Qed.

Lemma phase_speed_number t n tokens millis :
  as_number t = Some millis -> as_number n = Some tokens ->
  (c ← py_gt_int t 0;
   if (c : bool) then d ← py_div_float t f1000; py_div_float n d else Ok fzero)
  = tokens_per_second tokens millis.
Proof.
  intros Ht Hn. rewrite (py_gt_int_number t millis Ht). unfold tokens_per_second.
  cbn [mbind result_bind]. destruct (number_positive millis); [|reflexivity].
  rewrite (py_div_float_number t millis f1000 Ht).
  destruct (quotient millis f1000) as [d|e]; [|reflexivity].
  cbn [mbind result_bind]. now apply py_div_float_number.
Qed.

Lemma deriveSpeeds_refines L record t :
  read_timings record = Some t -> deriveSpeeds L record = deriveSpeeds_spec t.
Proof.
  unfold read_timings, deriveSpeeds, _calculate_speeds, deriveSpeeds_spec.
  destruct (as_number (dict_get record "n_prompt" (VInt 0))) as [p|] eqn:Hp; [|discriminate].
  destruct (as_number (dict_get record "n_gen" (VInt 0))) as [g|] eqn:Hg; [|discriminate].
  destruct (as_number (dict_get record "avg_ts" (VInt 0))) as [a|] eqn:Ha; [|discriminate].
  destruct (as_number (dict_get record "t_pp_ms" (VInt 0))) as [tp|] eqn:Htp; [|discriminate].
  destruct (as_number (dict_get record "t_tg_ms" (VInt 0))) as [tg|] eqn:Htg; [|discriminate].
  intros [= <-]. cbn [t_n_prompt t_n_gen t_avg_ts t_pp_ms t_tg_ms].
  rewrite (py_eq_int_number _ g 0 Hg). fold (number_is_zero g).
  destruct (number_is_zero g).
  - now rewrite (py_float_number L _ a Ha).
  - rewrite (py_gt_int_number _ a Ha). cbn [mbind result_bind].
    destruct (number_positive a).
    + now rewrite (py_float_number L _ a Ha).
    + rewrite (phase_speed_number _ _ p tp Htp Hp).
      now rewrite (phase_speed_number _ _ g tg Htg Hg).
Qed.

(** ** Signs of rounded quotients *)

Lemma shr_1_nonneg mrs : 0 <= shr_m mrs -> 0 <= shr_m (shr_1 mrs).
Proof.
  destruct mrs as [m r s]. simpl. destruct m as [|p|p]; [simpl; lia | | lia].
  intros _. destruct p; simpl; lia.
Qed.

Lemma iter_pos_invariant {A} (P : A -> Prop) (f : A -> A) :
  (forall x, P x -> P (f x)) -> forall n x, P x -> P (SpecFloat.iter_pos f n x).
Proof.
  intros Hf. induction n as [n IH|n IH|]; intros x Hx; simpl; auto.
Qed.

Lemma shr_fexp_nonneg m e l :
  0 <= m -> 0 <= shr_m (fst (shr_fexp prec emax m e l)).
Proof.
  intros Hm. unfold shr_fexp, shr.
  assert (H0 : 0 <= shr_m (shr_record_of_loc m l)) by (destruct l as [|[]]; exact Hm).
  destruct (fexp prec emax (Zdigits2 m + e) - e) as [|p|p]; simpl; try exact H0.
  apply (iter_pos_invariant (fun mrs => 0 <= shr_m mrs)); [apply shr_1_nonneg | exact H0].
Qed.

Lemma round_nearest_even_nonneg m l : 0 <= m -> 0 <= round_nearest_even m l.
Proof.
  intros Hm. unfold round_nearest_even. destruct l as [|[]]; try lia.
  destruct (Z.even m); lia.
Qed.

Lemma binary_round_aux_sign s m e l :
  0 <= m -> has_sign s (binary_round_aux prec emax s m e l).
Proof.
  intros Hm. unfold binary_round_aux.
  pose proof (shr_fexp_nonneg m e l Hm) as H1.
  destruct (shr_fexp prec emax m e l) as [mrs' e']. simpl in H1.
  pose proof (shr_fexp_nonneg (round_nearest_even (shr_m mrs') (loc_of_shr_record mrs'))
                e' loc_Exact (round_nearest_even_nonneg _ _ H1)) as H2.
  destruct (shr_fexp prec emax _ e' loc_Exact) as [mrs'' e'']. simpl in H2.
  destruct (shr_m mrs'') as [|p|p]; [left; reflexivity | | lia].
  destruct (e'' <=? emax - prec); [right; left; eauto | right; right; reflexivity].
Qed.

Lemma round_Z_sign z : 0 <= z -> has_sign false (round_Z z).
Proof.
  intros Hz. unfold round_Z, binary_normalize. destruct z as [|p|p]; [now left | | lia].
  unfold binary_round. destruct (shl_align p 0 _) as [mz ez].
  apply binary_round_aux_sign. lia.
Qed.

(** A quotient of a float that is not negative by a positive one is not
    negative, unless both are infinite. *)
Lemma fdiv_nonneg x y :
  has_sign false x -> has_sign false y -> float_is_zero y = false ->
  (x = S754_infinity false -> y <> S754_infinity false) ->
  has_sign false (fdiv x y).
Proof.
  intros Hx Hy Hy0 Hinf. unfold fdiv.
  destruct Hy as [-> | [(my & ey & ->) | ->]]; [discriminate | |].
  - destruct Hx as [-> | [(mx & ex & ->) | ->]]; simpl.
    + now left.
    + destruct (SFdiv_core_binary prec emax (Z.pos mx) ex (Z.pos my) ey)
        as [[mz ez] lz] eqn:Hc.
      apply binary_round_aux_sign.
      unfold SFdiv_core_binary in Hc.
      set (m' := match _ - _ - _ with
                 | 0 => Z.pos mx
                 | Z.pos _ => Z.shiftl (Z.pos mx) _
                 | Z.neg _ => 0
                 end) in Hc.
      assert (Hm' : 0 <= m').
      { subst m'. destruct (_ - _ - _); try lia. apply Z.shiftl_nonneg. lia. }
      pose proof (Z_div_mod m' (Z.pos my) ltac:(lia)) as Hdm.
      destruct (Z.div_eucl m' (Z.pos my)) as [q r]. injection Hc as <- _ _.
      destruct Hdm as [Heq Hr]. nia.
    + now right; right.
  - destruct Hx as [-> | [(mx & ex & ->) | ->]]; simpl.
    + now left.
    + now left.
    + now destruct (Hinf eq_refl).
Qed.

Lemma has_sign_nonneg f : has_sign false f -> float_nonneg f = true.
Proof. intros [-> | [(m & e & ->) | ->]]; reflexivity. Qed.

Lemma float_gt_Z_sign f :
  float_gt_Z f 0 = true -> has_sign false f /\ float_is_zero f = false.
Proof.
  unfold float_gt_Z, float_cmp_Z. destruct f as [s|s| |s m e]; simpl; try discriminate.
  - destruct s; [discriminate|]. intros _. split; [now right; right | reflexivity].
  - destruct s; [|intros _; split; [right; left; eauto | reflexivity]].
    destruct (0 <=? e); simpl; [|discriminate].
    destruct (Z.neg m * 2 ^ e ?= 0) eqn:Hc; try discriminate.
    apply Z.compare_gt_iff in Hc. pose proof (Z.pow_nonneg 2 e ltac:(lia)). nia.
Qed.

Lemma float_of_int_sign z f :
  0 <= z -> float_of_int z = Ok f ->
  has_sign false f /\ f <> S754_infinity false /\ f = round_Z z.
Proof.
  intros Hz. unfold float_of_int. pose proof (round_Z_sign z Hz) as Hs.
  destruct (round_Z z) as [s|s| |s m e]; try discriminate; intros [= <-];
    repeat split; try exact Hs; discriminate.
Qed.

Lemma f1000_positive : has_sign false f1000 /\ float_is_zero f1000 = false
                       /\ f1000 <> S754_infinity false.
Proof. repeat split; [right; left; unfold f1000; eauto | discriminate]. Qed.

(** ** Magnitudes of rounded quotients *)

Lemma digits2_pos_bounds p :
  2 ^ (Z.pos (digits2_pos p) - 1) <= Z.pos p < 2 ^ Z.pos (digits2_pos p).
Proof.
  induction p as [p IH|p IH|]; simpl digits2_pos.
  - rewrite Pos2Z.inj_succ. replace (Z.succ (Z.pos (digits2_pos p)) - 1)
      with (Z.pos (digits2_pos p) - 1 + 1) by lia.
    rewrite Z.pow_succ_r by lia. rewrite Z.pow_add_r by lia. lia.
  - rewrite Pos2Z.inj_succ. replace (Z.succ (Z.pos (digits2_pos p)) - 1)
      with (Z.pos (digits2_pos p) - 1 + 1) by lia.
    rewrite Z.pow_succ_r by lia. rewrite Z.pow_add_r by lia. lia.
  - simpl. lia.
Qed.

Lemma Zdigits2_bounds m :
  1 <= m -> 2 ^ (Zdigits2 m - 1) <= m < 2 ^ Zdigits2 m.
Proof. destruct m as [|p|p]; try lia. intros _. apply digits2_pos_bounds. Qed.

Lemma Zdigits2_pos m : 1 <= m -> 1 <= Zdigits2 m.
Proof. destruct m as [|p|p]; simpl; lia. Qed.

(** A lower bound on a number gives one on its count of digits. *)
Lemma Zdigits2_lower m k : 0 <= k -> 2 ^ k <= m -> k + 1 <= Zdigits2 m.
Proof.
  intros Hk Hm. assert (1 <= m) by (pose proof (Z.pow_pos_nonneg 2 k); lia).
  destruct (Zdigits2_bounds m H) as [_ Hu]. pose proof (Zdigits2_pos m H).
  destruct (Z.le_gt_cases (k + 1) (Zdigits2 m)) as [|Hlt]; [assumption|].
  assert (2 ^ Zdigits2 m <= 2 ^ k) by (apply Z.pow_le_mono_r; lia). lia.
Qed.

Lemma shr_1_div2 mrs : 0 <= shr_m mrs -> shr_m (shr_1 mrs) = shr_m mrs / 2.
Proof.
  destruct mrs as [m r s]. simpl. destruct m as [|p|p]; [reflexivity | | lia].
  intros _. destruct p as [p|p|]; simpl shr_m.
  - rewrite Pos2Z.inj_xI. apply Z.div_unique with 1; lia.
  - rewrite Pos2Z.inj_xO. apply Z.div_unique with 0; lia.
  - reflexivity.
Qed.

Lemma iter_shr_1 n : forall mrs,
  0 <= shr_m mrs ->
  shr_m (SpecFloat.iter_pos shr_1 n mrs) = shr_m mrs / 2 ^ Z.pos n.
Proof.
  assert (Hstep : forall k mrs, 0 <= shr_m mrs ->
            (forall mrs, 0 <= shr_m mrs ->
                         shr_m (SpecFloat.iter_pos shr_1 k mrs) = shr_m mrs / 2 ^ Z.pos k) ->
            shr_m (SpecFloat.iter_pos shr_1 k (SpecFloat.iter_pos shr_1 k mrs))
            = shr_m mrs / 2 ^ Z.pos (k~0)).
  { intros k mrs Hm IH.
    pose proof (Z.pow_pos_nonneg 2 (Z.pos k) ltac:(lia) ltac:(lia)) as Hk.
    rewrite IH.
    - rewrite IH by assumption. rewrite Z.div_div by lia.
      rewrite <- Z.pow_add_r by lia. f_equal. f_equal. lia.
    - rewrite IH by assumption. apply Z.div_pos; lia. }
  induction n as [n IH|n IH|]; intros mrs Hm; simpl SpecFloat.iter_pos.
  - rewrite Hstep; [|now apply shr_1_nonneg | exact IH].
    rewrite shr_1_div2 by assumption.
    pose proof (Z.pow_pos_nonneg 2 (Z.pos n~0) ltac:(lia) ltac:(lia)) as Hk.
    rewrite Z.div_div by lia.
    reflexivity.
  - now apply Hstep.
  - rewrite shr_1_div2 by assumption. reflexivity.
Qed.

Lemma shr_nonzero mrs e n :
  1 <= shr_m mrs -> n < Zdigits2 (shr_m mrs) ->
  let '(mrs', e') := shr mrs e n in
  1 <= shr_m mrs'
  /\ Zdigits2 (shr_m mrs) + e <= Zdigits2 (shr_m mrs') + e'
  /\ (0 < n -> e' = e + n).
Proof.
  intros Hm Hn. unfold shr. destruct n as [|p|p]; try (repeat split; lia).
  rewrite iter_shr_1 by lia.
  destruct (Zdigits2_bounds (shr_m mrs) Hm) as [Hl _].
  set (d := Zdigits2 (shr_m mrs)) in *. set (m := shr_m mrs) in *.
  pose proof (Z.pow_pos_nonneg 2 (Z.pos p) ltac:(lia) ltac:(lia)) as Hp.
  assert (Hq : 2 ^ (d - 1 - Z.pos p) <= m / 2 ^ Z.pos p).
  { apply Z.div_le_lower_bound; [lia|].
    rewrite <- Z.pow_add_r by lia. replace (Z.pos p + (d - 1 - Z.pos p)) with (d - 1) by lia.
    exact Hl. }
  pose proof (Z.pow_pos_nonneg 2 (d - 1 - Z.pos p) ltac:(lia) ltac:(lia)).
  repeat split; try lia.
  pose proof (Zdigits2_lower (m / 2 ^ Z.pos p) (d - 1 - Z.pos p) ltac:(lia) Hq). lia.
Qed.

Lemma Zdigits2_mono a b : 1 <= a -> a <= b -> Zdigits2 a <= Zdigits2 b.
Proof.
  intros Ha Hab. destruct (Zdigits2_bounds a Ha) as [Hl _].
  pose proof (Zdigits2_pos a Ha).
  pose proof (Zdigits2_lower b (Zdigits2 a - 1) ltac:(lia) ltac:(lia)). lia.
Qed.

Lemma round_nearest_even_ge m l : m <= round_nearest_even m l.
Proof.
  unfold round_nearest_even. destruct l as [|[]]; try lia. destruct (Z.even m); lia.
Qed.

Lemma shr_fexp_magnitude m e l :
  1 <= m -> SpecFloat.emin prec emax < Zdigits2 m + e ->
  let '(mrs', e') := shr_fexp prec emax m e l in
  1 <= shr_m mrs' /\ Zdigits2 m + e <= Zdigits2 (shr_m mrs') + e'.
Proof.
  intros Hm He. unfold shr_fexp.
  assert (Hrec : shr_m (shr_record_of_loc m l) = m) by (destruct l as [|[]]; reflexivity).
  pose proof (shr_nonzero (shr_record_of_loc m l) e
                (fexp prec emax (Zdigits2 m + e) - e)) as H.
  rewrite Hrec in H.
  destruct (shr (shr_record_of_loc m l) e _) as [mrs' e'].
  destruct H as (H1 & H2 & _);
    [assumption | unfold fexp, SpecFloat.emin, prec, emax in *; lia | auto].
Qed.

(** Rounding a number of magnitude above the smallest float does not
    shrink its magnitude: the outcome is finite, or infinite. *)
Lemma binary_round_aux_magnitude s m e l :
  1 <= m -> SpecFloat.emin prec emax < Zdigits2 m + e ->
  (exists m2 e2, binary_round_aux prec emax s m e l = S754_finite s m2 e2
                 /\ Zdigits2 m + e <= Z.pos (digits2_pos m2) + e2)
  \/ binary_round_aux prec emax s m e l = S754_infinity s.
Proof.
  intros Hm He. unfold binary_round_aux.
  pose proof (shr_fexp_magnitude m e l Hm He) as H1.
  destruct (shr_fexp prec emax m e l) as [mrs' e']. destruct H1 as [H1 H1'].
  pose proof (round_nearest_even_ge (shr_m mrs') (loc_of_shr_record mrs')) as Hr.
  set (m1 := round_nearest_even (shr_m mrs') (loc_of_shr_record mrs')) in *.
  pose proof (Zdigits2_mono (shr_m mrs') m1 H1 Hr) as Hd.
  pose proof (shr_fexp_magnitude m1 e' loc_Exact ltac:(lia) ltac:(lia)) as H2.
  destruct (shr_fexp prec emax m1 e' loc_Exact) as [mrs'' e'']. destruct H2 as [H2 H2'].
  destruct (shr_m mrs'') as [|p|p] eqn:Hp; try lia.
  destruct (e'' <=? emax - prec); [left | right; reflexivity].
  exists p, e''. split; [reflexivity|]. simpl Zdigits2 in H2'. lia.
Qed.

Lemma digits2_pos_iter_xO m d :
  Z.pos (digits2_pos (Pos.iter xO m d)) = Z.pos (digits2_pos m) + Z.pos d.
Proof.
  induction d as [|d IH] using Pos.peano_ind.
  - simpl. lia.
  - rewrite Pos.iter_succ. simpl digits2_pos. lia.
Qed.

(** The float of a positive integer has magnitude 1 at least. *)
Lemma float_of_int_magnitude z f :
  1 <= z -> float_of_int z = Ok f ->
  exists m e, f = S754_finite false m e /\ 1 <= Z.pos (digits2_pos m) + e.
Proof.
  intros Hz. unfold float_of_int, round_Z, binary_normalize.
  destruct z as [|p|p]; try lia. unfold binary_round.
  assert (Hal : let '(mz, ez) := shl_align p 0 (fexp prec emax (Z.pos (digits2_pos p) + 0)) in
                Z.pos (digits2_pos p) <= Z.pos (digits2_pos mz) + ez).
  { unfold shl_align.
    destruct (fexp prec emax (Z.pos (digits2_pos p) + 0) - 0) as [|d|d] eqn:Hd; try lia.
    rewrite digits2_pos_iter_xO. lia. }
  destruct (shl_align p 0 _) as [mz ez].
  destruct (binary_round_aux_magnitude false (Z.pos mz) ez loc_Exact)
    as [(m2 & e2 & -> & Hmag) | ->]; try discriminate.
  - lia.
  - simpl Zdigits2. unfold SpecFloat.emin, prec, emax. lia.
  - intros [= <-]. exists m2, e2. split; [reflexivity|]. simpl Zdigits2 in Hmag. lia.
Qed.

(** The thousandth of a float of magnitude 1 at least is not zero. *)
Lemma fdiv_1000_nonzero mx ex :
  1 <= Z.pos (digits2_pos mx) + ex ->
  float_is_zero (fdiv (S754_finite false mx ex) f1000) = false.
Proof.
  intros Hmag. unfold fdiv, f1000, SFdiv, SFdiv_core_binary.
  set (my := 8796093022208000%positive).
  change (Zdigits2 (Z.pos my)) with 53. simpl Zdigits2.
  set (d1 := Z.pos (digits2_pos mx)) in *.
  set (e' := Z.min (fexp prec emax (d1 + ex - (53 + -43))) (ex - -43)).
  assert (He' : e' <= ex + 43 /\ e' <= d1 + ex - 63).
  { subst e'. unfold fexp, SpecFloat.emin, prec, emax. lia. }
  set (s := ex - -43 - e').
  set (m' := match s with
             | 0 => Z.pos mx
             | Z.pos _ => Z.shiftl (Z.pos mx) s
             | Z.neg _ => 0
             end).
  assert (Hm' : m' = Z.pos mx * 2 ^ s).
  { subst m'. destruct s as [|p|p] eqn:Hs; [lia | | lia].
    rewrite Z.shiftl_mul_pow2 by lia. reflexivity. }
  assert (Hs : 0 <= s /\ 106 <= d1 + s) by (subst s; lia).
  destruct (digits2_pos_bounds mx) as [Hl _]. fold d1 in Hl.
  assert (Hbig : 2 ^ (d1 + s - 1) <= m').
  { rewrite Hm'. replace (d1 + s - 1) with (d1 - 1 + s) by lia.
    rewrite Z.pow_add_r by lia. apply Z.mul_le_mono_nonneg_r; [|exact Hl].
    apply Z.pow_nonneg. lia. }
  destruct (Z.div_eucl m' (Z.pos my)) as [q r] eqn:Hdiv.
  assert (Hq : q = m' / Z.pos my) by (unfold Z.div; now rewrite Hdiv).
  assert (Hqb : 2 ^ (d1 + s - 54) <= q).
  { rewrite Hq. apply Z.div_le_lower_bound; [lia|].
    apply Z.le_trans with (2 ^ 53 * 2 ^ (d1 + s - 54)).
    - apply Z.mul_le_mono_nonneg_r; [apply Z.pow_nonneg; lia | subst my; lia].
    - rewrite <- Z.pow_add_r by lia. replace (53 + (d1 + s - 54)) with (d1 + s - 1) by lia.
      exact Hbig. }
  pose proof (Z.pow_pos_nonneg 2 (d1 + s - 54) ltac:(lia) ltac:(lia)) as Hpos.
  pose proof (Zdigits2_lower q (d1 + s - 54) ltac:(lia) Hqb) as Hdq.
  destruct (binary_round_aux_magnitude (xorb false false) q e' (new_location (Z.pos my) r))
    as [(m2 & e2 & -> & _) | ->]; try reflexivity.
  - lia.
  - unfold SpecFloat.emin, prec, emax in *. subst s. lia.
Qed.

(** ** The order of precedence *)

Lemma float_eq_Z_zero f : float_eq_Z f 0 = float_zero f.
Proof.
  unfold float_eq_Z, float_cmp_Z. destruct f as [s|s| |s m e]; try reflexivity.
  - now destruct s.
  - destruct (0 <=? e) eqn:He.
    + pose proof (Z.pow_pos_nonneg 2 e ltac:(lia) ltac:(lia)) as Hp.
      pose proof (Pos2Z.is_pos m) as Hm. pose proof (Pos2Z.neg_is_neg m) as Hn.
      destruct s; simpl float_zero.
      * destruct (Z.compare_spec (Z.neg m * 2 ^ e) 0); try reflexivity. nia.
      * destruct (Z.compare_spec (Z.pos m * 2 ^ e) 0); try reflexivity. nia.
    + now destruct s.
Qed.

Lemma float_gt_Z_positive f : float_gt_Z f 0 = float_positive f.
Proof.
  unfold float_gt_Z, float_cmp_Z. destruct f as [s|s| |s m e]; try reflexivity.
  - now destruct s.
  - destruct (0 <=? e) eqn:He.
    + pose proof (Z.pow_pos_nonneg 2 e ltac:(lia) ltac:(lia)) as Hp.
      pose proof (Pos2Z.is_pos m) as Hm. pose proof (Pos2Z.neg_is_neg m) as Hn.
      destruct s; simpl float_positive.
      * destruct (Z.compare_spec (Z.neg m * 2 ^ e) 0); try reflexivity. nia.
      * destruct (Z.compare_spec (Z.pos m * 2 ^ e) 0); try reflexivity; nia.
    + now destruct s.
Qed.

Lemma number_is_zero_form n : number_is_zero n = is_zero n.
Proof. destruct n; [reflexivity | apply float_eq_Z_zero]. Qed.

Lemma number_positive_form n : number_positive n = is_positive n.
Proof. destruct n; [reflexivity | apply float_gt_Z_positive]. Qed.

Lemma float_of_int_round z : fits_float z -> float_of_int z = Ok (round_Z z).
Proof.
  intros [f Hf]. unfold float_of_int in *. destruct (round_Z z); try discriminate; reflexivity.
Qed.

Lemma number_float_ok v n :
  as_number v = Some n -> number_ok v -> number_float n = Ok (to_float n).
Proof.
  destruct v; simpl; try discriminate; intros [= <-] H; simpl.
  - now apply float_of_int_round.
  - reflexivity.
Qed.

Lemma duration_number_ok v : duration_ok v -> number_ok v.
Proof. destruct v; simpl; auto. Qed.

(** The thousandth of a positive duration is not zero. *)
Lemma duration_seconds_nonzero v n :
  as_number v = Some n -> duration_ok v -> is_positive n = true ->
  float_is_zero (fdiv (to_float n) f1000) = false.
Proof.
  destruct v; simpl; try discriminate; intros [= <-] Hok Hpos; simpl in *.
  - pose proof (float_of_int_round z Hok) as Hf.
    destruct (float_of_int_magnitude z (round_Z z) ltac:(lia) Hf) as (m & e & -> & Hmag).
    now apply fdiv_1000_nonzero.
  - apply Hok. now rewrite float_gt_Z_positive.
Qed.

Lemma tokens_per_second_rate vt vm tokens millis :
  as_number vt = Some tokens -> as_number vm = Some millis ->
  number_ok vt -> duration_ok vm ->
  tokens_per_second tokens millis = Ok (rate tokens millis).
Proof.
  intros Ht Hm Hokt Hokm. unfold tokens_per_second, rate, quotient.
  rewrite number_positive_form. destruct (is_positive millis) eqn:Hpos; [|reflexivity].
  rewrite (number_float_ok vm millis Hm (duration_number_ok vm Hokm)).
  cbn [mbind result_bind]. change (float_is_zero f1000) with false. cbv iota.
  cbn [mbind result_bind].
  rewrite (number_float_ok vt tokens Ht Hokt). cbn [mbind result_bind].
  now rewrite (duration_seconds_nonzero vm millis Hm Hokm Hpos).
Qed.

Lemma number_ok_number v : number_ok v -> exists n, as_number v = Some n.
Proof. destruct v; simpl; try contradiction; eauto. Qed.

(** Records the parser accepts on which [deriveSpeeds] returns no pair:
    a [null] throughput, a throughput that is a text, and a duration of
    5e-324 milliseconds, whose thousandth rounds to zero. *)
Lemma deriveSpeeds_raises_on_records :
  (_parse_line Ref.lib (Ref.json_text "{'n_prompt': 128, 'n_gen': 64, 'avg_ts': null}")
   = Ok (Some null_record)
   /\ deriveSpeeds Ref.lib null_record
      = Raise (Exn TypeError
                 "'>' not supported between instances of 'NoneType' and 'int'"))
  /\ (_parse_line Ref.lib (Ref.json_text "{'n_prompt': 128, 'n_gen': 0, 'avg_ts': 'fast'}")
      = Ok (Some text_record)
      /\ deriveSpeeds Ref.lib text_record
         = Raise (Exn ValueError "could not convert string to float: 'fast'"))
  /\ (_parse_line Ref.lib
        (Ref.json_text
           "{'n_prompt': 128, 'n_gen': 64, 'avg_ts': 0, 't_pp_ms': 5e-324, 't_tg_ms': 2000}")
      = Ok (Some tiny_duration_record)
      /\ deriveSpeeds Ref.lib tiny_duration_record
         = Raise (Exn ZeroDivisionError "float division by zero")).
Proof. repeat split; vm_compute; reflexivity. Qed.

(** C1, amended. On a record whose token counts and [avg_ts] are absent
    or numbers, and whose durations are absent or numbers that, when
    they are positive floats, do not round to zero once divided by
    1000.0 (integers being within the range of [float]), [deriveSpeeds]
    returns the pair of the order of precedence: [(avg_ts, 0.0)] when
    [n_gen] is zero; else [(0.0, avg_ts)] when [avg_ts] is positive;
    else the speeds from the raw timings, [n_prompt / (t_pp_ms / 1000)]
    when [t_pp_ms > 0] else [0.0], and [n_gen / (t_tg_ms / 1000)] when
    [t_tg_ms > 0] else [0.0]; an absent field is read as 0.  The four
    records of the examples give (55.2, 0.0), (0.0, 30.0),
    (128.0, 32.0) and (0.0, 0.0), and a record without [avg_ts] and
    without [n_gen] gives (0.0, 0.0). *)
Theorem deriveSpeeds_precedence :
  (forall L record,
      measured_record record ->
      exists t, read_timings record = Some t
                /\ deriveSpeeds L record = Ok (precedence t))
  /\ (forall L, deriveSpeeds L prompt_only_record = Ok (f55_2, fzero))
  /\ (forall L, deriveSpeeds L generation_record = Ok (fzero, f30))
  /\ (forall L, deriveSpeeds L raw_timings_record = Ok (f128, f32))
  /\ (forall L, deriveSpeeds L zero_timings_record = Ok (fzero, fzero))
  /\ (forall L, deriveSpeeds L bare_record = Ok (fzero, fzero)).
Proof.
  split; [|repeat split; intros L; vm_compute; reflexivity].
  intros L record (Hp & Hg & Ha & Htp & Htg).
  destruct (number_ok_number _ Hp) as (p & Ep).
  destruct (number_ok_number _ Hg) as (g & Eg).
  destruct (number_ok_number _ Ha) as (a & Ea).
  destruct (number_ok_number _ (duration_number_ok _ Htp)) as (tp & Etp).
  destruct (number_ok_number _ (duration_number_ok _ Htg)) as (tg & Etg).
  exists {| t_n_prompt := p; t_n_gen := g; t_avg_ts := a; t_pp_ms := tp; t_tg_ms := tg |}.
  assert (Hr : read_timings record
               = Some {| t_n_prompt := p; t_n_gen := g; t_avg_ts := a;
                         t_pp_ms := tp; t_tg_ms := tg |}).
  { unfold read_timings. now rewrite Ep, Eg, Ea, Etp, Etg. }
  split; [exact Hr|]. rewrite (deriveSpeeds_refines L record _ Hr).
  unfold deriveSpeeds_spec, precedence. cbn [t_n_prompt t_n_gen t_avg_ts t_pp_ms t_tg_ms].
  rewrite number_is_zero_form, number_positive_form.
  rewrite (number_float_ok _ a Ea Ha).
  destruct (is_zero g); [reflexivity|].
  destruct (is_positive a); [reflexivity|].
  rewrite (tokens_per_second_rate _ _ p tp Ep Etp Hp Htp).
  rewrite (tokens_per_second_rate _ _ g tg Eg Etg Hg Htg). reflexivity.
Qed.

Lemma measured_raw_timings_record : measured_record raw_timings_record.
Proof.
  unfold measured_record, raw_timings_record, fits_float. cbn.
  repeat split; eexists; vm_compute; reflexivity.
Qed.

Lemma deriveSpeeds_precedence_witness :
  exists t, read_timings raw_timings_record = Some t
            /\ deriveSpeeds Ref.lib raw_timings_record = Ok (precedence t).
Proof.
  apply (proj1 deriveSpeeds_precedence Ref.lib raw_timings_record).
  exact measured_raw_timings_record.
Defined.

(** The speed of a phase is a float that is not negative. *)
Lemma phase_speed_nonneg t n :
  duration_ok t -> count_ok n ->
  exists f,
    (c ← py_gt_int t 0;
     if (c : bool) then d ← py_div_float t f1000; py_div_float n d else Ok fzero) = Ok f
    /\ float_nonneg f = true.
Proof.
  intros Ht Hn. destruct f1000_positive as (H1000 & Hnz & Hninf).
  destruct n as [ | | zn | | | | ]; try contradiction.
  destruct Hn as (Hzn & fn & Hfn).
  destruct (float_of_int_sign zn fn Hzn Hfn) as (Hsn & Hin & _).
  assert (Hdiv : forall d, has_sign false d -> float_is_zero d = false ->
                   exists f, py_div_float (VInt zn) d = Ok f /\ float_nonneg f = true).
  { intros d Hd Hd0. unfold py_div_float. cbn [float_operand]. rewrite Hfn.
    cbn [mbind result_bind]. rewrite Hd0. eexists. split; [reflexivity|].
    apply has_sign_nonneg, fdiv_nonneg; try assumption. intros ->. contradiction. }
  destruct t as [ | | zt | ft | | | ]; try contradiction.
  - destruct Ht as (ft & Hft). cbn [py_gt_int mbind result_bind].
    destruct (Z.ltb_spec 0 zt) as [Hpos|Hle]; [|exists fzero; auto].
    destruct (float_of_int_sign zt ft ltac:(lia) Hft) as (Hst & Hit & Heq).
    destruct (float_of_int_magnitude zt ft ltac:(lia) Hft) as (mt & et & Hfin & Hmag).
    assert (Hd : py_div_float (VInt zt) f1000 = Ok (fdiv ft f1000)).
    { unfold py_div_float. cbn [float_operand]. rewrite Hft.
      cbn [mbind result_bind]. now rewrite Hnz. }
    rewrite Hd. cbn [mbind result_bind]. apply Hdiv.
    + apply fdiv_nonneg; try assumption. intros ->. contradiction.
    + rewrite Hfin. now apply fdiv_1000_nonzero.
  - cbn [py_gt_int mbind result_bind].
    destruct (float_gt_Z ft 0) eqn:Hgt; [|exists fzero; auto].
    destruct (float_gt_Z_sign ft Hgt) as (Hst & _).
    assert (Hd : py_div_float (VFloat ft) f1000 = Ok (fdiv ft f1000)).
    { unfold py_div_float. cbn [float_operand mbind result_bind]. now rewrite Hnz. }
    rewrite Hd. cbn [mbind result_bind]. apply Hdiv.
    + apply fdiv_nonneg; try assumption. intros _. exact Hninf.
    + now apply Ht.
Qed.

Lemma py_float_throughput L v :
  throughput_ok v -> exists f, py_float L v = Ok f /\ float_nonneg f = true.
Proof.
  destruct v as [ | | z | f | | | ]; try contradiction.
  - intros (Hz & f & Hf). exists f. split; [exact Hf|].
    now apply has_sign_nonneg, (float_of_int_sign z f Hz Hf).
  - intros Hf. exists f. auto.
Qed.

Lemma py_gt_int_throughput v :
  throughput_ok v -> exists b, py_gt_int v 0 = Ok b.
Proof. destruct v; try contradiction; simpl; eauto. Qed.

Lemma dict_get_absent d k default : dict_has d k = false -> dict_get d k default = default.
Proof.
  induction d as [|[k' v'] d IH]; simpl; [reflexivity|].
  destruct (String.eqb k' k); [discriminate | exact IH].
Qed.

(** Records the parser accepts on which [deriveSpeeds] returns a
    negative speed or raises; and a record without durations whose
    speeds are not both zero. *)
Lemma deriveSpeeds_negative_or_raises :
  (_parse_line Ref.lib (Ref.json_text "{'n_prompt': 128, 'n_gen': 0, 'avg_ts': -1.5}")
   = Ok (Some negative_record)
   /\ deriveSpeeds Ref.lib negative_record = Ok (f_neg1_5, fzero)
   /\ float_nonneg f_neg1_5 = false)
  /\ (_parse_line Ref.lib (Ref.json_text "{'n_prompt': 128, 'n_gen': 64, 'avg_ts': null}")
      = Ok (Some null_record)
      /\ deriveSpeeds Ref.lib null_record
         = Raise (Exn TypeError
                    "'>' not supported between instances of 'NoneType' and 'int'"))
  /\ (_parse_line Ref.lib
        (Ref.json_text
           "{'n_prompt': 128, 'n_gen': 64, 'avg_ts': 0, 't_pp_ms': 5e-324, 't_tg_ms': 2000}")
      = Ok (Some tiny_duration_record)
      /\ deriveSpeeds Ref.lib tiny_duration_record
         = Raise (Exn ZeroDivisionError "float division by zero"))
  /\ (dict_has huge_record "n_prompt" = true
      /\ deriveSpeeds Ref.lib huge_record
         = Raise (Exn OverflowError "int too large to convert to float"))
  /\ (dict_has prompt_only_record "t_pp_ms" = false
      /\ dict_has prompt_only_record "t_tg_ms" = false
      /\ deriveSpeeds Ref.lib prompt_only_record = Ok (f55_2, fzero)).
Proof. repeat split; vm_compute; reflexivity. Qed.

(** C8, amended. On a record whose token counts are absent or integers
    that are not negative, whose [avg_ts] is absent or a number that is
    not negative, and whose durations are absent, integers, or floats
    whose thousandth, when they are positive, does not round to zero
    (integers being within the range of [float]), [deriveSpeeds] raises
    nothing and returns two floats that are not negative. A record with
    neither duration and with [avg_ts] absent or 0 gives (0.0, 0.0),
    whatever its other fields. *)
Theorem deriveSpeeds_nonneg :
  (forall L record,
      plausible_record record ->
      exists enc gen,
        deriveSpeeds L record = Ok (enc, gen)
        /\ float_nonneg enc = true /\ float_nonneg gen = true)
  /\ (forall L record,
         dict_has record "t_pp_ms" = false -> dict_has record "t_tg_ms" = false ->
         dict_get record "avg_ts" (VInt 0) = VInt 0 ->
         deriveSpeeds L record = Ok (fzero, fzero)).
Proof.
  split.
  - intros L record (Hp & Hg & Ha & Htp & Htg).
    unfold deriveSpeeds, _calculate_speeds.
    destruct (py_float_throughput L _ Ha) as (fa & Hfa & Hfan).
    destruct (py_eq_int (dict_get record "n_gen" (VInt 0)) 0).
    + rewrite Hfa. exists fa, fzero. auto.
    + destruct (py_gt_int_throughput _ Ha) as (b & Hb). rewrite Hb.
      cbn [mbind result_bind]. destruct b.
      * rewrite Hfa. exists fzero, fa. auto.
      * destruct (phase_speed_nonneg _ _ Htp Hp) as (enc & He & Hen).
        destruct (phase_speed_nonneg _ _ Htg Hg) as (gen & Hge & Hgn).
        rewrite He. cbn [mbind result_bind]. rewrite Hge.
        exists enc, gen. auto.
  - intros L record Htp Htg Ha. unfold deriveSpeeds, _calculate_speeds.
    rewrite Ha, (dict_get_absent _ _ _ Htp), (dict_get_absent _ _ _ Htg).
    destruct (py_eq_int _ 0); reflexivity.
Qed.

Lemma plausible_raw_timings_record : plausible_record raw_timings_record.
Proof.
  unfold plausible_record, raw_timings_record, fits_float. cbn.
  repeat split; try lia; eexists; vm_compute; reflexivity.
Qed.

Lemma deriveSpeeds_nonneg_witness :
  (exists enc gen,
      deriveSpeeds Ref.lib raw_timings_record = Ok (enc, gen)
      /\ float_nonneg enc = true /\ float_nonneg gen = true)
  /\ deriveSpeeds Ref.lib bare_record = Ok (fzero, fzero).
Proof.
  split.
  - apply (proj1 deriveSpeeds_nonneg Ref.lib raw_timings_record).
    exact plausible_raw_timings_record.
  - apply (proj2 deriveSpeeds_nonneg Ref.lib bare_record); reflexivity.
Defined.

(* ================================================================== *)
(** * Further properties                                               *)
(* ================================================================== *)

(** ** Counting the values of a field *)

Lemma append_empty a b : a +:+ b = EmptyString -> a = EmptyString /\ b = EmptyString.
Proof. destruct a; simpl; [auto | discriminate]. Qed.

Lemma count_char_join ts :
  Forall (fun t => count_char "," t = O) ts ->
  count_char "," (join "," ts) = (length ts - 1)%nat.
Proof.
  induction 1 as [|t ts Ht Hts IH]; [reflexivity|].
  destruct ts as [|t' ts']; [simpl; now rewrite Ht|].
  change (join "," (t :: t' :: ts')) with (t +:+ "," +:+ join "," (t' :: ts')).
  rewrite !count_char_app, Ht, IH. simpl. lia.
Qed.

(** X1. A field written as [n] values joined by commas, no value
    holding a comma itself, counts [n] options; but a field that is the
    empty string, the join of no value or of the one empty value,
    counts 0. *)
Theorem _count_opts_join (tokens : list string) :
  Forall (fun t => count_char "," t = O) tokens ->
  _count_opts (join "," tokens)
  = match tokens with
    | [] | [EmptyString] => 0
    | _ => Z.of_nat (length tokens)
    end.
Proof.
  intros H. rewrite _count_opts_cardinality. unfold cardinality.
  pose proof (count_char_join tokens H) as Hc.
  destruct tokens as [|t [|t' ts]].
  - reflexivity.
  - simpl join in *. destruct t; [reflexivity|]. rewrite Hc. reflexivity.
  - destruct (join "," (t :: t' :: ts)) eqn:Hj.
    + change (join "," (t :: t' :: ts)) with (t +:+ "," +:+ join "," (t' :: ts)) in Hj.
      apply append_empty in Hj. destruct Hj as [_ Hj]. discriminate.
    + rewrite Hc. cbn [length]. destruct t; lia.
Qed.

Lemma _count_opts_join_witness :
  _count_opts (join "," ["0"; "512"; "1024"]) = 3.
Proof.
  apply (_count_opts_join ["0"; "512"; "1024"]).
  repeat constructor.
Defined.

(** ** The table *)

Lemma last_n_snoc {A} (n : nat) (l : list A) (x : A) :
  (0 < n)%nat -> last_n n (l ++ [x]) = (last_n (n - 1) l ++ [x])%list.
Proof.
  intros Hn. unfold last_n. rewrite length_app. simpl.
  rewrite drop_app_le by lia. f_equal. f_equal. lia.
Qed.

Lemma last_n_map {A B} (f : A -> B) (n : nat) (l : list A) :
  last_n n (map f l) = map f (last_n n l).
Proof. unfold last_n. rewrite length_map. apply skipn_map. Qed.

Lemma last_n_last_n {A} (n m : nat) (l : list A) :
  (n <= m)%nat -> last_n n (last_n m l) = last_n n l.
Proof.
  intros Hnm. unfold last_n. rewrite drop_drop, length_drop. f_equal. lia.
Qed.

(** X2. After [update_result] has recorded a record, the last row of
    the table is the row of that record: its label, its batch size (["?"]
    when the record has none), its token counts and depth (0 when the
    record has none), and for its speed the prompt-processing speed of
    [_calculate_speeds] when that one is positive, else the generation
    speed when that one is, else a dash; above it stay the last nine
    rows of the table as it was. *)
Theorem newest_record_is_last_row (L : pylib) (vis vis' : BenchmarkVisualizer)
    (record : pydict) (kv_str : string) :
  update_result L vis record kv_str = Ok vis' ->
  exists shown enc gen,
    generate_display vis' = (last_n 9 (generate_display vis) ++ [shown])%list
    /\ r_kv shown = kv_str
    /\ r_batch shown = dict_get record "n_batch" (VStr "?")
    /\ r_io shown = (dict_get record "n_prompt" (VInt 0), dict_get record "n_gen" (VInt 0))
    /\ r_depth shown = dict_get record "n_depth" (VInt 0)
    /\ deriveSpeeds L record = Ok (enc, gen)
    /\ r_speed shown = (if float_gt_Z enc 0 then SpeedPP enc
                        else if float_gt_Z gen 0 then SpeedTG gen
                        else SpeedDash).
Proof.
  rewrite update_result_appends.
  destruct (deriveSpeeds L record) as [[enc gen]|e]; [|discriminate].
  intros [= <-]. unfold generate_display. cbn [results_history].
  rewrite last_n_snoc by lia. rewrite map_app. simpl map.
  rewrite last_n_map, last_n_last_n by lia.
  eexists _, enc, gen. split; [reflexivity|]. repeat split.
Qed.

Lemma newest_record_is_last_row_witness :
  exists shown enc gen,
    generate_display
      {| total_runs_per_config := 294;
         results_history := [entry_of "q8_0/q8_0" sample_record (f55_2, fzero)];
         completed := 1 |}
    = (last_n 9 (generate_display (new_visualizer 294)) ++ [shown])%list
    /\ r_kv shown = "q8_0/q8_0"
    /\ r_batch shown = dict_get sample_record "n_batch" (VStr "?")
    /\ r_io shown = (dict_get sample_record "n_prompt" (VInt 0),
                     dict_get sample_record "n_gen" (VInt 0))
    /\ r_depth shown = dict_get sample_record "n_depth" (VInt 0)
    /\ deriveSpeeds Ref.lib sample_record = Ok (enc, gen)
    /\ r_speed shown = (if float_gt_Z enc 0 then SpeedPP enc
                        else if float_gt_Z gen 0 then SpeedTG gen
                        else SpeedDash).
Proof.
  apply (newest_record_is_last_row Ref.lib (new_visualizer 294)). reflexivity.
Defined.

(** ** Names of the output files *)

Lemma append_inv_head a b c : a +:+ b = a +:+ c -> b = c.
Proof.
  induction a as [|x a IH]; [auto|].
  change (String x (a +:+ b) = String x (a +:+ c) -> b = c). intros [= H]. auto.
Qed.

(** Two texts that are cut at their first dash agree on both sides. *)
Lemma first_dash_unique a a' b b' :
  count_char "-" a = O -> count_char "-" a' = O ->
  a +:+ "-" +:+ b = a' +:+ "-" +:+ b' -> a = a' /\ b = b'.
Proof.
  revert a'. induction a as [|x a IH]; intros [|x' a'] Ha Ha'.
  - change (String "-" b = String "-" b' -> EmptyString = EmptyString /\ b = b').
    intros [= H]. auto.
  - change (String "-" b = String x' (a' +:+ "-" +:+ b') -> EmptyString = String x' a' /\ b = b').
    intros [= <- _]. discriminate.
  - change (String x (a +:+ "-" +:+ b) = String "-" b' -> String x a = EmptyString /\ b = b').
    intros [= -> _]. discriminate.
  - change (String x (a +:+ "-" +:+ b) = String x' (a' +:+ "-" +:+ b')
            -> String x a = String x' a' /\ b = b').
    intros [= <- H]. simpl in Ha, Ha'.
    destruct (Ascii.eqb x "-"); [discriminate|].
    destruct (IH a' Ha Ha' H) as [-> ->]. auto.
Qed.

Lemma split_app sep p q :
  split sep (p +:+ String sep q) = (split sep p ++ split sep q)%list.
Proof.
  induction p as [|c p IH].
  - change (split sep (String sep q) = ([EmptyString] ++ split sep q)%list).
    simpl. now rewrite Ascii.eqb_refl.
  - change (split sep (String c (p +:+ String sep q))
            = (split sep (String c p) ++ split sep q)%list).
    simpl. destruct (Ascii.eqb c sep); rewrite IH; [reflexivity|].
    pose proof (split_length sep p) as Hl.
    destruct (split sep p) as [|piece rest]; [discriminate | reflexivity].
Qed.

(** A doubled slash in a path is as good as one. *)
Lemma path_parts_slashes p q :
  path_parts (p +:+ "//" +:+ q) = path_parts (p +:+ "/" +:+ q).
Proof.
  unfold path_parts.
  change (p +:+ "//" +:+ q) with (p +:+ String "/" (String "/" q)).
  change (p +:+ "/" +:+ q) with (p +:+ String "/" q).
  rewrite !split_app, !List.filter_app. reflexivity.
Qed.

Lemma join_snoc_inj sep parts a b :
  join sep (parts ++ [a]) = join sep (parts ++ [b]) -> a = b.
Proof.
  destruct parts as [|p parts]; [auto|].
  rewrite !join_snoc by discriminate. intros H.
  apply append_inv_head in H. now apply append_inv_head in H.
Qed.

(** X3. Two different cache-type pairs whose type names hold neither a
    dash nor a slash never share an output file, on whatever days they
    run.  Type names with a dash or a slash can: the pairs [(a-b, c)]
    and [(a, b-c)] write to the same file, and so do two pairs whose
    first names differ by a doubled slash. *)
Theorem get_output_filename_distinct (self : LlamaBenchRunner) :
  (forall k v k' v' now now',
      count_char "-" k = O -> count_char "-" v = O ->
      count_char "-" k' = O -> count_char "-" v' = O ->
      count_char "/" k = O -> count_char "/" v = O ->
      count_char "/" k' = O -> count_char "/" v' = O ->
      (k, v) <> (k', v') ->
      get_output_filename self k v now <> get_output_filename self k' v' now')
  /\ (forall a b c now,
         get_output_filename self (a +:+ "-" +:+ b) c now
         = get_output_filename self a (b +:+ "-" +:+ c) now)
  /\ (forall a b v now,
         get_output_filename self (a +:+ "//" +:+ b) v now
         = get_output_filename self (a +:+ "/" +:+ b) v now).
Proof.
  refine (conj _ (conj _ _)).
  - intros k v k' v' now now' Hk Hv Hk' Hv' Sk Sv Sk' Sv' Hne H. apply Hne.
    rewrite (get_output_filename_joined self k v now Sk Sv) in H.
    rewrite (get_output_filename_joined self k' v' now' Sk' Sv') in H.
    rewrite !path_text_parts in H
      by (intros H0; apply app_eq_nil in H0; destruct H0; discriminate).
    apply append_inv_head, join_snoc_inj in H.
    apply (append_inv_head "raw-data-") in H.
    destruct (first_dash_unique _ _ _ _ Hk Hk' H) as [-> H'].
    destruct (first_dash_unique _ _ _ _ Hv Hv' H') as [-> _]. reflexivity.
  - intros a b c now. unfold get_output_filename. f_equal.
    now rewrite !append_assoc.
  - intros a b v now. unfold get_output_filename, path_join.
    change (path_root ("raw-data-" +:+ (a +:+ "//" +:+ b) +:+ "-" +:+ v +:+ "-"
                         +:+ strftime_Ymd now +:+ ".json")) with EmptyString.
    change (path_root ("raw-data-" +:+ (a +:+ "/" +:+ b) +:+ "-" +:+ v +:+ "-"
                         +:+ strftime_Ymd now +:+ ".json")) with EmptyString.
    cbv iota. do 2 f_equal.
    rewrite <- (append_assoc "raw-data-" (a +:+ "//" +:+ b)).
    rewrite <- (append_assoc "raw-data-" (a +:+ "/" +:+ b)).
    rewrite <- (append_assoc "raw-data-" a), <- (append_assoc "raw-data-" a ("/" +:+ b)).
    rewrite (append_assoc ("raw-data-" +:+ a) ("//" +:+ b)).
    rewrite (append_assoc ("raw-data-" +:+ a) ("/" +:+ b)).
    apply (path_parts_slashes ("raw-data-" +:+ a)).
Qed.

Lemma get_output_filename_distinct_witness :
  get_output_filename sample_runner "f16" "f16" sample_date
  <> get_output_filename sample_runner "q8_0" "q8_0" sample_date
  /\ get_output_filename sample_runner "a-b" "c" sample_date
     = get_output_filename sample_runner "a" "b-c" sample_date
  /\ get_output_filename sample_runner "a//b" "c" sample_date
     = get_output_filename sample_runner "a/b" "c" sample_date.
Proof.
  refine (conj _ (conj _ _)).
  - apply (proj1 (get_output_filename_distinct sample_runner)
             "f16" "f16" "q8_0" "q8_0" sample_date sample_date);
      try reflexivity. discriminate.
  - apply (proj1 (proj2 (get_output_filename_distinct sample_runner))
             "a" "b" "c" sample_date).
  - apply (proj2 (proj2 (get_output_filename_distinct sample_runner))
             "a" "b" "c" sample_date).
Defined.

(** ** The progress bar and the history *)

Lemma update_result_in_step L vis r kv_str vis' :
  update_result L vis r kv_str = Ok vis' -> in_step vis ->
  in_step vis'
  /\ completed vis' = completed vis + 1
  /\ total_runs_per_config vis' = total_runs_per_config vis.
Proof.
  rewrite update_result_appends.
  destruct (deriveSpeeds L r) as [speeds|e]; [|discriminate].
  intros [= <-] Hs. unfold in_step in *. cbn.
  rewrite length_app. simpl. repeat split; lia.
Qed.

(** What the reading loop does to the visualizer: one step of the bar
    and one entry for each record collected, but for a last record on
    which [update_result] raised. *)
Lemma read_loop_in_step L kv_str rs :
  forall c vis w,
    in_step vis ->
    let '(c', vis', _, r) := read_loop L kv_str rs c vis w in
    in_step vis'
    /\ total_runs_per_config vis' = total_runs_per_config vis
    /\ completed vis' <= completed vis + Z.of_nat (length c') - Z.of_nat (length c)
    /\ (r = Ok tt ->
        completed vis' = completed vis + Z.of_nat (length c') - Z.of_nat (length c)).
Proof.
  induction rs as [|[line|e] rs IH]; intros c vis w Hs; simpl;
    try (repeat split; [assumption | lia | lia]).
  destruct (String.eqb line EmptyString); [repeat split; [assumption | lia | lia]|].
  destruct (_parse_line L line) as [result|e]; [|repeat split; [assumption | lia | discriminate]].
  destruct (not_result result); [now apply IH|].
  destruct result as [d|]; [|now apply IH].
  destruct (update_result L vis d kv_str) as [vis1|e] eqn:Hu.
  - destruct (update_result_in_step L vis d kv_str vis1 Hu Hs) as (Hs1 & Hc1 & Ht1).
    specialize (IH (c ++ [d])%list vis1
                  (emit (EvLive (generate_display vis1) (completed vis1)) w) Hs1).
    destruct (read_loop _ _ _ _ _ _) as [[[c' v'] w'] r'].
    rewrite length_app in IH. simpl in IH.
    destruct IH as (H1 & H2 & H3 & H4). repeat split; try assumption; try lia.
    intros Hr. specialize (H4 Hr). lia.
  - rewrite length_app. simpl. repeat split; [assumption | lia | discriminate].
Qed.

Lemma _run_single_config_in_step L self k v vis w pe :
  in_step vis ->
  in_step (run_vis (_run_single_config L self k v vis w pe))
  /\ total_runs_per_config (run_vis (_run_single_config L self k v vis w pe))
     = total_runs_per_config vis.
Proof.
  intros Hs. rewrite _run_single_config_vis.
  destruct (popen_raises (proc pe)) as [e|] eqn:Hp.
  - rewrite (run_body_unlaunched L self k v vis w pe e Hp). auto.
  - pose proof (run_body_of_loop L self k v vis w pe Hp) as Hb.
    pose proof (read_loop_in_step L (k +:+ "/" +:+ v) (reads (proc pe)) [] vis
                  (emit (EvPopen (build_command self k v)) w) Hs) as H.
    unfold pair_loop in Hb.
    destruct (read_loop _ _ _ _ _ _) as [[[c' v'] w'] r'].
    destruct Hb as (_ & -> & _). destruct H as (H1 & H2 & _). auto.
Qed.

Lemma run_pairs_in_step L envs :
  forall pairs i self vis w,
    in_step vis ->
    in_step (run_vis (run_pairs L self pairs i envs vis w))
    /\ total_runs_per_config (run_vis (run_pairs L self pairs i envs vis w))
       = total_runs_per_config vis.
Proof.
  induction pairs as [|[k v] pairs IH]; intros i self vis w Hs; simpl; [auto|].
  pose proof (_run_single_config_in_step L self k v vis w (envs i) Hs) as H.
  destruct (_run_single_config L self k v vis w (envs i)) as [[[self1 vis1] w1] r1].
  simpl in H. destruct H as [H1 H2]. destruct r1 as [[]|e]; [|auto].
  destruct (IH (S i) self1 vis1 w1 H1) as [H3 H4]. split; [exact H3 | congruence].
Qed.

(** X4. However a sweep ends, the visualizer [run_all] leaves has its
    progress bar in step with its history, one step for each entry, and
    the total it was created with, the estimate for one pair times the
    number of pairs. *)
Theorem run_all_bar_in_step (L : pylib) (self : LlamaBenchRunner) (env : environment)
    (w : world) :
  let '(_, vis, _, _) := run_all L self env w in
  completed vis = Z.of_nat (length (results_history vis))
  /\ total_runs_per_config vis
     = count_combinations (config self)
       * Z.of_nat (length (kv_cache_types (config self))).
Proof.
  unfold run_all.
  match goal with |- context [run_pairs L ?s ?ps ?i ?en ?vi ?wo] =>
    pose proof (run_pairs_in_step L en ps i s vi wo eq_refl) as H;
    destruct (run_pairs L s ps i en vi wo) as [[[self1 vis1] w1] r1] end.
  simpl in H. destruct H as [H1 H2].
  destruct r1 as [[]|e].
  - destruct (print_summary L self1 (elapsed env) w1) as [w2 r2]. auto.
  - destruct (is_KeyboardInterrupt e); [|auto].
    destruct (_handle_interrupt L self1 w1) as [w2 c]. auto.
Qed.

(** ** What a pair run collects *)

Lemma read_loop_keyed L kv_str rs :
  forall c vis w,
    Forall (fun d => dict_has d "n_prompt" = true) c ->
    let '(c', _, _, _) := read_loop L kv_str rs c vis w in
    Forall (fun d => dict_has d "n_prompt" = true) c'.
Proof.
  induction rs as [|[line|e] rs IH]; intros c vis w Hc; simpl; auto.
  destruct (String.eqb line EmptyString); [assumption|].
  destruct (_parse_line L line) as [result|e] eqn:Hp; [|assumption].
  destruct (not_result result); [now apply IH|].
  destruct result as [d|]; [|now apply IH].
  assert (Hc' : Forall (fun d => dict_has d "n_prompt" = true) (c ++ [d])).
  { apply Forall_app. split; [assumption|]. constructor; [|constructor].
    now apply _parse_line_Some in Hp. }
  destruct (update_result L vis d kv_str) as [vis1|e]; [now apply IH | assumption].
Qed.

(** X5. Every record a pair run collects, and so every record it
    writes to the output file, is a mapping that has the key
    ["n_prompt"]. *)
Theorem collected_records_keyed (L : pylib) (self : LlamaBenchRunner) (k v : string)
    (vis : BenchmarkVisualizer) (w : world) (pe : pair_env) :
  Forall (fun d => dict_has d "n_prompt" = true) (run_collected L self k v vis w pe).
Proof.
  unfold run_collected.
  destruct (popen_raises (proc pe)) as [e|] eqn:Hp.
  - rewrite (run_body_unlaunched L self k v vis w pe e Hp). constructor.
  - pose proof (run_body_of_loop L self k v vis w pe Hp) as Hb.
    pose proof (read_loop_keyed L (k +:+ "/" +:+ v) (reads (proc pe)) [] vis
                  (emit (EvPopen (build_command self k v)) w) ltac:(constructor)) as H.
    unfold pair_loop in Hb.
    destruct (read_loop _ _ _ _ _ _) as [[[c' v'] w'] r'].
    destruct Hb as (-> & _). exact H.
Qed.

Lemma read_loop_counts L kv_str rs c vis w c' vis' w' :
  read_loop L kv_str rs c vis w = (c', vis', w', Ok tt) ->
  exists n,
    length c' = (length c + n)%nat
    /\ completed vis' = completed vis + Z.of_nat n
    /\ length (results_history vis') = (length (results_history vis) + n)%nat.
Proof.
  revert c vis w. induction rs as [|[line|e] rs IH]; intros c vis w; simpl.
  - intros [= <- <- _]. exists O. repeat split; lia.
  - destruct (String.eqb line EmptyString);
      [intros [= <- <- _]; exists O; repeat split; lia|].
    destruct (_parse_line L line) as [result|e]; [|discriminate].
    destruct (not_result result); [apply IH|].
    destruct result as [d|]; [|apply IH].
    destruct (update_result L vis d kv_str) as [vis1|e] eqn:Hu; [|discriminate].
    intros H. apply IH in H. destruct H as (n & H1 & H2 & H3).
    rewrite length_app in H1. simpl in H1.
    rewrite update_result_appends in Hu.
    destruct (deriveSpeeds L d) as [speeds|e]; [|discriminate].
    injection Hu as <-. cbn in H2, H3. rewrite length_app in H3. simpl in H3.
    exists (S n). repeat split; lia.
  - discriminate.
Qed.

(** X6. When the [try] block of a pair run ends without an exception,
    the run has collected the records of all the lines the child
    printed, in order, and the progress bar and the history have each
    advanced by their number. *)
Theorem complete_run_collects_all (L : pylib) (self : LlamaBenchRunner) (k v : string)
    (vis : BenchmarkVisualizer) (w : world) (pe : pair_env) :
  body_end (run_body L self (k +:+ "/" +:+ v) (build_command self k v) vis w (proc pe))
    = Ok tt ->
  let collected := run_collected L self k v vis w pe in
  let vis' := run_vis (_run_single_config L self k v vis w pe) in
  collected = parsed_records L (lines_read (reads (proc pe)))
  /\ completed vis' = completed vis + Z.of_nat (length collected)
  /\ length (results_history vis')
     = (length (results_history vis) + length collected)%nat.
Proof.
  intros Hb. cbn zeta. rewrite _run_single_config_vis. unfold run_collected.
  destruct (popen_raises (proc pe)) as [e|] eqn:Hp.
  { rewrite (run_body_unlaunched L self k v vis w pe e Hp) in Hb. discriminate. }
  pose proof (run_body_of_loop L self k v vis w pe Hp) as Hl.
  unfold pair_loop in Hl.
  destruct (read_loop L (k +:+ "/" +:+ v) (reads (proc pe)) [] vis
              (emit (EvPopen (build_command self k v)) w))
    as [[[c' v'] w'] r'] eqn:Hloop.
  destruct Hl as (-> & -> & Hok & _). specialize (Hok Hb). subst r'.
  pose proof (read_loop_collects_all _ _ _ _ _ _ _ _ _ Hloop) as Hall.
  pose proof (read_loop_counts _ _ _ _ _ _ _ _ _ Hloop) as (n & Hn & Hc & Hh).
  simpl in Hall, Hn. repeat split; try assumption; lia.
Qed.

Lemma complete_run_collects_all_witness :
  let collected := run_collected Ref.lib sample_runner "q8_0" "q8_0"
                     (new_visualizer 294) empty_world passing_pair in
  let vis' := run_vis (_run_single_config Ref.lib sample_runner "q8_0" "q8_0"
                         (new_visualizer 294) empty_world passing_pair) in
  collected = parsed_records Ref.lib (lines_read (reads (proc passing_pair)))
  /\ completed vis' = completed (new_visualizer 294) + Z.of_nat (length collected)
  /\ length (results_history vis')
     = (length (results_history (new_visualizer 294)) + length collected)%nat.
Proof.
  apply (complete_run_collects_all Ref.lib sample_runner "q8_0" "q8_0"
           (new_visualizer 294) empty_world passing_pair).
  reflexivity.
Defined.



(** ** White space around a line *)

Lemma append_cons c (s t : string) : String c s +:+ t = String c (s +:+ t).
Proof. reflexivity. Qed.

Lemma lstrip_all_space s : all_space s = true -> lstrip s = EmptyString.
Proof.
  induction s as [|c s IH]; simpl; [reflexivity|].
  intros [Hc Hs]%andb_prop. rewrite Hc. auto.
Qed.

Lemma rstrip_all_space s : all_space s = true -> rstrip s = EmptyString.
Proof.
  induction s as [|c s IH]; simpl; [reflexivity|].
  intros [Hc Hs]%andb_prop. rewrite (IH Hs), Hc. reflexivity.
Qed.

Lemma lstrip_app_space pre s : all_space pre = true -> lstrip (pre +:+ s) = lstrip s.
Proof.
  induction pre as [|c pre IH]; [reflexivity|]. simpl all_space.
  intros [Hc Hs]%andb_prop. rewrite append_cons. simpl. rewrite Hc. auto.
Qed.

Lemma rstrip_app_space s post : all_space post = true -> rstrip (s +:+ post) = rstrip s.
Proof.
  intros Hp. induction s as [|c s IH].
  - change (EmptyString +:+ post) with post. now rewrite rstrip_all_space.
  - rewrite append_cons. simpl. now rewrite IH.
Qed.

Lemma strip_app_space pre s post :
  all_space pre = true -> all_space post = true ->
  strip (pre +:+ s +:+ post) = strip s.
Proof.
  intros Hpre Hpost. unfold strip. rewrite (lstrip_app_space pre _ Hpre).
  induction s as [|c s IH].
  - change (EmptyString +:+ post) with post. now rewrite lstrip_all_space.
  - rewrite append_cons. simpl. destruct (isspace c); [exact IH|].
    rewrite <- append_cons. now apply rstrip_app_space.
Qed.

(** X8. White space before and after a line is of no account to
    [_parse_line]: blanks, tabs, the carriage return and the line feed
    that [readline] leaves at the end change neither the record nor
    the exception. *)
Theorem _parse_line_ignores_margin (L : pylib) (pre line post : string) :
  all_space pre = true -> all_space post = true ->
  _parse_line L (pre +:+ line +:+ post) = _parse_line L line.
Proof.
  intros Hpre Hpost. unfold _parse_line. now rewrite strip_app_space.
Qed.

Lemma _parse_line_ignores_margin_witness :
  _parse_line Ref.lib ("  " +:+ sample_line +:+ newline) = _parse_line Ref.lib sample_line.
Proof.
  apply (_parse_line_ignores_margin Ref.lib "  " sample_line newline); reflexivity.
Defined.

(** ** Which commands a sweep launches *)

Lemma run_pairs_settings L envs :
  forall pairs i self vis w,
    same_settings (run_runner (run_pairs L self pairs i envs vis w)) self.
Proof.
  induction pairs as [|[k v] pairs IH]; intros i self vis w; simpl.
  - repeat split.
  - pose proof (_run_single_config_settings L self k v vis w (envs i)) as Hs.
    destruct (_run_single_config L self k v vis w (envs i)) as [[[self1 vis1] w1] r1].
    simpl in Hs. destruct r1 as [[]|e]; [|exact Hs].
    specialize (IH (S i) self1 vis1 w1).
    destruct IH as (H1 & H2 & H3). destruct Hs as (H4 & H5 & H6).
    repeat split; congruence.
Qed.



(** ** What the summary and the interrupt handler leave alone *)

Lemma opens_snoc t e :
  opens (t ++ [e]) = (opens t ++ match e with EvOpenW p => [p] | _ => [] end)%list.
Proof. unfold opens. apply flat_map_snoc. Qed.

Lemma popens_snoc t e :
  popens (t ++ [e]) = (popens t ++ match e with EvPopen c => [c] | _ => [] end)%list.
Proof. unfold popens. apply flat_map_snoc. Qed.

Lemma popens_emit e w :
  (forall cmd, e <> EvPopen cmd) -> popens (trace (emit e w)) = popens (trace w).
Proof.
  intros He. unfold emit. cbn [trace]. rewrite popens_snoc.
  destruct e; try apply app_nil_r. now destruct (He cmd).
Qed.

Lemma opens_emit e w :
  (forall p, e <> EvOpenW p) -> opens (trace (emit e w)) = opens (trace w).
Proof.
  intros He. unfold emit. cbn [trace]. rewrite opens_snoc.
  destruct e; try apply app_nil_r. now destruct (He path).
Qed.

Lemma same_effects_refl w : same_effects w w.
Proof. repeat split. Qed.

Lemma same_effects_trans w1 w2 w3 :
  same_effects w1 w2 -> same_effects w2 w3 -> same_effects w1 w3.
Proof. intros (A & B & C) (D & E & F). repeat split; congruence. Qed.

Lemma same_effects_emit e w :
  (forall cmd, e <> EvPopen cmd) -> (forall p, e <> EvOpenW p) ->
  same_effects (emit e w) w.
Proof.
  intros H1 H2. repeat split; [now apply opens_emit | now apply popens_emit].
Qed.

Lemma console_print_effects L text w : same_effects (fst (console_print L text w)) w.
Proof.
  unfold console_print. destruct (markup_error L text); [apply same_effects_refl|].
  apply same_effects_emit; discriminate.
Qed.

Lemma print_summary_effects L self elapsed w :
  same_effects (fst (print_summary L self elapsed w)) w.
Proof.
  unfold print_summary.
  pose proof (console_print_effects L (done_text elapsed)
                (emit (EvConsole EmptyString) w)) as H1.
  assert (H0 : same_effects (emit (EvConsole EmptyString) w) w)
    by (apply same_effects_emit; discriminate).
  destruct (console_print L (done_text elapsed) _) as [w1 [[]|e]]; cbn [fst] in *.
  - eapply same_effects_trans; [apply console_print_effects|].
    eapply same_effects_trans; eassumption.
  - eapply same_effects_trans; eassumption.
Qed.

Lemma _handle_interrupt_effects L self w :
  same_effects (fst (_handle_interrupt L self w)) w.
Proof.
  unfold _handle_interrupt.
  set (w0 := match process self with Some _ => emit EvTerminate w | None => w end).
  assert (H0 : same_effects w0 w).
  { subst w0. destruct (process self); [|apply same_effects_refl].
    apply same_effects_emit; discriminate. }
  pose proof (console_print_effects L (newline +:+ "[yellow]Interrupted.[/yellow]") w0) as H.
  destruct (console_print L _ w0) as [w1 r1]. cbn [fst] in *.
  eapply same_effects_trans; eassumption.
Qed.

(** What [run_all] adds to the loop over the pairs changes no file,
    opens none and launches no child. *)
Lemma run_all_effects L self env w :
  let '(_, _, w', _) := run_all L self env w in
  same_effects w'
    (run_world (run_pairs L self (kv_cache_types (config self)) 0 (pair_envs env)
                  (new_visualizer (count_combinations (config self)
                                   * Z.of_nat (length (kv_cache_types (config self)))))
                  (emit (EvLive [] 0) w))).
Proof.
  unfold run_all.
  change (generate_display (new_visualizer _)) with (@nil row).
  change (completed (new_visualizer _)) with 0.
  destruct (run_pairs _ _ _ _ _ _ _) as [[[self1 vis1] w1] r1]. cbn [run_world].
  destruct r1 as [[]|e].
  - pose proof (print_summary_effects L self1 (elapsed env) w1) as H.
    destruct (print_summary L self1 (elapsed env) w1) as [w2 r2]. exact H.
  - destruct (is_KeyboardInterrupt e); [|apply same_effects_refl].
    pose proof (_handle_interrupt_effects L self1 w1) as H.
    destruct (_handle_interrupt L self1 w1) as [w2 c]. exact H.
Qed.

(** ** Which files a sweep touches *)

Lemma get_output_filename_settings a b k v now :
  same_settings a b -> get_output_filename a k v now = get_output_filename b k v now.
Proof. intros (_ & _ & Hd). unfold get_output_filename. now rewrite Hd. Qed.

Lemma _save_results_other_file c f wo w path :
  path <> f -> fs (fst (_save_results c f wo w)) !! path = fs w !! path.
Proof.
  intros Hne. unfold _save_results, save_failed. destruct c as [|d c]; [reflexivity|].
  destruct wo as [|e|e]; simpl.
  - now apply lookup_insert_ne.
  - destruct (is_IOError e); reflexivity.
  - destruct (is_IOError e); simpl; now apply lookup_insert_ne.
Qed.

Lemma _run_single_config_other_file L self k v vis w pe path :
  path <> get_output_filename self k v (today pe) ->
  fs (run_world (_run_single_config L self k v vis w pe)) !! path = fs w !! path.
Proof.
  intros Hne. destruct (_run_single_config_save L self k v vis w pe) as (w1 & Hfs & _ & ->).
  rewrite _save_results_other_file by assumption. now rewrite Hfs.
Qed.

Lemma run_pairs_other_file L envs path :
  forall pairs i self vis w,
    ~ is_output_file self pairs i envs path ->
    fs (run_world (run_pairs L self pairs i envs vis w)) !! path = fs w !! path.
Proof.
  induction pairs as [|[k v] pairs IH]; intros i self vis w Hno; simpl; [reflexivity|].
  pose proof (_run_single_config_other_file L self k v vis w (envs i) path) as Hone.
  pose proof (_run_single_config_settings L self k v vis w (envs i)) as Hs.
  destruct (_run_single_config L self k v vis w (envs i)) as [[[self1 vis1] w1] r1].
  simpl in Hone, Hs.
  assert (Hhere : fs w1 !! path = fs w !! path).
  { apply Hone. intros ->. apply Hno. exists O, k, v. split; [reflexivity|].
    now rewrite Nat.add_0_r. }
  destruct r1 as [[]|e]; [|exact Hhere].
  rewrite IH; [exact Hhere|].
  intros (j & k' & v' & Hj & ->). apply Hno. exists (S j), k', v'. split; [exact Hj|].
  rewrite (get_output_filename_settings self1 self) by assumption.
  now rewrite Nat.add_succ_r.
Qed.

(** X10. A sweep leaves every file alone that is not the output file of
    one of its pairs, whatever the children print and however the sweep
    ends. *)
Theorem sweep_touches_output_files_only (L : pylib) (self : LlamaBenchRunner)
    (env : environment) (w : world) (path : string) :
  ~ is_output_file self (kv_cache_types (config self)) 0 (pair_envs env) path ->
  let '(_, _, w', _) := run_all L self env w in
  fs w' !! path = fs w !! path.
Proof.
  intros Hno. pose proof (run_all_effects L self env w) as H.
  destruct (run_all L self env w) as [[[self1 vis1] w1] c].
  destruct H as (-> & _). now rewrite run_pairs_other_file.
Qed.

Lemma sweep_touches_output_files_only_witness :
  let '(_, _, w', _) := run_all Ref.lib sample_runner interrupted_env stale_world in
  fs w' !! "test-results/raw-data-q8_0-q8_0-20260306.json"
  = fs stale_world !! "test-results/raw-data-q8_0-q8_0-20260306.json".
Proof.
  apply (sweep_touches_output_files_only Ref.lib sample_runner interrupted_env
           stale_world "test-results/raw-data-q8_0-q8_0-20260306.json").
  intros (j & k & v & Hj & Hp). destruct j as [|j]; simpl in Hj; [|discriminate].
  injection Hj as <- <-. vm_compute in Hp. discriminate.
Defined.

(** ** A sweep without [llama-bench] *)

(** The texts a console takes. *)
Lemma console_print_taken L text w :
  markup_error L text = None ->
  console_print L text w = (emit (EvConsole text) w, Ok tt).
Proof. intros H. unfold console_print. now rewrite H. Qed.

Lemma unlaunchable_pair_run L self k v vis w pe e :
  popen_raises (proc pe) = Some e -> is_Exception e = true ->
  markup_error L ("[red]Error: Error: " +:+ exn_msg e +:+ "[/red]") = None ->
  _run_single_config L self k v vis w pe
  = (set_process self None, vis,
     emit (EvConsole ("[red]Error: Error: " +:+ exn_msg e +:+ "[/red]"))
       (emit (EvPopen (build_command self k v)) w),
     Ok tt).
Proof.
  intros Hp He Hm. unfold _run_single_config.
  rewrite (run_body_unlaunched L self k v vis w pe e Hp).
  unfold run_failed, log_error, log_error_text. rewrite He.
  change ("[red]Error: " +:+ ("Error: " +:+ exn_msg e) +:+ "[/red]")
    with ("[red]Error: Error: " +:+ exn_msg e +:+ "[/red]").
  rewrite (console_print_taken L _ _ Hm). reflexivity.
Qed.

Lemma unlaunchable_pairs_run L envs e :
  is_Exception e = true -> (forall j, popen_raises (proc (envs j)) = Some e) ->
  markup_error L ("[red]Error: Error: " +:+ exn_msg e +:+ "[/red]") = None ->
  forall pairs i self vis w,
    let r := run_pairs L self pairs i envs vis w in
    run_end r = Ok tt /\ run_vis r = vis
    /\ fs (run_world r) = fs w /\ opens (trace (run_world r)) = opens (trace w)
    /\ console_texts (trace (run_world r))
       = (console_texts (trace w)
          ++ replicate (length pairs)
               ("[red]Error: Error: " +:+ exn_msg e +:+ "[/red]"))%list.
Proof.
  intros He Hp Hm. induction pairs as [|[k v] pairs IH]; intros i self vis w; simpl.
  - rewrite app_nil_r. auto.
  - rewrite (unlaunchable_pair_run L self k v vis w (envs i) e (Hp i) He Hm).
    match goal with |- context [run_pairs L ?s pairs ?j envs vis ?wo] =>
      destruct (IH j s vis wo) as (H1 & H2 & H3 & H4 & H5) end.
    refine (conj H1 (conj H2 (conj _ (conj _ _)))).
    + rewrite H3. reflexivity.
    + rewrite H4. unfold emit. cbn [trace].
      rewrite !opens_snoc, !app_nil_r. reflexivity.
    + rewrite H5. unfold emit. cbn [trace].
      rewrite !console_texts_snoc, app_nil_r, <- app_assoc. reflexivity.
Qed.

(** X11. When no child can be launched, [Popen] raising the same
    [Exception] for each pair as it does where [llama-bench] is not
    installed, the sweep still returns: it reports the exception once
    for each pair, under a doubled heading, records nothing, opens and
    changes no file, and ends with the summary that names the output
    directory as the place the results were saved to.  The console is
    taken to read these texts, as it does when neither the message nor
    the directory holds a tag. *)
Theorem sweep_without_child (L : pylib) (self : LlamaBenchRunner) (env : environment)
    (w : world) (e : exn) :
  is_Exception e = true ->
  (forall j, popen_raises (proc (pair_envs env j)) = Some e) ->
  Forall (fun text => markup_error L text = None)
    [ "[red]Error: Error: " +:+ exn_msg e +:+ "[/red]";
      "[bold green]Done.[/bold green] Time: "
        +:+ str_of_Z (elapsed env / 60) +:+ "m "
        +:+ str_of_Z (elapsed env mod 60) +:+ "s";
      "Results saved to: [dim]" +:+ str_Path (runner_output_dir self) +:+ "[/dim]" ] ->
  let '(_, vis, w', c) := run_all L self env w in
  c = Returned
  /\ results_history vis = []
  /\ fs w' = fs w
  /\ opens (trace w') = opens (trace w)
  /\ console_texts (trace w')
     = (console_texts (trace w)
        ++ replicate (length (kv_cache_types (config self)))
             ("[red]Error: Error: " +:+ exn_msg e +:+ "[/red]")
        ++ [ EmptyString;
             "[bold green]Done.[/bold green] Time: "
               +:+ str_of_Z (elapsed env / 60) +:+ "m "
               +:+ str_of_Z (elapsed env mod 60) +:+ "s";
             "Results saved to: [dim]" +:+ str_Path (runner_output_dir self)
               +:+ "[/dim]" ])%list.
Proof.
  intros He Hp Hm.
  apply Forall_cons_1 in Hm. destruct Hm as [Hm1 Hm].
  apply Forall_cons_1 in Hm. destruct Hm as [Hm2 Hm].
  apply Forall_cons_1 in Hm. destruct Hm as [Hm3 _].
  unfold run_all.
  match goal with |- context [run_pairs L ?s ?ps ?i ?en ?vi ?wo] =>
    pose proof (unlaunchable_pairs_run L en e He Hp Hm1 ps i s vi wo) as H;
    pose proof (run_pairs_settings L en ps i s vi wo) as Hs;
    destruct (run_pairs L s ps i en vi wo) as [[[self1 vis1] w1] r1] end.
  simpl in H, Hs. destruct H as (-> & -> & H3 & H4 & H5).
  destruct Hs as (_ & _ & Hd).
  unfold print_summary, done_text, saved_to_text. rewrite Hd.
  rewrite (console_print_taken L _ _ Hm2), (console_print_taken L _ _ Hm3).
  cbn [ends_with].
  refine (conj eq_refl (conj eq_refl (conj H3 (conj _ _)))).
  - unfold emit. cbn [trace]. rewrite !opens_snoc, !app_nil_r.
    rewrite H4, opens_snoc. apply app_nil_r.
  - unfold emit. cbn [trace]. rewrite !console_texts_snoc.
    rewrite H5, console_texts_snoc, app_nil_r, <- !app_assoc. reflexivity.
Qed.

Lemma sweep_without_child_witness :
  let '(_, vis, w', c) := run_all Ref.lib sample_runner unlaunchable_env empty_world in
  c = Returned
  /\ results_history vis = []
  /\ fs w' = fs empty_world
  /\ opens (trace w') = opens (trace empty_world)
  /\ console_texts (trace w')
     = (console_texts (trace empty_world)
        ++ replicate (length (kv_cache_types (config sample_runner)))
             ("[red]Error: Error: " +:+ exn_msg not_installed +:+ "[/red]")
        ++ [ EmptyString;
             "[bold green]Done.[/bold green] Time: "
               +:+ str_of_Z (elapsed unlaunchable_env / 60) +:+ "m "
               +:+ str_of_Z (elapsed unlaunchable_env mod 60) +:+ "s";
             "Results saved to: [dim]" +:+ str_Path (runner_output_dir sample_runner)
               +:+ "[/dim]" ])%list.
Proof.
  apply (sweep_without_child Ref.lib sample_runner unlaunchable_env empty_world
           not_installed).
  - reflexivity.
  - intros j. reflexivity.
  - repeat constructor.
Defined.

(** ** Writes that fail *)

(** X12. An [IOError] on opening the output file does not stop the
    pair run: the file system is as before, the runner holds no child
    any more, and when there were records to save the run ends on the
    attempt to open the file and the printed message that names the file
    and the error; the records are kept nowhere. *)
Theorem unwritable_output_swallowed (L : pylib) (self : LlamaBenchRunner) (k v : string)
    (vis : BenchmarkVisualizer) (w : world) (pe : pair_env) (e : exn) :
  write pe = OpenFails e -> is_IOError e = true ->
  let r := _run_single_config L self k v vis w pe in
  let file := get_output_filename self k v (today pe) in
  fs (run_world r) = fs w
  /\ process (run_runner r) = None
  /\ (run_collected L self k v vis w pe <> [] ->
      exists before,
        trace (run_world r)
        = (before ++ [ EvOpenW file;
                       EvPrint ("Failed to save results to " +:+ file +:+ ": "
                                  +:+ exn_msg e) ])%list).
Proof.
  intros Hw He. cbn zeta.
  destruct (_run_single_config_save L self k v vis w pe) as (w1 & Hfs & _ & Hrun).
  rewrite Hw in Hrun. split; [|split].
  - rewrite Hrun. unfold _save_results, save_failed. rewrite He.
    destruct (run_collected L self k v vis w pe); exact Hfs.
  - apply _run_single_config_forgets_child. rewrite Hw. exact He.
  - intros Hne. rewrite Hrun. unfold _save_results, save_failed. rewrite He.
    destruct (run_collected L self k v vis w pe); [contradiction|].
    exists (trace w1). unfold emit. cbn [fst trace]. now rewrite <- app_assoc.
Qed.

Lemma unwritable_output_swallowed_witness :
  let r := _run_single_config Ref.lib sample_runner "q8_0" "q8_0" (new_visualizer 294)
             empty_world read_only_pair in
  let file := get_output_filename sample_runner "q8_0" "q8_0" (today read_only_pair) in
  fs (run_world r) = fs empty_world
  /\ process (run_runner r) = None
  /\ (run_collected Ref.lib sample_runner "q8_0" "q8_0" (new_visualizer 294)
        empty_world read_only_pair <> [] ->
      exists before,
        trace (run_world r)
        = (before ++ [ EvOpenW file;
                       EvPrint ("Failed to save results to " +:+ file +:+ ": "
                                  +:+ exn_msg (Exn OSError "[Errno 13] Permission denied")) ])%list).
Proof.
  apply (unwritable_output_swallowed Ref.lib sample_runner "q8_0" "q8_0"
           (new_visualizer 294) empty_world read_only_pair
           (Exn OSError "[Errno 13] Permission denied")); reflexivity.
Defined.

(** X13. A dump that fails after the output file was opened leaves the
    file as the failed write left it: what the file held before is
    lost, whatever the exception, and no other file changes. *)
Theorem failed_dump_truncates (L : pylib) (self : LlamaBenchRunner) (k v : string)
    (vis : BenchmarkVisualizer) (w : world) (pe : pair_env) (e : exn) :
  write pe = DumpFails e ->
  run_collected L self k v vis w pe <> [] ->
  fs (run_world (_run_single_config L self k v vis w pe))
  = <[get_output_filename self k v (today pe) := Truncated]> (fs w).
Proof.
  intros Hw Hne.
  destruct (_run_single_config_save L self k v vis w pe) as (w1 & Hfs & _ & Hrun).
  rewrite Hw in Hrun. rewrite Hrun. unfold _save_results, save_failed.
  destruct (run_collected L self k v vis w pe); [contradiction|].
  destruct (is_IOError e); cbn [fst fs emit write_file]; now rewrite Hfs.
Qed.

Lemma failed_dump_truncates_witness :
  fs (run_world (_run_single_config Ref.lib sample_runner "q8_0" "q8_0"
                   (new_visualizer 294) stale_world disk_full_pair))
  = <[get_output_filename sample_runner "q8_0" "q8_0" (today disk_full_pair) := Truncated]>
      (fs stale_world).
Proof.
  apply (failed_dump_truncates Ref.lib sample_runner "q8_0" "q8_0" (new_visualizer 294)
           stale_world disk_full_pair (Exn OSError "[Errno 28] No space left on device")).
  - reflexivity.
  - vm_compute. discriminate.
Defined.

(** ** How [main] ends *)

(** X14. Unless the command line names a model file that is there and
    the user answers the prompt with a line, [main] launches no child,
    opens no file for writing, changes no file, and ends with status 0
    or 1. *)
Theorem unconfirmed_main_launches_nothing (L : pylib) (env : environment) (w : world) :
  ~ confirmed env ->
  let r := main L env w in
  popens (trace (fst r)) = popens (trace w)
  /\ opens (trace (fst r)) = opens (trace w)
  /\ fs (fst r) = fs w
  /\ (exit_status (snd r) = 0 \/ exit_status (snd r) = 1).
Proof.
  intros Hno. cbn zeta. unfold main.
  destruct (argv env) as [|a0 [|a1 rest]] eqn:Ha;
    try (cbn [fst snd exit_status];
         rewrite popens_emit, opens_emit by discriminate; auto).
  destruct (path_exists env (str_Path a1)) eqn:Hp; cbn [negb].
  2:{ destruct (console_print_effects L (model_not_found_text (str_Path a1)) w)
        as (H1 & H2 & H3).
      pose proof (console_print_raises L (model_not_found_text (str_Path a1)) w) as Hr.
      destruct (console_print L _ w) as [w1 r1]. cbn [fst snd] in *.
      refine (conj H3 (conj H2 (conj H1 _))).
      destruct r1 as [[]|e]; cbn [ends_with exit_status]; [auto|].
      unfold is_KeyboardInterrupt. rewrite (Hr e eq_refl). auto. }
  destruct (mkdir_error env) as [msg|].
  { cbn [fst snd exit_status]. rewrite popens_emit, opens_emit by discriminate. auto. }
  destruct (stdin_reply env) as [line|e] eqn:Hi.
  { destruct Hno. exists a0, a1, rest, line. auto. }
  destruct (is_KeyboardInterrupt e) eqn:Hk; cbn [fst snd exit_status];
    rewrite ?Hk, !popens_emit, !opens_emit by discriminate; auto.
Qed.

Lemma unconfirmed_main_launches_nothing_witness :
  let r := main Ref.lib declined_env stale_world in
  popens (trace (fst r)) = popens (trace stale_world)
  /\ opens (trace (fst r)) = opens (trace stale_world)
  /\ fs (fst r) = fs stale_world
  /\ (exit_status (snd r) = 0 \/ exit_status (snd r) = 1).
Proof.
  apply (unconfirmed_main_launches_nothing Ref.lib declined_env stale_world).
  intros (a0 & a1 & rest & line & _ & _ & Hi). discriminate Hi.
Defined.






(** ** Records kept and records shown *)

Lemma read_loop_kept_shown L kv_str rs :
  forall c vis w,
    let '(c', vis', _, r) := read_loop L kv_str rs c vis w in
    exists extra : nat,
      (extra <= 1)%nat
      /\ (length (results_history vis') + length c + extra
          = length (results_history vis) + length c')%nat
      /\ (extra = 1%nat -> exists e, r = Raise e).
Proof.
  induction rs as [|[line|e] rs IH]; intros c vis w; simpl;
    try (exists O; repeat split; [lia | lia | discriminate]).
  destruct (String.eqb line EmptyString);
    [exists O; repeat split; [lia | lia | discriminate]|].
  destruct (_parse_line L line) as [result|e];
    [|exists O; repeat split; [lia | lia | discriminate]].
  destruct (not_result result); [apply IH|].
  destruct result as [d|]; [|apply IH].
  destruct (update_result L vis d kv_str) as [vis1|e] eqn:Hu.
  - rewrite update_result_appends in Hu.
    destruct (deriveSpeeds L d) as [speeds|e]; [|discriminate].
    injection Hu as <-.
    match goal with |- context [read_loop L kv_str rs ?c1 ?v1 ?w1] =>
      specialize (IH c1 v1 w1); destruct (read_loop L kv_str rs c1 v1 w1)
        as [[[c' v'] w'] r'] end.
    destruct IH as (extra & H1 & H2 & H3). cbn [results_history] in H2.
    rewrite !length_app in H2. simpl in H2.
    exists extra. repeat split; [lia | lia | exact H3].
  - exists 1%nat. rewrite length_app. simpl. repeat split; [lia | lia | eauto].
Qed.

(** X16. Whatever the child prints and however the pair run ends, the
    records the run collects, which are those it saves, are as many as
    the entries it adds to the history, or one more: the one more is a
    last record that was collected before [update_result] raised on
    it. *)
Theorem kept_records_match_history (L : pylib) (self : LlamaBenchRunner) (k v : string)
    (vis : BenchmarkVisualizer) (w : world) (pe : pair_env) :
  let collected := run_collected L self k v vis w pe in
  let vis' := run_vis (_run_single_config L self k v vis w pe) in
  exists extra : nat,
    (extra <= 1)%nat
    /\ (length (results_history vis') + extra
        = length (results_history vis) + length collected)%nat
    /\ (extra = 1%nat ->
        exists e, body_end (run_body L self (k +:+ "/" +:+ v) (build_command self k v)
                              vis w (proc pe)) = Raise e).
Proof.
  cbn zeta. rewrite _run_single_config_vis. unfold run_collected.
  destruct (popen_raises (proc pe)) as [e|] eqn:Hp.
  { rewrite (run_body_unlaunched L self k v vis w pe e Hp). exists O. cbn.
    repeat split; try lia; discriminate. }
  pose proof (run_body_of_loop L self k v vis w pe Hp) as Hb.
  pose proof (read_loop_kept_shown L (k +:+ "/" +:+ v) (reads (proc pe)) [] vis
                (emit (EvPopen (build_command self k v)) w)) as H.
  unfold pair_loop in Hb.
  destruct (read_loop _ _ _ _ _ _) as [[[c' v'] w'] r'].
  destruct Hb as (-> & -> & _ & Hraise).
  destruct H as (extra & H1 & H2 & H3). simpl in H2.
  exists extra. repeat split; [assumption | lia |].
  intros Hx. destruct (H3 Hx) as [e ->]. eauto.
Qed.

(** ** Pairs that share an output file *)

Lemma _run_single_config_fs L self k v vis w pe :
  write pe = WriteOk ->
  fs (run_world (_run_single_config L self k v vis w pe))
  = match run_collected L self k v vis w pe with
    | [] => fs w
    | c => <[get_output_filename self k v (today pe)
               := JsonDump (VList (map VDict c)) 2]> (fs w)
    end.
Proof.
  intros Hw.
  destruct (_run_single_config_save L self k v vis w pe) as (w1 & Hfs & _ & ->).
  rewrite Hw. unfold _save_results.
  destruct (run_collected L self k v vis w pe); cbn [fst fs write_file emit];
    now rewrite Hfs.
Qed.

(** X17. When two pairs that follow each other in a sweep have the same
    output file, as a pair listed twice on one day has, the file holds
    after the second run the records of the second run alone: those of
    the first are overwritten. *)
Theorem later_pair_overwrites (L : pylib) (self : LlamaBenchRunner)
    (k1 v1 k2 v2 : string) (i : nat) (envs : nat -> pair_env)
    (vis : BenchmarkVisualizer) (w : world) :
  write (envs i) = WriteOk -> write (envs (S i)) = WriteOk ->
  get_output_filename self k1 v1 (today (envs i))
    = get_output_filename self k2 v2 (today (envs (S i))) ->
  let r1 := _run_single_config L self k1 v1 vis w (envs i) in
  run_end r1 = Ok tt ->
  let c2 := run_collected L (run_runner r1) k2 v2 (run_vis r1) (run_world r1)
              (envs (S i)) in
  c2 <> [] ->
  fs (run_world (run_pairs L self [(k1, v1); (k2, v2)] i envs vis w))
  = <[get_output_filename self k1 v1 (today (envs i))
        := JsonDump (VList (map VDict c2)) 2]> (fs w).
Proof.
  intros Hw1 Hw2 Hfile. cbn zeta. simpl run_pairs.
  pose proof (_run_single_config_fs L self k1 v1 vis w (envs i) Hw1) as Hfs1.
  pose proof (_run_single_config_settings L self k1 v1 vis w (envs i)) as Hs.
  destruct (_run_single_config L self k1 v1 vis w (envs i)) as [[[self1 vis1] w1] r1].
  cbn [run_end run_runner run_vis run_world] in *. intros -> Hne.
  pose proof (_run_single_config_fs L self1 k2 v2 vis1 w1 (envs (S i)) Hw2) as Hfs2.
  destruct (_run_single_config L self1 k2 v2 vis1 w1 (envs (S i)))
    as [[[self2 vis2] w2] r2].
  cbn [run_world] in Hfs2.
  assert (Hgoal : fs w2 = <[get_output_filename self k1 v1 (today (envs i))
                              := JsonDump (VList (map VDict
                                   (run_collected L self1 k2 v2 vis1 w1 (envs (S i))))) 2]>
                            (fs w)).
  { rewrite Hfs2.
    destruct (run_collected L self1 k2 v2 vis1 w1 (envs (S i))) as [|d ds];
      [contradiction|].
    rewrite (get_output_filename_settings self1 self) by assumption.
    rewrite <- Hfile, Hfs1.
    destruct (run_collected L self k1 v1 vis w (envs i)); [reflexivity|].
    apply insert_insert_eq. }
  destruct r2 as [[]|e]; exact Hgoal.
Qed.

Lemma later_pair_overwrites_witness :
  fs (run_world (run_pairs Ref.lib sample_runner [("q8_0", "q8_0"); ("q8_0", "q8_0")] 0
                   (fun j => match j with O => passing_pair | _ => interrupted_pair end)
                   (new_visualizer 588) empty_world))
  = <[sample_path := JsonDump (VList [VDict sample_record]) 2]> (fs empty_world).
Proof.
  apply (later_pair_overwrites Ref.lib sample_runner "q8_0" "q8_0" "q8_0" "q8_0" 0
           (fun j => match j with O => passing_pair | _ => interrupted_pair end)
           (new_visualizer 588) empty_world).
  - reflexivity.
  - reflexivity.
  - reflexivity.
  - reflexivity.
  - vm_compute. discriminate.
Defined.
